(** * Low level EIB bus access: a shallow embedding of [src/eib/bus.cpp]

    The C++ class [Bus] is a record, its methods are functions that pass the
    record along, and the timer interrupt handler is one function from the
    timer flags of an invocation to the next record.  Pointers to telegram
    buffers are addresses in a finite map; dereferencing a null or dangling
    pointer and indexing outside a buffer are faults. *)

From stdpp Require Import base option list gmap.
From Stdlib Require Import ZArith Bool Lia.

Local Open Scope Z_scope.

(** ** Constants of bus.cpp *)

Definition SB_TEL_REPEAT_FLAG : Z := 0x20.
Definition BIT_TIME : Z := 104.
Definition BIT_WAIT_TIME : Z := 69.
Definition BIT_PULSE_TIME : Z := 35.
Definition BYTE_TIME : Z := 1090.
Definition SEND_ACK_WAIT_TIME : Z := 1177.
Definition SEND_WAIT_TIME : Z := 5200.
Definition PRE_SEND_TIME : Z := 104.

(** Modelled from the spec: the acknowledge bytes [SB_BUS_ACK] and
    [SB_BUS_NACK] are declared in bus.h, which is not part of the sources;
    the specification gives their values. *)
Definition SB_BUS_ACK : Z := 0xCC.
Definition SB_BUS_NACK : Z := 0x0C.

(** ** Faults and the error monad *)

Inductive fault : Type :=
  | NullPointer     (* dereference of a null pointer *)
  | OutOfBounds     (* access outside a buffer, or through a dangling pointer *)
  | FatalError.     (* fatalError() *)

Inductive result (A : Type) : Type :=
  | Ok (a : A)
  | Fault (f : fault).
Arguments Ok {A} a.
Arguments Fault {A} f.

#[global] Instance result_ret : MRet result := fun A a => Ok a.
#[global] Instance result_bind : MBind result := fun A B k r =>
  match r with
  | Ok a => k a
  | Fault f => Fault f
  end.

(** Left-to-right chaining of field updates. *)
Notation "b |> f" := (f b) (at level 68, left associativity, only parsing).

(** ** Bytes and buffers *)

(** An [unsigned char] holds a value modulo 256. *)
Definition to_byte (x : Z) : Z := x mod 256.

Definition is_byte (x : Z) : Prop := 0 <= x < 256.

(** [buf[i]] as an rvalue. *)
Definition load (buf : list Z) (i : Z) : result Z :=
  if i <? 0 then Fault OutOfBounds
  else match buf !! Z.to_nat i with
       | Some x => Ok x
       | None => Fault OutOfBounds
       end.

(** [buf[i] = v] on an array of [unsigned char]. *)
Definition store (buf : list Z) (i v : Z) : result (list Z) :=
  if (0 <=? i) && (i <? Z.of_nat (length buf))
  then Ok (<[Z.to_nat i := to_byte v]> buf)
  else Fault OutOfBounds.

(** XOR of the octets [buf[0] .. buf[n-1]]. *)
Definition xor_octets (buf : list Z) (n : nat) : Z :=
  foldr Z.lxor 0 (take n buf).

(** ** The state of the bus access object *)

Inductive State : Type :=
  | IDLE | RECV_START | RECV_BYTE
  | SEND_INIT | SEND_START_BIT | SEND_BIT_0 | SEND_BIT | SEND_BIT_WAIT
  | SEND_END | SEND_WAIT.

#[global] Instance State_eq_dec : EqDecision State.
Proof. solve_decision. Defined.

(** The members of [Bus] that bus.cpp uses, the registers of its timer that
    the code programs ([match_pwm], [match_time], the interrupt bits of the
    time channel's match mode and of the capture mode), the memory that the
    send pointers refer to ([mem]) and [userRam.status] ([status]).  A
    pointer is [None] (null) or the address of a buffer in [mem]. *)
Record Bus : Type := mkBus {
  state : State;
  ownAddr : Z;
  telegram : list Z;
  telegramLen : Z;
  nextByteIndex : Z;
  currentByte : Z;
  checksum : Z;
  valid : Z;
  parity : Z;
  bitMask : Z;
  bitTime : Z;
  sendAck : Z;
  sendTries : Z;
  sendTelegramLen : Z;
  sendCurTelegram : option nat;
  sendNextTel : option nat;
  collision : bool;
  match_pwm : Z;
  match_time : Z;
  time_interrupt : bool;
  capture_interrupt : bool;
  mem : gmap nat (list Z);
  status : Z
}.

Definition set_state (v : State) (b : Bus) : Bus :=
  {| state := v; ownAddr := ownAddr b; telegram := telegram b;
     telegramLen := telegramLen b; nextByteIndex := nextByteIndex b;
     currentByte := currentByte b; checksum := checksum b; valid := valid b;
     parity := parity b; bitMask := bitMask b; bitTime := bitTime b;
     sendAck := sendAck b; sendTries := sendTries b;
     sendTelegramLen := sendTelegramLen b; sendCurTelegram := sendCurTelegram b;
     sendNextTel := sendNextTel b; collision := collision b; match_pwm := match_pwm b;
     match_time := match_time b; time_interrupt := time_interrupt b;
     capture_interrupt := capture_interrupt b; mem := mem b; status := status b |}.
Definition set_ownAddr (v : Z) (b : Bus) : Bus :=
  {| state := state b; ownAddr := v; telegram := telegram b;
     telegramLen := telegramLen b; nextByteIndex := nextByteIndex b;
     currentByte := currentByte b; checksum := checksum b; valid := valid b;
     parity := parity b; bitMask := bitMask b; bitTime := bitTime b;
     sendAck := sendAck b; sendTries := sendTries b;
     sendTelegramLen := sendTelegramLen b; sendCurTelegram := sendCurTelegram b;
     sendNextTel := sendNextTel b; collision := collision b; match_pwm := match_pwm b;
     match_time := match_time b; time_interrupt := time_interrupt b;
     capture_interrupt := capture_interrupt b; mem := mem b; status := status b |}.
Definition set_telegram (v : list Z) (b : Bus) : Bus :=
  {| state := state b; ownAddr := ownAddr b; telegram := v; telegramLen := telegramLen b;
     nextByteIndex := nextByteIndex b; currentByte := currentByte b;
     checksum := checksum b; valid := valid b; parity := parity b; bitMask := bitMask b;
     bitTime := bitTime b; sendAck := sendAck b; sendTries := sendTries b;
     sendTelegramLen := sendTelegramLen b; sendCurTelegram := sendCurTelegram b;
     sendNextTel := sendNextTel b; collision := collision b; match_pwm := match_pwm b;
     match_time := match_time b; time_interrupt := time_interrupt b;
     capture_interrupt := capture_interrupt b; mem := mem b; status := status b |}.
Definition set_telegramLen (v : Z) (b : Bus) : Bus :=
  {| state := state b; ownAddr := ownAddr b; telegram := telegram b; telegramLen := v;
     nextByteIndex := nextByteIndex b; currentByte := currentByte b;
     checksum := checksum b; valid := valid b; parity := parity b; bitMask := bitMask b;
     bitTime := bitTime b; sendAck := sendAck b; sendTries := sendTries b;
     sendTelegramLen := sendTelegramLen b; sendCurTelegram := sendCurTelegram b;
     sendNextTel := sendNextTel b; collision := collision b; match_pwm := match_pwm b;
     match_time := match_time b; time_interrupt := time_interrupt b;
     capture_interrupt := capture_interrupt b; mem := mem b; status := status b |}.
Definition set_nextByteIndex (v : Z) (b : Bus) : Bus :=
  {| state := state b; ownAddr := ownAddr b; telegram := telegram b;
     telegramLen := telegramLen b; nextByteIndex := v; currentByte := currentByte b;
     checksum := checksum b; valid := valid b; parity := parity b; bitMask := bitMask b;
     bitTime := bitTime b; sendAck := sendAck b; sendTries := sendTries b;
     sendTelegramLen := sendTelegramLen b; sendCurTelegram := sendCurTelegram b;
     sendNextTel := sendNextTel b; collision := collision b; match_pwm := match_pwm b;
     match_time := match_time b; time_interrupt := time_interrupt b;
     capture_interrupt := capture_interrupt b; mem := mem b; status := status b |}.
Definition set_currentByte (v : Z) (b : Bus) : Bus :=
  {| state := state b; ownAddr := ownAddr b; telegram := telegram b;
     telegramLen := telegramLen b; nextByteIndex := nextByteIndex b; currentByte := v;
     checksum := checksum b; valid := valid b; parity := parity b; bitMask := bitMask b;
     bitTime := bitTime b; sendAck := sendAck b; sendTries := sendTries b;
     sendTelegramLen := sendTelegramLen b; sendCurTelegram := sendCurTelegram b;
     sendNextTel := sendNextTel b; collision := collision b; match_pwm := match_pwm b;
     match_time := match_time b; time_interrupt := time_interrupt b;
     capture_interrupt := capture_interrupt b; mem := mem b; status := status b |}.
Definition set_checksum (v : Z) (b : Bus) : Bus :=
  {| state := state b; ownAddr := ownAddr b; telegram := telegram b;
     telegramLen := telegramLen b; nextByteIndex := nextByteIndex b;
     currentByte := currentByte b; checksum := v; valid := valid b; parity := parity b;
     bitMask := bitMask b; bitTime := bitTime b; sendAck := sendAck b;
     sendTries := sendTries b; sendTelegramLen := sendTelegramLen b;
     sendCurTelegram := sendCurTelegram b; sendNextTel := sendNextTel b;
     collision := collision b; match_pwm := match_pwm b; match_time := match_time b;
     time_interrupt := time_interrupt b; capture_interrupt := capture_interrupt b;
     mem := mem b; status := status b |}.
Definition set_valid (v : Z) (b : Bus) : Bus :=
  {| state := state b; ownAddr := ownAddr b; telegram := telegram b;
     telegramLen := telegramLen b; nextByteIndex := nextByteIndex b;
     currentByte := currentByte b; checksum := checksum b; valid := v;
     parity := parity b; bitMask := bitMask b; bitTime := bitTime b;
     sendAck := sendAck b; sendTries := sendTries b;
     sendTelegramLen := sendTelegramLen b; sendCurTelegram := sendCurTelegram b;
     sendNextTel := sendNextTel b; collision := collision b; match_pwm := match_pwm b;
     match_time := match_time b; time_interrupt := time_interrupt b;
     capture_interrupt := capture_interrupt b; mem := mem b; status := status b |}.
Definition set_parity (v : Z) (b : Bus) : Bus :=
  {| state := state b; ownAddr := ownAddr b; telegram := telegram b;
     telegramLen := telegramLen b; nextByteIndex := nextByteIndex b;
     currentByte := currentByte b; checksum := checksum b; valid := valid b; parity := v;
     bitMask := bitMask b; bitTime := bitTime b; sendAck := sendAck b;
     sendTries := sendTries b; sendTelegramLen := sendTelegramLen b;
     sendCurTelegram := sendCurTelegram b; sendNextTel := sendNextTel b;
     collision := collision b; match_pwm := match_pwm b; match_time := match_time b;
     time_interrupt := time_interrupt b; capture_interrupt := capture_interrupt b;
     mem := mem b; status := status b |}.
Definition set_bitMask (v : Z) (b : Bus) : Bus :=
  {| state := state b; ownAddr := ownAddr b; telegram := telegram b;
     telegramLen := telegramLen b; nextByteIndex := nextByteIndex b;
     currentByte := currentByte b; checksum := checksum b; valid := valid b;
     parity := parity b; bitMask := v; bitTime := bitTime b; sendAck := sendAck b;
     sendTries := sendTries b; sendTelegramLen := sendTelegramLen b;
     sendCurTelegram := sendCurTelegram b; sendNextTel := sendNextTel b;
     collision := collision b; match_pwm := match_pwm b; match_time := match_time b;
     time_interrupt := time_interrupt b; capture_interrupt := capture_interrupt b;
     mem := mem b; status := status b |}.
Definition set_bitTime (v : Z) (b : Bus) : Bus :=
  {| state := state b; ownAddr := ownAddr b; telegram := telegram b;
     telegramLen := telegramLen b; nextByteIndex := nextByteIndex b;
     currentByte := currentByte b; checksum := checksum b; valid := valid b;
     parity := parity b; bitMask := bitMask b; bitTime := v; sendAck := sendAck b;
     sendTries := sendTries b; sendTelegramLen := sendTelegramLen b;
     sendCurTelegram := sendCurTelegram b; sendNextTel := sendNextTel b;
     collision := collision b; match_pwm := match_pwm b; match_time := match_time b;
     time_interrupt := time_interrupt b; capture_interrupt := capture_interrupt b;
     mem := mem b; status := status b |}.
Definition set_sendAck (v : Z) (b : Bus) : Bus :=
  {| state := state b; ownAddr := ownAddr b; telegram := telegram b;
     telegramLen := telegramLen b; nextByteIndex := nextByteIndex b;
     currentByte := currentByte b; checksum := checksum b; valid := valid b;
     parity := parity b; bitMask := bitMask b; bitTime := bitTime b; sendAck := v;
     sendTries := sendTries b; sendTelegramLen := sendTelegramLen b;
     sendCurTelegram := sendCurTelegram b; sendNextTel := sendNextTel b;
     collision := collision b; match_pwm := match_pwm b; match_time := match_time b;
     time_interrupt := time_interrupt b; capture_interrupt := capture_interrupt b;
     mem := mem b; status := status b |}.
Definition set_sendTries (v : Z) (b : Bus) : Bus :=
  {| state := state b; ownAddr := ownAddr b; telegram := telegram b;
     telegramLen := telegramLen b; nextByteIndex := nextByteIndex b;
     currentByte := currentByte b; checksum := checksum b; valid := valid b;
     parity := parity b; bitMask := bitMask b; bitTime := bitTime b;
     sendAck := sendAck b; sendTries := v; sendTelegramLen := sendTelegramLen b;
     sendCurTelegram := sendCurTelegram b; sendNextTel := sendNextTel b;
     collision := collision b; match_pwm := match_pwm b; match_time := match_time b;
     time_interrupt := time_interrupt b; capture_interrupt := capture_interrupt b;
     mem := mem b; status := status b |}.
Definition set_sendTelegramLen (v : Z) (b : Bus) : Bus :=
  {| state := state b; ownAddr := ownAddr b; telegram := telegram b;
     telegramLen := telegramLen b; nextByteIndex := nextByteIndex b;
     currentByte := currentByte b; checksum := checksum b; valid := valid b;
     parity := parity b; bitMask := bitMask b; bitTime := bitTime b;
     sendAck := sendAck b; sendTries := sendTries b; sendTelegramLen := v;
     sendCurTelegram := sendCurTelegram b; sendNextTel := sendNextTel b;
     collision := collision b; match_pwm := match_pwm b; match_time := match_time b;
     time_interrupt := time_interrupt b; capture_interrupt := capture_interrupt b;
     mem := mem b; status := status b |}.
Definition set_sendCurTelegram (v : option nat) (b : Bus) : Bus :=
  {| state := state b; ownAddr := ownAddr b; telegram := telegram b;
     telegramLen := telegramLen b; nextByteIndex := nextByteIndex b;
     currentByte := currentByte b; checksum := checksum b; valid := valid b;
     parity := parity b; bitMask := bitMask b; bitTime := bitTime b;
     sendAck := sendAck b; sendTries := sendTries b;
     sendTelegramLen := sendTelegramLen b; sendCurTelegram := v;
     sendNextTel := sendNextTel b; collision := collision b; match_pwm := match_pwm b;
     match_time := match_time b; time_interrupt := time_interrupt b;
     capture_interrupt := capture_interrupt b; mem := mem b; status := status b |}.
Definition set_sendNextTel (v : option nat) (b : Bus) : Bus :=
  {| state := state b; ownAddr := ownAddr b; telegram := telegram b;
     telegramLen := telegramLen b; nextByteIndex := nextByteIndex b;
     currentByte := currentByte b; checksum := checksum b; valid := valid b;
     parity := parity b; bitMask := bitMask b; bitTime := bitTime b;
     sendAck := sendAck b; sendTries := sendTries b;
     sendTelegramLen := sendTelegramLen b; sendCurTelegram := sendCurTelegram b;
     sendNextTel := v; collision := collision b; match_pwm := match_pwm b;
     match_time := match_time b; time_interrupt := time_interrupt b;
     capture_interrupt := capture_interrupt b; mem := mem b; status := status b |}.
Definition set_collision (v : bool) (b : Bus) : Bus :=
  {| state := state b; ownAddr := ownAddr b; telegram := telegram b;
     telegramLen := telegramLen b; nextByteIndex := nextByteIndex b;
     currentByte := currentByte b; checksum := checksum b; valid := valid b;
     parity := parity b; bitMask := bitMask b; bitTime := bitTime b;
     sendAck := sendAck b; sendTries := sendTries b;
     sendTelegramLen := sendTelegramLen b; sendCurTelegram := sendCurTelegram b;
     sendNextTel := sendNextTel b; collision := v; match_pwm := match_pwm b;
     match_time := match_time b; time_interrupt := time_interrupt b;
     capture_interrupt := capture_interrupt b; mem := mem b; status := status b |}.
Definition set_match_pwm (v : Z) (b : Bus) : Bus :=
  {| state := state b; ownAddr := ownAddr b; telegram := telegram b;
     telegramLen := telegramLen b; nextByteIndex := nextByteIndex b;
     currentByte := currentByte b; checksum := checksum b; valid := valid b;
     parity := parity b; bitMask := bitMask b; bitTime := bitTime b;
     sendAck := sendAck b; sendTries := sendTries b;
     sendTelegramLen := sendTelegramLen b; sendCurTelegram := sendCurTelegram b;
     sendNextTel := sendNextTel b; collision := collision b; match_pwm := v;
     match_time := match_time b; time_interrupt := time_interrupt b;
     capture_interrupt := capture_interrupt b; mem := mem b; status := status b |}.
Definition set_match_time (v : Z) (b : Bus) : Bus :=
  {| state := state b; ownAddr := ownAddr b; telegram := telegram b;
     telegramLen := telegramLen b; nextByteIndex := nextByteIndex b;
     currentByte := currentByte b; checksum := checksum b; valid := valid b;
     parity := parity b; bitMask := bitMask b; bitTime := bitTime b;
     sendAck := sendAck b; sendTries := sendTries b;
     sendTelegramLen := sendTelegramLen b; sendCurTelegram := sendCurTelegram b;
     sendNextTel := sendNextTel b; collision := collision b; match_pwm := match_pwm b;
     match_time := v; time_interrupt := time_interrupt b;
     capture_interrupt := capture_interrupt b; mem := mem b; status := status b |}.
Definition set_time_interrupt (v : bool) (b : Bus) : Bus :=
  {| state := state b; ownAddr := ownAddr b; telegram := telegram b;
     telegramLen := telegramLen b; nextByteIndex := nextByteIndex b;
     currentByte := currentByte b; checksum := checksum b; valid := valid b;
     parity := parity b; bitMask := bitMask b; bitTime := bitTime b;
     sendAck := sendAck b; sendTries := sendTries b;
     sendTelegramLen := sendTelegramLen b; sendCurTelegram := sendCurTelegram b;
     sendNextTel := sendNextTel b; collision := collision b; match_pwm := match_pwm b;
     match_time := match_time b; time_interrupt := v;
     capture_interrupt := capture_interrupt b; mem := mem b; status := status b |}.
Definition set_capture_interrupt (v : bool) (b : Bus) : Bus :=
  {| state := state b; ownAddr := ownAddr b; telegram := telegram b;
     telegramLen := telegramLen b; nextByteIndex := nextByteIndex b;
     currentByte := currentByte b; checksum := checksum b; valid := valid b;
     parity := parity b; bitMask := bitMask b; bitTime := bitTime b;
     sendAck := sendAck b; sendTries := sendTries b;
     sendTelegramLen := sendTelegramLen b; sendCurTelegram := sendCurTelegram b;
     sendNextTel := sendNextTel b; collision := collision b; match_pwm := match_pwm b;
     match_time := match_time b; time_interrupt := time_interrupt b;
     capture_interrupt := v; mem := mem b; status := status b |}.
Definition set_mem (v : gmap nat (list Z)) (b : Bus) : Bus :=
  {| state := state b; ownAddr := ownAddr b; telegram := telegram b;
     telegramLen := telegramLen b; nextByteIndex := nextByteIndex b;
     currentByte := currentByte b; checksum := checksum b; valid := valid b;
     parity := parity b; bitMask := bitMask b; bitTime := bitTime b;
     sendAck := sendAck b; sendTries := sendTries b;
     sendTelegramLen := sendTelegramLen b; sendCurTelegram := sendCurTelegram b;
     sendNextTel := sendNextTel b; collision := collision b; match_pwm := match_pwm b;
     match_time := match_time b; time_interrupt := time_interrupt b;
     capture_interrupt := capture_interrupt b; mem := v; status := status b |}.
Definition set_status (v : Z) (b : Bus) : Bus :=
  {| state := state b; ownAddr := ownAddr b; telegram := telegram b;
     telegramLen := telegramLen b; nextByteIndex := nextByteIndex b;
     currentByte := currentByte b; checksum := checksum b; valid := valid b;
     parity := parity b; bitMask := bitMask b; bitTime := bitTime b;
     sendAck := sendAck b; sendTries := sendTries b;
     sendTelegramLen := sendTelegramLen b; sendCurTelegram := sendCurTelegram b;
     sendNextTel := sendNextTel b; collision := collision b; match_pwm := match_pwm b;
     match_time := match_time b; time_interrupt := time_interrupt b;
     capture_interrupt := capture_interrupt b; mem := mem b; status := v |}.

(** ** The flags and registers the handler reads in one invocation *)

Record Input : Type := mkInput {
  capFlag : bool;    (* timer.flag(captureChannel) *)
  timeFlag : bool;   (* timer.flag(timeChannel) *)
  capture : Z;       (* timer.capture(captureChannel) *)
  value : Z          (* timer.value() *)
}.

(** The pointee of a pointer. *)
Definition deref (p : option nat) (b : Bus) : result (nat * list Z) :=
  match p with
  | None => Fault NullPointer
  | Some a =>
      match mem b !! a with
      | Some buf => Ok (a, buf)
      | None => Fault OutOfBounds
      end
  end.

(** Declared outside bus.cpp: the group address lookup [indexOfAddr]
    (addr_tables.h), the status bit [BCU_STATUS_TL] (user_memory.h), the size
    of the receive buffer [SB_TELEGRAM_SIZE] and [telegramSize] (bus.h), which
    reads the length of a telegram from its octets. *)
Class Extern : Type := {
  indexOfAddr : Z -> Z;
  BCU_STATUS_TL : Z;
  SB_TELEGRAM_SIZE : Z;
  telegramSize : list Z -> Z
}.

Section BusCode.

Context `{Extern}.

(** *** Bus::idleState *)
Definition idleState (b : Bus) : Bus :=
  b |> set_capture_interrupt true
    |> set_time_interrupt false
    |> set_match_time 0xfffe
    |> set_match_pwm 0xffff
    |> set_state IDLE
    |> set_sendAck 0.

(** *** Bus::sendNextTelegram *)
Definition sendNextTelegram (b : Bus) : result Bus :=
  '(a, buf) ← deref (sendCurTelegram b) b;
  buf' ← store buf 0 0;
  Ok (b |> set_mem (<[a := buf']> (mem b))
        |> set_sendCurTelegram (sendNextTel b)
        |> set_sendNextTel None
        |> set_sendTries 0
        |> set_sendTelegramLen 0).

(** *** Bus::handleTelegram *)

(** The local [processTel]: is the received telegram addressed to us? *)
Definition processTel (b : Bus) : result bool :=
  t3 ← load (telegram b) 3;
  t4 ← load (telegram b) 4;
  let destAddr := Z.lor (Z.shiftl t3 8) t4 in
  t5 ← load (telegram b) 5;
  if negb (Z.land t5 0x80 =? 0)
  then Ok ((destAddr =? 0) || (0 <=? indexOfAddr destAddr))
  else Ok (destAddr =? ownAddr b).

Definition handleTelegram (valid : bool) (b : Bus) : result Bus :=
  let b := b |> set_sendAck 0 in
  b ← (if collision b then Ok b
       else if (8 <=? nextByteIndex b) && valid then
         process ← processTel b;
         if Z.land (status b) BCU_STATUS_TL =? 0 then
           Ok (b |> set_telegramLen (nextByteIndex b))
         else if (process : bool) then
           Ok (b |> set_telegramLen (nextByteIndex b) |> set_sendAck SB_BUS_ACK)
         else Ok b
       else if nextByteIndex b =? 1 then
         let b := b |> set_currentByte (Z.land (currentByte b) 0xff) in
         if ((currentByte b =? SB_BUS_ACK) || (3 <? sendTries b))
            && bool_decide (sendCurTelegram b <> None)
         then sendNextTelegram b
         else Ok b
       else Ok (b |> set_telegramLen 0 |> set_sendAck SB_BUS_NACK));
  Ok (b |> set_match_time (if sendAck b =? 0
                           then SEND_WAIT_TIME - PRE_SEND_TIME
                           else SEND_ACK_WAIT_TIME - PRE_SEND_TIME)
        |> set_time_interrupt true
        |> set_capture_interrupt true
        |> set_collision false
        |> set_state SEND_INIT).

(** *** Bus::timerInterruptHandler *)

(** [parity = !parity] on an [int]. *)
Definition lnot_int (x : Z) : Z := if x =? 0 then 1 else 0.

(** The [while] loop of RECV_BYTE over [currentByte], [parity], [bitTime] and
    [bitMask]; [n] bounds the iterations. *)
Fixpoint recv_loop (n : nat) (time : Z) (acc : Z * Z * Z * Z) : Z * Z * Z * Z :=
  match n with
  | O => acc
  | S n' =>
      let '(currentByte, parity, bitTime, bitMask) := acc in
      if (time >=? bitTime + BIT_WAIT_TIME) && (bitMask <=? 0x100)
      then recv_loop n' time
             (Z.lor currentByte bitMask, lnot_int parity,
              bitTime + BIT_TIME, Z.shiftl bitMask 1)
      else acc
  end.

(** The bits that one event of RECV_BYTE adds to the byte being received:
    the code from [if (time >= bitTime + BIT_WAIT_TIME)] to the end of that
    block.  Every iteration advances [bitTime] by [BIT_TIME], so the distance
    from [bitTime] to [time] bounds the iterations. *)
Definition recv_bits (time : Z) (b : Bus) : Bus :=
  if time >=? bitTime b + BIT_WAIT_TIME then
    let bitTime := bitTime b + BIT_TIME in
    let '(currentByte, parity, bitTime, bitMask) :=
      recv_loop (Z.to_nat (time - bitTime)) time
        (currentByte b, parity b, bitTime, bitMask b) in
    b |> set_currentByte currentByte
      |> set_parity parity
      |> set_bitTime bitTime
      |> set_bitMask (Z.shiftl bitMask 1)
  else b.

Definition case_RECV_BYTE (i : Input) (b : Bus) : result Bus :=
  let timeout := timeFlag i in
  let time := if timeout then BYTE_TIME else capture i in
  let b := recv_bits time b in
  if timeout then
    let b := b |> set_valid (Z.land (valid b) (parity b)) in
    b ← (if nextByteIndex b <? SB_TELEGRAM_SIZE then
           tel ← store (telegram b) (nextByteIndex b) (currentByte b);
           Ok (b |> set_telegram tel
                 |> set_nextByteIndex (nextByteIndex b + 1)
                 |> set_checksum (Z.lxor (checksum b) (currentByte b)))
         else Ok b);
    Ok (b |> set_state RECV_START |> set_match_time (BIT_TIME * 4))
  else Ok b.

Definition case_RECV_START (i : Input) (b : Bus) : result Bus :=
  if negb (capFlag i) then
    handleTelegram (negb (valid b =? 0) && (checksum b =? 0)) b
  else
    Ok (b |> set_match_time BYTE_TIME
          |> set_time_interrupt true
          |> set_state RECV_BYTE
          |> set_currentByte 0
          |> set_bitTime 0
          |> set_bitMask 1
          |> set_parity 1).

Definition case_IDLE (i : Input) (b : Bus) : result Bus :=
  if negb (capFlag i) then Ok b
  else
    case_RECV_START i
      (b |> set_nextByteIndex 0
         |> set_collision false
         |> set_checksum 0xff
         |> set_sendAck 0
         |> set_valid 1).

(** The [for] loop of SEND_BIT_0 that computes the parity bit, over [bitMask]
    and [currentByte]. *)
Fixpoint parity_loop (n : nat) (bitMask currentByte : Z) : Z * Z :=
  match n with
  | O => (bitMask, currentByte)
  | S n' =>
      if bitMask <? 0x100 then
        parity_loop n' (Z.shiftl bitMask 1)
          (if negb (Z.land currentByte bitMask =? 0)
           then Z.lxor currentByte 0x100 else currentByte)
      else (bitMask, currentByte)
  end.

(** The [while] loop of SEND_BIT over [bitMask] and the local [time]. *)
Fixpoint send_scan (n : nat) (cur mask time : Z) : Z * Z :=
  match n with
  | O => (mask, time)
  | S n' =>
      if negb (Z.land cur mask =? 0) && (mask <=? 0x100)
      then send_scan n' cur (Z.shiftl mask 1) (time + BIT_TIME)
      else (mask, time)
  end.

Definition case_SEND_BIT (b : Bus) : Bus :=
  let '(mask, time) := send_scan 10 (currentByte b) (bitMask b) BIT_TIME in
  let b := b |> set_bitMask (Z.shiftl mask 1) in
  let st := if time <=? BIT_TIME then SEND_BIT else SEND_BIT_WAIT in
  let '(time, st) :=
    if 0x200 <? bitMask b then
      (time + BIT_TIME * 3,
       if (nextByteIndex b <? sendTelegramLen b) && (sendAck b =? 0)
       then SEND_BIT_0 else SEND_END)
    else (time, st) in
  b |> set_state st
    |> set_capture_interrupt (bool_decide (st = SEND_BIT_WAIT))
    |> set_match_pwm (if bool_decide (st = SEND_END) then 0xffff
                      else time - BIT_PULSE_TIME)
    |> set_match_time time.

Definition case_SEND_BIT_0 (b : Bus) : result Bus :=
  b ← (if negb (sendAck b =? 0) then Ok (b |> set_currentByte (sendAck b))
       else
         '(_, buf) ← deref (sendCurTelegram b) b;
         x ← load buf (nextByteIndex b);
         Ok (b |> set_currentByte x
               |> set_nextByteIndex (nextByteIndex b + 1)));
  let '(_, currentByte) := parity_loop 9 1 (currentByte b) in
  Ok (case_SEND_BIT (b |> set_currentByte currentByte |> set_bitMask 1)).

(** The code at the end of SEND_INIT that arms the start bit. *)
Definition arm_start_bit (time : Z) (b : Bus) : Bus :=
  b |> set_match_pwm time
    |> set_match_time (time + BIT_PULSE_TIME)
    |> set_time_interrupt true
    |> set_capture_interrupt true
    |> set_nextByteIndex 0
    |> set_state SEND_START_BIT.

(** The first repeat of SEND_INIT: mark the telegram as repeated. *)
Definition mark_repeated (a : nat) (buf : list Z) (b : Bus) : result Bus :=
  c0 ← load buf 0;
  buf ← store buf 0 (Z.land c0 (Z.lnot SB_TEL_REPEAT_FLAG));
  x ← load buf (sendTelegramLen b - 1);
  buf ← store buf (sendTelegramLen b - 1) (Z.lxor x SB_TEL_REPEAT_FLAG);
  Ok (b |> set_mem (<[a := buf]> (mem b))
        |> set_sendTries (sendTries b + 1)).

(** One pass through the [switch]; the boolean is [goto STATE_SWITCH]. *)
Definition case_SEND_INIT (i : Input) (b : Bus) : result (Bus * bool) :=
  if capFlag i then Ok (b |> set_state IDLE, true)
  else if negb (sendAck b =? 0) then
    Ok (arm_start_bit PRE_SEND_TIME (b |> set_sendTelegramLen 0), false)
  else
    b ← (if 3 <? sendTries b then sendNextTelegram b else Ok b);
    match sendCurTelegram b with
    | Some _ =>
        '(a, buf) ← deref (sendCurTelegram b) b;
        c0 ← load buf 0;
        let time := PRE_SEND_TIME + Z.land (Z.shiftr c0 2) 3 * BIT_TIME in
        let b := b |> set_sendTelegramLen (telegramSize buf + 1) in
        b ← (if sendTries b =? 1 then mark_repeated a buf b else Ok b);
        Ok (arm_start_bit time b, false)
    | None => Ok (idleState b, false)
    end.

Definition case_SEND_START_BIT (i : Input) (b : Bus) : result (Bus * bool) :=
  if capFlag i then
    if value i <? match_pwm b - 10 then
      Ok (b |> set_match_pwm 0xffff |> set_state RECV_START, true)
    else Ok (b |> set_state SEND_BIT_0, false)
  else
    b ← case_SEND_BIT_0 b;
    Ok (b, false).

Definition case_SEND_BIT_WAIT (i : Input) (b : Bus) : Bus :=
  if capture i <? match_pwm b - BIT_WAIT_TIME then
    b |> set_match_pwm 0xffff |> set_state RECV_BYTE |> set_collision true
  else b |> set_state SEND_BIT.

Definition case_SEND_END (b : Bus) : Bus :=
  let b := b |> set_match_time SEND_WAIT_TIME |> set_capture_interrupt true in
  let b := if negb (sendAck b =? 0) then b |> set_sendAck 0
           else b |> set_sendTries (sendTries b + 1) in
  b |> set_state SEND_WAIT.

Definition case_SEND_WAIT (i : Input) (b : Bus) : Bus * bool :=
  if capFlag i && (capture i <? SEND_ACK_WAIT_TIME) then (b, false)
  else (b |> set_state SEND_INIT, true).

Definition state_switch (i : Input) (b : Bus) : result (Bus * bool) :=
  match state b with
  | IDLE => b ← case_IDLE i b; Ok (b, false)
  | RECV_START => b ← case_RECV_START i b; Ok (b, false)
  | RECV_BYTE => b ← case_RECV_BYTE i b; Ok (b, false)
  | SEND_INIT => case_SEND_INIT i b
  | SEND_START_BIT => case_SEND_START_BIT i b
  | SEND_BIT_0 => b ← case_SEND_BIT_0 b; Ok (b, false)
  | SEND_BIT => Ok (case_SEND_BIT b, false)
  | SEND_BIT_WAIT => Ok (case_SEND_BIT_WAIT i b, false)
  | SEND_END => Ok (case_SEND_END b, false)
  | SEND_WAIT => Ok (case_SEND_WAIT i b)
  end.

(** The handler: passes through the switch until one ends in [break].  A
    [goto] leads from SEND_WAIT to SEND_INIT, from SEND_INIT to IDLE and from
    SEND_START_BIT to RECV_START, so three passes are the most. *)
Fixpoint switch_passes (n : nat) (i : Input) (b : Bus) : result Bus :=
  match n with
  | O => Ok b
  | S n' =>
      '(b, again) ← state_switch i b;
      if (again : bool) then switch_passes n' i b else Ok b
  end.

Definition timerInterruptHandler (i : Input) (b : Bus) : result Bus :=
  switch_passes 3 i b.

(** *** Bus::prepareTelegram *)

(** The [for] loop that XORs [telegram[i]], [i < length], into [checksum]. *)
Fixpoint checksum_loop (n : nat) (i : Z) (tel : list Z) (checksum : Z) : result Z :=
  match n with
  | O => Ok checksum
  | S n' =>
      x ← load tel i;
      checksum_loop n' (i + 1) tel (to_byte (Z.lxor checksum x))
  end.

Definition prepareTelegram (ownAddr : Z) (tel : list Z) (length : Z) : result (list Z) :=
  tel ← store tel 1 (Z.shiftr ownAddr 8);
  tel ← store tel 2 ownAddr;
  checksum ← checksum_loop (Z.to_nat length) 0 tel 0xff;
  store tel length checksum.

End BusCode.

(* The loops are unfolded by their equations, not by [simpl]. *)
Arguments recv_loop : simpl never.
Arguments parity_loop : simpl never.
Arguments send_scan : simpl never.

(** ** The object before the first interrupt *)

Section BusStart.

Context `{Extern}.

(** The global [bus] object: static storage is zeroed, then the constructor
    sets [state]. *)
Definition constructed (m : gmap nat (list Z)) (st : Z) : Bus :=
  {| state := IDLE; ownAddr := 0;
     telegram := replicate (Z.to_nat SB_TELEGRAM_SIZE) 0;
     telegramLen := 0; nextByteIndex := 0; currentByte := 0; checksum := 0;
     valid := 0; parity := 0; bitMask := 0; bitTime := 0; sendAck := 0;
     sendTries := 0; sendTelegramLen := 0; sendCurTelegram := None;
     sendNextTel := None; collision := false; match_pwm := 0; match_time := 0;
     time_interrupt := false; capture_interrupt := false; mem := m;
     status := st |}.

(** *** Bus::begin; the arguments are [userEeprom.addrTab[0]] and [[1]]. *)
Definition begin (addrTab0 addrTab1 : Z) (b : Bus) : Bus :=
  b |> set_ownAddr (Z.lor (Z.shiftl addrTab0 8) addrTab1)
    |> set_telegramLen 0
    |> set_state IDLE
    |> set_sendAck 0
    |> set_sendCurTelegram None
    |> set_sendNextTel None
    |> set_collision false
    |> set_capture_interrupt true
    |> set_match_time 0xfffe
    |> set_time_interrupt false
    |> set_match_pwm 0xffff.

End BusStart.

(** ** Bus::sendTelegram, statement by statement

    [sendTelegram] runs in the foreground with interrupts enabled up to
    [noInterrupts()], so the handler can run between any two of its accesses
    to the members it shares with the handler.  The foreground is therefore a
    program counter over these accesses. *)

Inductive Fg : Type :=
  | FgIdle                          (* outside sendTelegram *)
  | FgPrepare (p : nat) (len : Z)   (* at prepareTelegram(telegram, length) *)
  | FgWait (p : nat)                (* at while (sendNextTel) *)
  | FgTestCur (p : nat)             (* at if (!sendCurTelegram) *)
  | FgSetCur (p : nat)              (* at sendCurTelegram = telegram *)
  | FgTestNext (p : nat)            (* at else if (!sendNextTel) *)
  | FgSetNext (p : nat)             (* at sendNextTel = telegram *)
  | FgKick.                         (* at noInterrupts() *)

#[global] Instance Fg_eq_dec : EqDecision Fg.
Proof. solve_decision. Defined.

(** The buffer that a call in progress has not yet put into a slot. *)
Definition pending (f : Fg) : option nat :=
  match f with
  | FgIdle | FgKick => None
  | FgPrepare p _ | FgWait p | FgTestCur p | FgSetCur p
  | FgTestNext p | FgSetNext p => Some p
  end.

(** The block between [noInterrupts()] and [interrupts()]. *)
Definition kick_start (b : Bus) : Bus :=
  if bool_decide (state b = IDLE) then
    b |> set_sendTries 0
      |> set_state SEND_INIT
      |> set_match_time 1
      |> set_time_interrupt true
  else b.

Definition sendTelegram_step (f : Fg) (b : Bus) : result (Fg * Bus) :=
  match f with
  | FgIdle => Ok (FgIdle, b)
  | FgPrepare p len =>
      '(a, tel) ← deref (Some p) b;
      tel ← prepareTelegram (ownAddr b) tel len;
      Ok (FgWait p, b |> set_mem (<[a := tel]> (mem b)))
  | FgWait p =>
      if bool_decide (sendNextTel b <> None) then Ok (FgWait p, b)
      else Ok (FgTestCur p, b)
  | FgTestCur p =>
      if bool_decide (sendCurTelegram b = None) then Ok (FgSetCur p, b)
      else Ok (FgTestNext p, b)
  | FgSetCur p => Ok (FgKick, b |> set_sendCurTelegram (Some p))
  | FgTestNext p =>
      if bool_decide (sendNextTel b = None) then Ok (FgSetNext p, b)
      else Fault FatalError
  | FgSetNext p => Ok (FgKick, b |> set_sendNextTel (Some p))
  | FgKick => Ok (FgIdle, kick_start b)
  end.

(** ** The bus object together with the foreground *)

Record Sys : Type := mkSys { bus : Bus; fg : Fg }.

(** What can happen next. *)
Inductive Event : Type :=
  | Interrupt (i : Input)           (* the timer interrupt fires *)
  | Foreground                      (* the next statement of sendTelegram *)
  | Call (p : nat) (len : Z)        (* the application calls sendTelegram *)
  | Fill (p : nat) (tel : list Z). (* the application fills a buffer *)

(** The application owns the buffers that are in no send slot; it calls
    [sendTelegram] only with such a buffer and writes only to such buffers. *)
Definition owned (p : nat) (b : Bus) : bool :=
  bool_decide (sendCurTelegram b <> Some p) && bool_decide (sendNextTel b <> Some p).

Section BusRun.

Context `{Extern}.

Definition exec (e : Event) (s : Sys) : result Sys :=
  match e with
  | Interrupt i =>
      b ← timerInterruptHandler i (bus s);
      Ok (mkSys b (fg s))
  | Foreground =>
      '(f, b) ← sendTelegram_step (fg s) (bus s);
      Ok (mkSys b f)
  | Call p len =>
      if bool_decide (fg s = FgIdle) && owned p (bus s)
      then Ok (mkSys (bus s) (FgPrepare p len))
      else Fault FatalError
  | Fill p tel =>
      if bool_decide (fg s = FgIdle) && owned p (bus s)
      then Ok (mkSys (bus s |> set_mem (<[p := tel]> (mem (bus s)))) FgIdle)
      else Fault FatalError
  end.

Definition step (s s' : Sys) : Prop := exists e, exec e s = Ok s'.

Fixpoint run (es : list Event) (s : Sys) : result Sys :=
  match es with
  | [] => Ok s
  | e :: es => s ← exec e s; run es s
  end.

(** The states the system can be in: [begin] is called once on the
    constructed object, then interrupts and the foreground interleave. *)
Inductive reachable : Sys -> Prop :=
  | reachable_begin m st a0 a1 :
      reachable (mkSys (begin a0 a1 (constructed m st)) FgIdle)
  | reachable_step s s' : reachable s -> step s s' -> reachable s'.

(** A run during which the buffer [a] stays in the first send slot, with the
    number of transmissions of it that were completed: a completed
    transmission is the step of the handler in SEND_END with no
    acknowledgement to send, which leads to SEND_WAIT. *)
Definition attempt_end (s s' : Sys) : nat :=
  if bool_decide (state (bus s) = SEND_END /\ sendAck (bus s) = 0
                  /\ state (bus s') = SEND_WAIT)
  then 1%nat else 0%nat.

Inductive run_current (a : nat) : Sys -> nat -> Sys -> Prop :=
  | run_current_nil s :
      sendCurTelegram (bus s) = Some a -> run_current a s 0 s
  | run_current_step s s' s'' n :
      run_current a s n s' -> step s' s'' ->
      sendCurTelegram (bus s'') = Some a ->
      run_current a s (n + attempt_end s' s'') s''.

(** A quiet bus: nobody else sends, and the capture input sees the pulses
    that we send at the programmed PWM match. *)
Definition quiet_bus (b : Bus) : Input :=
  let own_pulse := bool_decide (state b = SEND_START_BIT \/ state b = SEND_BIT_WAIT) in
  {| capFlag := own_pulse; timeFlag := negb own_pulse;
     capture := match_pwm b; value := match_pwm b |}.

(** [n] interrupts on a quiet bus, and the number of completed transmissions. *)
Fixpoint run_quiet (n : nat) (s : Sys) : result (nat * Sys) :=
  match n with
  | O => Ok (0%nat, s)
  | S n' =>
      s' ← exec (Interrupt (quiet_bus (bus s))) s;
      '(k, s'') ← run_quiet n' s';
      Ok ((attempt_end s s' + k)%nat, s'')
  end.

(** Does [a] stay in the first send slot during [n] interrupts on a quiet
    bus? *)
Fixpoint quiet_current (a n : nat) (s : Sys) : bool :=
  match n with
  | O => true
  | S n' =>
      match exec (Interrupt (quiet_bus (bus s))) s with
      | Ok s' =>
          bool_decide (sendCurTelegram (bus s') = Some a)
          && quiet_current a n' s'
      | Fault _ => false
      end
  end.

End BusRun.

(** ** The loop of RECV_BYTE in closed form, and as the specification words it *)

(** The number of iterations of the [while] loop of RECV_BYTE. *)
Fixpoint recv_iters (n : nat) (time bitTime bitMask : Z) : nat :=
  match n with
  | O => O
  | S n' =>
      if (time >=? bitTime + BIT_WAIT_TIME) && (bitMask <=? 0x100)
      then S (recv_iters n' time (bitTime + BIT_TIME) (Z.shiftl bitMask 1))
      else O
  end.

(** The bits that [k] iterations OR into [currentByte], from [bitMask] on. *)
Fixpoint run_mask (k : nat) (bitMask : Z) : Z :=
  match k with
  | O => 0
  | S k' => Z.lor bitMask (run_mask k' (Z.shiftl bitMask 1))
  end.

(** [parity = !parity], [k] times. *)
Definition toggle (k : nat) (parity : Z) : Z := Nat.iter k lnot_int parity.

(** The specification's description of one event of RECV_BYTE: the loop runs
    from the current [bitTime] and [bitMask], and [bitMask] is advanced once
    more when it exits. *)
Definition spec_recv_bits (time : Z) (acc : Z * Z * Z * Z) : Z * Z * Z * Z :=
  let '(_, _, bitTime, _) := acc in
  let '(currentByte, parity, bitTime, bitMask) :=
    recv_loop (S (Z.to_nat (time - bitTime))) time acc in
  (currentByte, parity, bitTime, Z.shiftl bitMask 1).

(** ** Counting the bits of a transmitted byte *)

(** The number of set bits among the bits [0 .. n-1] of [x]. *)
Fixpoint count_bits (n : nat) (x : Z) : nat :=
  match n with
  | O => O
  | S n' => ((if Z.testbit x (Z.of_nat n') then 1 else 0) + count_bits n' x)%nat
  end.

(** ** A configuration and telegrams to run the code on *)

(** A device whose group address table holds the group address 0x0001, with
    the receive buffer and the telegram length of the library's bus.h. *)
Definition sample_extern : Extern :=
  {| indexOfAddr := fun addr => if addr =? 1 then 0 else -1;
     BCU_STATUS_TL := 0x08;
     SB_TELEGRAM_SIZE := 24;
     telegramSize := fun tel => 7 + Z.land (nth 5 tel 0) 15 |}.

(** A group telegram to 0x0001 with one octet of data, and room for the
    checksum. *)
Definition sample_telegram : list Z :=
  [0xBC; 0x00; 0x00; 0x00; 0x01; 0xE1; 0x00; 0x81; 0x00].

(** The device 1.1.1 after [begin], with [sample_telegram] in two buffers of
    the application. *)
Definition sample_bus : Bus :=
  begin 0x11 0x01
    (@constructed sample_extern
       (<[2%nat := sample_telegram]> (<[1%nat := sample_telegram]> ∅)) 0).

Definition sample_sys : Sys := mkSys sample_bus FgIdle.

(** The result of a run that does not fault. *)
Definition the (r : result Sys) : Sys :=
  match r with
  | Ok s => s
  | Fault _ => sample_sys
  end.

(** The timer flags of an invocation caused by the timeout match, and of one
    caused by an edge captured at [t]. *)
Definition timeout_event : Input :=
  {| capFlag := false; timeFlag := true; capture := 0; value := 0 |}.

Definition edge_event (t : Z) : Input :=
  {| capFlag := true; timeFlag := false; capture := t; value := t |}.

(** The application submits the buffer 1 with a telegram of 8 octets, and
    [sendTelegram] runs to its end. *)
Definition sample_submit : list Event :=
  [Call 1 8; Foreground; Foreground; Foreground; Foreground; Foreground].

(** Another device sends the acknowledgement 0xCC: the start bit, then the
    pulses of the zero bits 0, 1, 4, 5 and of the parity bit, then the end
    of the byte. *)
Definition receive_ack : list Event :=
  [Interrupt (edge_event 0); Interrupt (edge_event 104);
   Interrupt (edge_event 208); Interrupt (edge_event 520);
   Interrupt (edge_event 624); Interrupt (edge_event 936);
   Interrupt timeout_event].

(** While the acknowledgement is being received, the application submits
    the buffer 2; after [sendTelegram] has found the first slot in use and
    the second one free, the handler sees the end of the transmission, and
    then [sendTelegram] continues. *)
Definition race_trace : list Event :=
  sample_submit ++ receive_ack
  ++ [Call 2 8; Foreground; Foreground; Foreground; Foreground]
  ++ [Interrupt timeout_event]
  ++ [Foreground].

(** The system with the buffer 1 queued, and after [n] more interrupts on a
    quiet bus. *)
Definition sample_queued : Sys :=
  the (@run sample_extern sample_submit sample_sys).

Definition after_quiet (n : nat) (s : Sys) : Sys :=
  match @run_quiet sample_extern n s with
  | Ok (_, s') => s'
  | Fault _ => s
  end.

(** The buffer 1 queued and the first transmission under way, in
    SEND_BIT_WAIT after 5 interrupts; then another device pulls the bus low
    before our pulse is due, and the handler sees a collision. *)
Definition sample_collided : Sys :=
  the (@exec sample_extern (Interrupt (edge_event 0))
         (after_quiet 5 sample_queued)).

(** A telegram for the device 1.1.1 itself in the receive buffer, all of
    its 8 octets received, with [userRam.status] 0. *)
Definition sample_received : Bus :=
  sample_bus
  |> set_telegram ([0xBC; 0x11; 0x02; 0x11; 0x01; 0x61; 0x00; 0x80]
                   ++ replicate 16 0)
  |> set_nextByteIndex 8
  |> set_state RECV_START.

(** The start of a byte in RECV_BYTE. *)
Definition sample_receiving : Bus :=
  sample_bus |> set_state RECV_BYTE |> set_bitMask 1 |> set_parity 1.

(** SEND_BIT_0 with the acknowledgement 0xCC to send. *)
Definition sample_acking : Bus :=
  sample_bus |> set_state SEND_BIT_0 |> set_sendAck SB_BUS_ACK.

(** ** Notions used to state the properties *)

(** The first send slot, when it is in use, points to a buffer that exists
    and has an octet 0. *)
Definition slot_allocated (b : Bus) : Prop :=
  forall a, sendCurTelegram b = Some a ->
    exists buf, mem b !! a = Some buf /\ (0 < length buf)%nat.

(** The destination of the telegram with the octets [t3], [t4], [t5] at the
    indices 3 to 5 is this device, or a group address it listens to. *)
Definition addressed_to_us `{Extern} (ownAddr t3 t4 t5 : Z) : Prop :=
  let destAddr := Z.lor (Z.shiftl t3 8) t4 in
  (Z.land t5 0x80 = 0 /\ destAddr = ownAddr)
  \/ (Z.land t5 0x80 <> 0 /\ (destAddr = 0 \/ 0 <= indexOfAddr destAddr)).

(** The octet that SEND_BIT_0 loads: the acknowledgement if there is one to
    send, else the octet of the current telegram at [nextByteIndex]. *)
Definition next_octet (b : Bus) (x : Z) : Prop :=
  (sendAck b <> 0 /\ x = sendAck b)
  \/ (sendAck b = 0 /\ 0 <= nextByteIndex b /\
      exists a buf, sendCurTelegram b = Some a /\ mem b !! a = Some buf
                    /\ buf !! Z.to_nat (nextByteIndex b) = Some x).

(** The handler is sending: the states from the start bit to the end of the
    last byte. *)
Definition sending (b : Bus) : Prop :=
  state b = SEND_START_BIT \/ state b = SEND_BIT_0 \/ state b = SEND_BIT
  \/ state b = SEND_BIT_WAIT \/ state b = SEND_END.

(** The handler left the send slots, the retry counter and the memory as
    they were. *)
Definition keeps_send (b b' : Bus) : Prop :=
  sendCurTelegram b' = sendCurTelegram b /\ sendNextTel b' = sendNextTel b
  /\ sendTries b' = sendTries b /\ mem b' = mem b.

(** [sendNextTelegram] ran: octet 0 of the current telegram is 0, the second
    slot moved to the first, the retry counter is 0. *)
Definition releases (b b' : Bus) : Prop :=
  exists a buf,
    sendCurTelegram b = Some a /\ mem b !! a = Some buf
    /\ mem b' = <[a := <[0%nat := 0]> buf]> (mem b)
    /\ sendCurTelegram b' = sendNextTel b /\ sendNextTel b' = None
    /\ sendTries b' = 0.

(** SEND_INIT gave up the current telegram if the retry counter was above 3. *)
Definition gives_up (b b' : Bus) : Prop :=
  (sendTries b <= 3 /\ keeps_send b b') \/ (3 < sendTries b /\ releases b b').

(** SEND_INIT marked the current telegram as repeated: only its buffer
    changed, and the retry counter went from 1 to 2. *)
Definition marks (b b' : Bus) : Prop :=
  sendTries b = 1 /\ sendTries b' = 2
  /\ sendCurTelegram b' = sendCurTelegram b /\ sendNextTel b' = sendNextTel b
  /\ exists a buf buf',
       sendCurTelegram b = Some a /\ mem b !! a = Some buf
       /\ length buf' = length buf /\ mem b' = <[a := buf']> (mem b).

(** What one invocation of the handler does to the send queue. *)
Inductive isr_effect (b b' : Bus) : Prop :=
  | effect_none :
      b' = b -> state b = IDLE \/ state b = SEND_WAIT -> isr_effect b b'
  | effect_receive :
      keeps_send b b' -> state b' = RECV_BYTE \/ state b' = RECV_START ->
      ~ sending b -> isr_effect b b'
  | effect_handle :
      state b = RECV_START -> state b' = SEND_INIT ->
      keeps_send b b' \/ releases b b' -> isr_effect b b'
  | effect_init_ack :
      state b = SEND_INIT \/ state b = SEND_WAIT ->
      sendAck b <> 0 -> sendAck b' = sendAck b -> state b' = SEND_START_BIT ->
      keeps_send b b' -> isr_effect b b'
  | effect_init_telegram b1 :
      state b = SEND_INIT \/ state b = SEND_WAIT ->
      sendAck b = 0 -> sendAck b' = 0 -> state b' = SEND_START_BIT ->
      gives_up b b1 -> sendCurTelegram b1 <> None ->
      (sendTries b1 <> 1 /\ keeps_send b1 b') \/ marks b1 b' ->
      isr_effect b b'
  | effect_init_idle b1 :
      state b = SEND_INIT \/ state b = SEND_WAIT ->
      sendAck b = 0 -> state b' = IDLE ->
      gives_up b b1 -> sendCurTelegram b1 = None -> keeps_send b1 b' ->
      isr_effect b b'
  | effect_send :
      sending b -> state b <> SEND_END ->
      keeps_send b b' -> sendAck b' = sendAck b ->
      sending b' \/ state b' = RECV_BYTE -> isr_effect b b'
  | effect_end :
      state b = SEND_END -> state b' = SEND_WAIT -> sendAck b' = 0 ->
      sendCurTelegram b' = sendCurTelegram b -> sendNextTel b' = sendNextTel b ->
      mem b' = mem b ->
      sendTries b' = (if sendAck b =? 0 then sendTries b + 1 else sendTries b) ->
      isr_effect b b'.

(** What holds of the send queue in every state the system can be in. *)
Definition queue_inv (s : Sys) : Prop :=
  let b := bus s in
  (sendCurTelegram b = None -> sendTries b = 0)
  /\ (sending b -> sendAck b = 0 ->
      sendCurTelegram b <> None /\ sendTries b <= 3 /\ sendTries b <> 1)
  /\ (state b = IDLE -> sendTries b = 0)
  /\ 0 <= sendTries b <= 4
  /\ (forall p, fg s = FgSetCur p -> sendCurTelegram b = None)
  /\ (forall a, sendCurTelegram b = Some a -> sendNextTel b <> Some a)
  /\ (forall p, pending (fg s) = Some p ->
        sendCurTelegram b <> Some p /\ sendNextTel b <> Some p).

(** The buffers in the send slots, and the buffer of a call in progress
    once [prepareTelegram] is through, exist and have an octet 0. *)
Definition allocated (b : Bus) (p : nat) : Prop :=
  exists buf, mem b !! p = Some buf /\ (0 < length buf)%nat.

Definition buffers_inv (s : Sys) : Prop :=
  forall p,
    sendCurTelegram (bus s) = Some p \/ sendNextTel (bus s) = Some p
    \/ (pending (fg s) = Some p /\ forall len, fg s <> FgPrepare p len) ->
    allocated (bus s) p.

(** The completed transmissions of a telegram whose retry counter is
    [tries]: SEND_INIT also counts the marking as repeated. *)
Definition attempts_of (tries : Z) : nat :=
  if tries <=? 1 then Z.to_nat tries else Z.to_nat (tries - 1).

(** The order of the send queue: the second slot is in use only if the
    first one is. *)
Definition queue_order (b : Bus) : Prop :=
  sendNextTel b <> None -> sendCurTelegram b <> None.

(** What the parity loop of SEND_BIT_0 makes of the byte [x]: the byte in the
    bits 0 to 7, an even number of set bits in the bits 0 to 8, and bit 8 set
    exactly if the byte has an odd number of set bits. *)
Definition parity_folded (x : Z) : bool :=
  let cb := (parity_loop 9 1 x).2 in
  (Z.land cb 0xff =? x)
  && Nat.even (count_bits 9 cb)
  && eqb (Z.testbit cb 8) (Nat.odd (count_bits 8 x)).

(** ** The line between a sender and a receiver *)

(** The instants, counted from the falling edge of the start bit, of the
    pulses that the sender emits for the byte it has loaded.  [b] is the
    sender as SEND_BIT_0 or SEND_BIT left it and [r] the instant at which the
    time match last reset the timer: in SEND_BIT and SEND_BIT_WAIT a pulse
    starts at the PWM match, and the time match leads to the next SEND_BIT. *)
Fixpoint pulse_train (n : nat) (b : Bus) (r : Z) : list Z :=
  match n with
  | O => []
  | S n' =>
      if bool_decide (state b = SEND_BIT \/ state b = SEND_BIT_WAIT)
      then (r + match_pwm b)
           :: pulse_train n' (case_SEND_BIT b) (r + match_time b)
      else []
  end.

(** The same instants from [currentByte] and [bitMask] alone. *)
Fixpoint scan_train (n : nat) (currentByte bitMask r : Z) : list Z :=
  match n with
  | O => []
  | S n' =>
      let '(mask, time) := send_scan 10 currentByte bitMask BIT_TIME in
      if 0x200 <? Z.shiftl mask 1 then []
      else (r + (time - BIT_PULSE_TIME))
           :: scan_train n' currentByte (Z.shiftl mask 1) (r + time)
  end.

(** The accumulators of RECV_BYTE and one event on them, as [recv_bits] has
    it. *)
Definition acc_of (b : Bus) : Z * Z * Z * Z :=
  (currentByte b, parity b, bitTime b, bitMask b).

Definition set_acc (acc : Z * Z * Z * Z) (b : Bus) : Bus :=
  let '(currentByte, parity, bitTime, bitMask) := acc in
  b |> set_currentByte currentByte |> set_parity parity
    |> set_bitTime bitTime |> set_bitMask bitMask.

Definition recv_event (time : Z) (acc : Z * Z * Z * Z) : Z * Z * Z * Z :=
  let '(currentByte, parity, bitTime, bitMask) := acc in
  if time >=? bitTime + BIT_WAIT_TIME then
    let '(currentByte, parity, bitTime, bitMask) :=
      recv_loop (Z.to_nat (time - (bitTime + BIT_TIME))) time
        (currentByte, parity, bitTime + BIT_TIME, bitMask) in
    (currentByte, parity, bitTime, Z.shiftl bitMask 1)
  else acc.

(** The byte with its parity bit, as SEND_BIT_0 computes it. *)
Definition with_parity (x : Z) : Z := (parity_loop 9 1 x).2.

(** Does the receiver, from the start of a byte, make of the pulses of [x]
    the byte [x] with its parity bit, and end with [parity] at 1? *)
Definition round_trip (x : Z) : bool :=
  let pulses := scan_train 10 (with_parity x) 1 BIT_PULSE_TIME in
  let '(currentByte, parity, _, _) :=
    recv_event BYTE_TIME
      (foldl (fun acc t => recv_event t acc) (0, 1, 0, 1) pulses) in
  (currentByte =? with_parity x) && (parity =? 1).

Section BusLine.

Context `{Extern}.

(** The handler invoked once for each of the inputs. *)
Fixpoint handle_all (ins : list Input) (b : Bus) : result Bus :=
  match ins with
  | [] => Ok b
  | i :: ins => b ← timerInterruptHandler i b; handle_all ins b
  end.

(** The events of one byte at the receiver: the edge of the start bit, the
    edges of the pulses, and the timeout at the end of the byte. *)
Definition byte_events (pulses : list Z) : list Input :=
  edge_event 0 :: map edge_event pulses ++ [timeout_event].

End BusLine.

(** ** The [goto]s of the handler *)


(** ** A telegram on the line *)

Section BusFrame.

Context `{Extern}.

(** The events of one octet at the receiver, from the pulses that a sender
    emits for it. *)
Definition octet_events (x : Z) : list Input :=
  byte_events (scan_train 10 (with_parity x) 1 BIT_PULSE_TIME).

(** The events of a telegram at the receiver: its octets, and the timeout
    of RECV_START when no start bit follows. *)
Definition frame_events (octets : list Z) : list Input :=
  flat_map octet_events octets ++ [timeout_event].

End BusFrame.

(** ** Bytes *)

Lemma is_byte_lxor (x y : Z) : is_byte x -> is_byte y -> is_byte (Z.lxor x y).
Proof.
  unfold is_byte. intros [Hx Hx'] [Hy Hy']. split.
  - apply Z.lxor_nonneg. lia.
  - destruct (Z.eq_dec (Z.lxor x y) 0) as [->|Hne]; [lia|].
    assert (0 < Z.lxor x y) by (pose proof (proj2 (Z.lxor_nonneg x y)); lia).
    apply (Z.log2_lt_pow2 _ 8); [lia|].
    pose proof (Z.log2_lxor x y Hx Hy) as Hl.
    assert (Z.log2 x < 8).
    { destruct (Z.eq_dec x 0) as [->|]; [reflexivity|]. apply Z.log2_lt_pow2; lia. }
    assert (Z.log2 y < 8).
    { destruct (Z.eq_dec y 0) as [->|]; [reflexivity|]. apply Z.log2_lt_pow2; lia. }
    lia.
Qed.

Lemma to_byte_is_byte (x : Z) : is_byte (to_byte x).
Proof. unfold is_byte, to_byte. apply Z.mod_pos_bound. lia. Qed.

Lemma to_byte_id (x : Z) : is_byte x -> to_byte x = x.
Proof. unfold is_byte, to_byte. intros. apply Z.mod_small. lia. Qed.

Lemma load_lookup (buf : list Z) (n : nat) (x : Z) :
  buf !! n = Some x -> load buf (Z.of_nat n) = Ok x.
Proof.
  intros H. unfold load.
  destruct (Z.ltb_spec (Z.of_nat n) 0); [lia|].
  by rewrite Nat2Z.id, H.
Qed.

Lemma store_insert (buf : list Z) (n : nat) (v : Z) :
  (n < length buf)%nat -> store buf (Z.of_nat n) v = Ok (<[n := to_byte v]> buf).
Proof.
  intros H. unfold store.
  destruct (Z.leb_spec 0 (Z.of_nat n)); [|lia].
  destruct (Z.ltb_spec (Z.of_nat n) (Z.of_nat (length buf))); [|lia].
  by rewrite Nat2Z.id.
Qed.

Lemma load_at (buf : list Z) (i x : Z) :
  0 <= i -> buf !! Z.to_nat i = Some x -> load buf i = Ok x.
Proof.
  intros Hi Hx. unfold load. destruct (Z.ltb_spec i 0); [lia|]. by rewrite Hx.
Qed.

Lemma store_at (buf : list Z) (i v : Z) :
  0 <= i < Z.of_nat (length buf) ->
  store buf i v = Ok (<[Z.to_nat i := to_byte v]> buf).
Proof.
  intros Hi. unfold store.
  destruct (Z.leb_spec 0 i); [|lia].
  destruct (Z.ltb_spec i (Z.of_nat (length buf))); [|lia]. reflexivity.
Qed.

Lemma Forall_is_byte_insert (buf : list Z) (n : nat) (v : Z) :
  Forall is_byte buf -> Forall is_byte (<[n := to_byte v]> buf).
Proof. intros H. apply Forall_insert; [done|apply to_byte_is_byte]. Qed.

Lemma xor_octets_S (buf : list Z) (n : nat) (x : Z) :
  buf !! n = Some x -> xor_octets buf (S n) = Z.lxor (xor_octets buf n) x.
Proof.
  intros H. unfold xor_octets. rewrite (take_S_r _ _ _ H).
  generalize (take n buf) as l. induction l as [|y l IH]; simpl.
  - by rewrite Z.lxor_0_r, Z.lxor_0_l.
  - by rewrite IH, Z.lxor_assoc.
Qed.

Lemma xor_octets_is_byte (buf : list Z) (n : nat) :
  Forall is_byte buf -> is_byte (xor_octets buf n).
Proof.
  intros H. unfold xor_octets.
  assert (Hn : Forall is_byte (take n buf)) by by apply Forall_take.
  induction Hn; simpl; [unfold is_byte; lia|]. by apply is_byte_lxor.
Qed.

(** The loop of [prepareTelegram] started at index [i] with [checksum = c]
    ends with [c] XOR the octets [i .. i+n-1]. *)
Lemma checksum_loop_spec (n i : nat) (tel : list Z) (c : Z) :
  Forall is_byte tel -> is_byte c -> (i + n <= length tel)%nat ->
  checksum_loop n (Z.of_nat i) tel (Z.lxor c (xor_octets tel i))
  = Ok (Z.lxor c (xor_octets tel (i + n))).
Proof.
  intros Hb Hc. revert i. induction n as [|n IH]; intros i Hlen; simpl.
  - by rewrite Nat.add_0_r.
  - destruct (lookup_lt_is_Some_2 tel i) as [x Hx]; [lia|].
    rewrite (load_lookup _ _ _ Hx). simpl.
    rewrite to_byte_id.
    + replace (Z.of_nat i + 1) with (Z.of_nat (S i)) by lia.
      rewrite Z.lxor_assoc, <- (xor_octets_S _ _ _ Hx).
      rewrite IH by lia. do 3 f_equal. lia.
    + apply is_byte_lxor; [by apply is_byte_lxor, xor_octets_is_byte|].
      eapply Forall_lookup_1; eauto.
Qed.

(** C1, as the code has it: for a buffer of octets with room for the sender
    address and for the checksum at index [len], [prepareTelegram] returns,
    and the XOR of the octets [0 .. len] of the prepared telegram is [0xff]:
    the checksum octet is [0xff] XOR the octets before it. *)
Theorem prepareTelegram_checksum (ownAddr : Z) (tel : list Z) (len : nat) :
  Forall is_byte tel -> (2 < length tel)%nat -> (len < length tel)%nat ->
  exists tel',
    prepareTelegram ownAddr tel (Z.of_nat len) = Ok tel'
    /\ length tel' = length tel
    /\ tel' !! len = Some (Z.lxor 0xff (xor_octets tel' len))
    /\ xor_octets tel' (S len) = 0xff.
Proof.
  intros Hb H2 Hlen. unfold prepareTelegram.
  rewrite (store_insert tel 1) by lia. simpl.
  set (t1 := <[1%nat := to_byte (Z.shiftr ownAddr 8)]> tel).
  assert (Hl1 : length t1 = length tel) by apply length_insert.
  rewrite (store_insert t1 2) by lia. simpl.
  set (t2 := <[2%nat := to_byte ownAddr]> t1).
  assert (Hl2 : length t2 = length tel) by (unfold t2; by rewrite length_insert).
  assert (Hb2 : Forall is_byte t2) by by do 2 apply Forall_is_byte_insert.
  rewrite Nat2Z.id.
  assert (Hloop : checksum_loop len 0 t2 0xff
                  = Ok (Z.lxor 0xff (xor_octets t2 len))).
  { apply (checksum_loop_spec len 0 t2 0xff Hb2); [unfold is_byte|]; lia. }
  rewrite Hloop. simpl.
  set (c := Z.lxor 255 (xor_octets t2 len)).
  assert (Hc : is_byte c).
  { apply is_byte_lxor; [unfold is_byte; lia|by apply xor_octets_is_byte]. }
  rewrite store_insert by lia. rewrite (to_byte_id c Hc).
  assert (Hx : xor_octets (<[len := c]> t2) len = xor_octets t2 len).
  { unfold xor_octets. by rewrite take_insert_ge. }
  assert (Hk : <[len := c]> t2 !! len = Some c).
  { apply list_lookup_insert_eq. lia. }
  eexists. split; [reflexivity|]. split; [by rewrite length_insert|].
  split; [by rewrite Hx|].
  rewrite (xor_octets_S _ _ _ Hk), Hx. unfold c.
  rewrite (Z.lxor_comm 255), <- Z.lxor_assoc, Z.lxor_nilpotent.
  apply Z.lxor_0_l.
Qed.

(** * Properties *)

Section BusFacts.

Context `{Extern}.

#[local] Arguments count_bits : simpl never.

(** ** handleTelegram *)

Lemma sendNextTelegram_ok (b : Bus) (a : nat) (buf : list Z) :
  sendCurTelegram b = Some a -> mem b !! a = Some buf -> (0 < length buf)%nat ->
  sendNextTelegram b
  = Ok (b |> set_mem (<[a := <[0%nat := 0]> buf]> (mem b))
          |> set_sendCurTelegram (sendNextTel b)
          |> set_sendNextTel None
          |> set_sendTries 0
          |> set_sendTelegramLen 0).
Proof.
  intros Hc Hm Hl. unfold sendNextTelegram, deref. rewrite Hc, Hm. simpl.
  rewrite (store_at buf 0 0) by lia. reflexivity.
Qed.

(** C9: if the collision flag is set when [handleTelegram] runs, the
    published length, the receive buffer, the send slots and the memory stay
    as they are and no acknowledgement is armed; and in every case
    [handleTelegram] returns with the collision flag cleared and the state
    SEND_INIT (for a receive buffer that has the octets 3 to 5 and a first
    send slot that is null or allocated). *)
Theorem handleTelegram_collision (valid : bool) (b : Bus) :
  slot_allocated b -> (6 <= length (telegram b))%nat ->
  exists b',
    handleTelegram valid b = Ok b'
    /\ collision b' = false /\ state b' = SEND_INIT
    /\ telegram b' = telegram b
    /\ (collision b = true ->
        telegramLen b' = telegramLen b /\ sendAck b' = 0
        /\ sendCurTelegram b' = sendCurTelegram b
        /\ sendNextTel b' = sendNextTel b /\ mem b' = mem b).
Proof.
  intros Hslot Hlen. unfold handleTelegram. simpl.
  destruct (collision b) eqn:Hcol; simpl.
  { eexists. split; [reflexivity|]. simpl. repeat split; done. }
  destruct (lookup_lt_is_Some_2 (telegram b) 3) as [t3 H3]; [lia|].
  destruct (lookup_lt_is_Some_2 (telegram b) 4) as [t4 H4]; [lia|].
  destruct (lookup_lt_is_Some_2 (telegram b) 5) as [t5 H5]; [lia|].
  destruct ((8 <=? nextByteIndex b) && valid); simpl.
  - unfold processTel. simpl.
    rewrite (load_at _ 3 t3), (load_at _ 4 t4) by (lia || done). simpl.
    rewrite (load_at _ 5 t5) by (lia || done). simpl.
    repeat (case_match; simpl in * );
      (eexists; split; [reflexivity|]; simpl; repeat split; done).
  - destruct (Z.eqb_spec (nextByteIndex b) 1) as [H1|H1].
    + destruct (sendCurTelegram b) as [a|] eqn:Hc.
      * destruct (Hslot a Hc) as (buf & Hm & Hl).
        destruct ((_ || _) && _).
        -- erewrite sendNextTelegram_ok by (simpl; eauto). simpl.
           eexists. split; [reflexivity|]. simpl. repeat split; done.
        -- eexists. split; [reflexivity|]. simpl. repeat split; done.
      * rewrite andb_false_r.
        eexists. split; [reflexivity|]. simpl. repeat split; done.
    + eexists. split; [reflexivity|]. simpl. repeat split; done.
Qed.

(** C2, as the code has it: for a valid telegram of at least 8 bytes that was
    received without a collision, [handleTelegram] returns, and
    - if [BCU_STATUS_TL] is set in [userRam.status], the ACK is armed exactly
      if the telegram is addressed to us, it is published exactly then, and
      otherwise nothing is armed;
    - if [BCU_STATUS_TL] is clear, the telegram is published and nothing is
      armed, whatever its destination. *)
Theorem handleTelegram_ack_policy (b : Bus) (t3 t4 t5 : Z) :
  collision b = false -> 8 <= nextByteIndex b ->
  telegram b !! 3%nat = Some t3 -> telegram b !! 4%nat = Some t4 ->
  telegram b !! 5%nat = Some t5 ->
  exists b',
    handleTelegram true b = Ok b'
    /\ (Z.land (status b) BCU_STATUS_TL <> 0 ->
        (sendAck b' = SB_BUS_ACK <-> addressed_to_us (ownAddr b) t3 t4 t5)
        /\ (addressed_to_us (ownAddr b) t3 t4 t5 ->
            telegramLen b' = nextByteIndex b)
        /\ (~ addressed_to_us (ownAddr b) t3 t4 t5 ->
            sendAck b' = 0 /\ telegramLen b' = telegramLen b))
    /\ (Z.land (status b) BCU_STATUS_TL = 0 ->
        telegramLen b' = nextByteIndex b /\ sendAck b' = 0).
Proof.
  intros Hcol Hn H3 H4 H5. unfold handleTelegram, processTel. simpl.
  rewrite Hcol. simpl.
  destruct (Z.leb_spec 8 (nextByteIndex b)); [|lia]. simpl.
  rewrite (load_at _ 3 t3), (load_at _ 4 t4) by (lia || done). simpl.
  rewrite (load_at _ 5 t5) by (lia || done). simpl.
  unfold addressed_to_us, SB_BUS_ACK.
  destruct (Z.eqb_spec (Z.land (status b) BCU_STATUS_TL) 0) as [Htl|Htl].
  { destruct (negb _); simpl; eexists; (split; [reflexivity|]); simpl;
      split; intros; done. }
  destruct (Z.eqb_spec (Z.land t5 128) 0) as [Hg|Hg]; simpl.
  - destruct (Z.eqb_spec (Z.lor (Z.shiftl t3 8) t4) (ownAddr b)); simpl;
      eexists; (split; [reflexivity|]); simpl; (split; [|done]); intros _;
      repeat split; intros; try done; try tauto; try lia.
  - destruct (Z.eqb_spec (Z.lor (Z.shiftl t3 8) t4) 0);
      destruct (Z.leb_spec 0 (indexOfAddr (Z.lor (Z.shiftl t3 8) t4))); simpl;
      eexists; (split; [reflexivity|]); simpl; (split; [|done]); intros _;
      repeat split; intros; try done; try tauto; try lia.
Qed.

(** ** The handler in SEND_START_BIT *)

Lemma switch_passes_S (n : nat) (i : Input) (b : Bus) :
  switch_passes (S n) i b
  = state_switch i b ≫= λ '(b, again),
      if (again : bool) then switch_passes n i b else Ok b.
Proof. reflexivity. Qed.


(** C8, as the code has it: in SEND_START_BIT with the capture flag set, if
    the timer's counter, read by the handler, is below the PWM match minus 10,
    the pass through the switch disarms the PWM match and leaves through the
    [goto] with the state RECV_START, so that the handler takes the pending
    capture as a start bit and ends in RECV_BYTE; otherwise the handler ends
    in SEND_BIT_0 and changes nothing else.  The capture register is not
    read. *)
Theorem SEND_START_BIT_capture (i : Input) (b : Bus) :
  state b = SEND_START_BIT -> capFlag i = true ->
  (value i < match_pwm b - 10 ->
     state_switch i b = Ok (b |> set_match_pwm 0xffff |> set_state RECV_START, true)
     /\ exists b', timerInterruptHandler i b = Ok b'
          /\ state b' = RECV_BYTE /\ match_pwm b' = 0xffff
          /\ match_time b' = BYTE_TIME /\ currentByte b' = 0
          /\ bitTime b' = 0 /\ bitMask b' = 1 /\ parity b' = 1)
  /\ (match_pwm b - 10 <= value i ->
     timerInterruptHandler i b = Ok (b |> set_state SEND_BIT_0)).
Proof.
  intros Hst Hcap. unfold timerInterruptHandler. split; intros Hv.
  - assert (Hsw : state_switch i b
                  = Ok (b |> set_match_pwm 0xffff |> set_state RECV_START, true)).
    { unfold state_switch, case_SEND_START_BIT. rewrite Hst, Hcap.
      by destruct (Z.ltb_spec (value i) (match_pwm b - 10)); [|lia]. }
    split; [exact Hsw|].
    assert (Hsw' : exists b', state_switch i
                      (b |> set_match_pwm 0xffff |> set_state RECV_START)
                    = Ok (b', false) /\ state b' = RECV_BYTE
          /\ match_pwm b' = 0xffff /\ match_time b' = BYTE_TIME
          /\ currentByte b' = 0 /\ bitTime b' = 0 /\ bitMask b' = 1
          /\ parity b' = 1).
    { unfold state_switch, case_RECV_START. simpl. rewrite Hcap. simpl.
      eexists. split; [reflexivity|]. simpl. repeat split; done. }
    destruct Hsw' as (b' & Hsw' & Hb').
    rewrite switch_passes_S, Hsw. simpl. rewrite Hsw'. simpl.
    by exists b'.
  - rewrite switch_passes_S. unfold state_switch, case_SEND_START_BIT.
    rewrite Hst, Hcap.
    by destruct (Z.ltb_spec (value i) (match_pwm b - 10)); [lia|].
Qed.

(** ** The parity bit of SEND_BIT_0 *)

Lemma currentByte_case_SEND_BIT (b : Bus) :
  currentByte (case_SEND_BIT b) = currentByte b.
Proof.
  unfold case_SEND_BIT. destruct (send_scan _ _ _ _) as [mask time]. simpl.
  by destruct (0x200 <? Z.shiftl mask 1).
Qed.

Lemma parity_loop_all_bytes (x : Z) : is_byte x -> parity_folded x = true.
Proof.
  intros [Hx Hx'].
  assert (Hall : forallb (fun n => parity_folded (Z.of_nat n)) (seq 0 256) = true)
    by (vm_compute; reflexivity).
  rewrite forallb_forall in Hall.
  rewrite <- (Z2Nat.id x Hx). apply Hall, in_seq. lia.
Qed.

Lemma parity_loop_byte (x : Z) :
  is_byte x ->
  exists mask cb,
    parity_loop 9 1 x = (mask, cb)
    /\ Z.land cb 0xff = x
    /\ Z.testbit cb 8 = Nat.odd (count_bits 8 x)
    /\ Nat.even (count_bits 9 cb) = true.
Proof.
  intros Hx. pose proof (parity_loop_all_bytes x Hx) as Hp.
  unfold parity_folded in Hp. cbv zeta in Hp.
  destruct (parity_loop 9 1 x) as [mask cb].
  change ((mask, cb).2) with cb in Hp.
  destruct (Z.eqb_spec (Z.land cb 255) x) as [Hlow|]; [|discriminate Hp].
  destruct (Nat.even (count_bits 9 cb)) eqn:Hev; [|discriminate Hp].
  exists mask, cb. split; [done|]. split; [done|]. split; [|done].
  by apply eqb_prop.
Qed.

(** C7, as the code has it: for the octet [x] that SEND_BIT_0 loads, the
    handler returns with [x] in the bits 0 to 7 of [currentByte] and with bit
    8 set exactly if [x] has an odd number of set bits, so that the nine
    transmitted bits contain an even number of set bits. *)
Theorem SEND_BIT_0_parity (b : Bus) (x : Z) :
  next_octet b x -> is_byte x ->
  exists b',
    case_SEND_BIT_0 b = Ok b'
    /\ Z.land (currentByte b') 0xff = x
    /\ Z.testbit (currentByte b') 8 = Nat.odd (count_bits 8 x)
    /\ Nat.even (count_bits 9 (currentByte b')) = true.
Proof.
  intros Hload Hx.
  destruct (parity_loop_byte x Hx) as (mask & cb & Hloop & Hlow & H8 & Hev).
  unfold case_SEND_BIT_0.
  destruct Hload as [[Hack ->]|(Hack & Hi & a & buf & Hc & Hm & Hb)].
  - destruct (Z.eqb_spec (sendAck b) 0) as [|_]; [done|].
    cbn [negb mbind result_bind set_currentByte currentByte].
    rewrite Hloop. eexists. split; [reflexivity|].
    by rewrite currentByte_case_SEND_BIT.
  - rewrite Hack. unfold deref. rewrite Hc, Hm.
    cbn [negb Z.eqb mbind result_bind]. rewrite (load_at _ _ x Hi Hb).
    cbn [mbind result_bind set_currentByte set_nextByteIndex currentByte].
    rewrite Hloop. eexists. split; [reflexivity|].
    by rewrite currentByte_case_SEND_BIT.
Qed.

End BusFacts.

Section BusRecv.

(** ** The bits of one event of RECV_BYTE *)

Lemma recv_loop_S (n : nat) (time cb par bt bm : Z) :
  recv_loop (S n) time (cb, par, bt, bm)
  = if (time >=? bt + BIT_WAIT_TIME) && (bm <=? 0x100)
    then recv_loop n time
           (Z.lor cb bm, lnot_int par, bt + BIT_TIME, Z.shiftl bm 1)
    else (cb, par, bt, bm).
Proof. reflexivity. Qed.

(** The loop of RECV_BYTE in closed form: [k] iterations OR the [k] bits from
    [bitMask] on into [currentByte], toggle [parity] [k] times and advance
    [bitTime] and [bitMask] by [k] bit cells. *)
Lemma recv_loop_closed (n : nat) (time cb par bt bm : Z) :
  recv_loop n time (cb, par, bt, bm)
  = let k := recv_iters n time bt bm in
    (Z.lor cb (run_mask k bm), toggle k par,
     bt + Z.of_nat k * BIT_TIME, Z.shiftl bm (Z.of_nat k)).
Proof.
  revert cb par bt bm. induction n as [|n IH]; intros cb par bt bm.
  - cbn. by rewrite Z.lor_0_r, Z.add_0_r.
  - rewrite recv_loop_S. cbn [recv_iters].
    destruct ((time >=? bt + BIT_WAIT_TIME) && (bm <=? 0x100)).
    + rewrite IH. cbv zeta. cbn [run_mask]. unfold toggle.
      rewrite Nat.iter_succ_r, Z.lor_assoc.
      rewrite Z.shiftl_shiftl by lia.
      f_equal; [f_equal; unfold BIT_TIME; lia|f_equal; lia].
    + cbn. by rewrite Z.lor_0_r, Z.add_0_r.
Qed.

(** With the iterations bounded by the distance from [bitTime] to [time], the
    loop ends because its condition is false, and every iteration it made
    found the condition true. *)
Lemma recv_iters_exit (n : nat) (time bt bm : Z) :
  time - bt <= Z.of_nat n ->
  let k := recv_iters n time bt bm in
  ~ (time >= bt + Z.of_nat k * BIT_TIME + BIT_WAIT_TIME
     /\ Z.shiftl bm (Z.of_nat k) <= 0x100).
Proof.
  revert bt bm. induction n as [|n IH]; intros bt bm Hn; cbn [recv_iters].
  - cbv zeta. unfold BIT_TIME, BIT_WAIT_TIME. lia.
  - destruct (Z.geb_spec time (bt + BIT_WAIT_TIME)) as [Ht|Ht]; cbn [andb].
    + destruct (Z.leb_spec bm 0x100) as [Hm|Hm].
      * cbv zeta. specialize (IH (bt + BIT_TIME) (Z.shiftl bm 1)).
        cbv zeta in IH. rewrite Z.shiftl_shiftl in IH by lia.
        replace (1 + Z.of_nat (recv_iters n time (bt + BIT_TIME) (Z.shiftl bm 1)))
          with (Z.of_nat (S (recv_iters n time (bt + BIT_TIME) (Z.shiftl bm 1))))
          in IH by lia.
        intros [H1 H2]. apply IH; [unfold BIT_TIME, BIT_WAIT_TIME in *; lia|].
        split; [|done]. unfold BIT_TIME in *. lia.
      * cbv zeta. rewrite Z.shiftl_0_r. lia.
    + cbv zeta. lia.
Qed.

Lemma recv_iters_held (n : nat) (time bt bm : Z) (j : nat) :
  (j < recv_iters n time bt bm)%nat ->
  time >= bt + Z.of_nat j * BIT_TIME + BIT_WAIT_TIME
  /\ Z.shiftl bm (Z.of_nat j) <= 0x100.
Proof.
  revert bt bm j. induction n as [|n IH]; intros bt bm j; cbn [recv_iters].
  - lia.
  - destruct (Z.geb_spec time (bt + BIT_WAIT_TIME)) as [Ht|Ht]; cbn [andb];
      [|lia].
    destruct (Z.leb_spec bm 0x100) as [Hm|Hm]; [|lia].
    intros Hj. destruct j as [|j].
    + rewrite Z.shiftl_0_r. lia.
    + destruct (IH (bt + BIT_TIME) (Z.shiftl bm 1) j) as [H1 H2]; [lia|].
      rewrite Z.shiftl_shiftl in H2 by lia.
      replace (1 + Z.of_nat j) with (Z.of_nat (S j)) in H2 by lia.
      split; [|done]. unfold BIT_TIME in *. lia.
Qed.

(** C6, as the code has it: an event of RECV_BYTE at [time] changes nothing
    if [time < bitTime + BIT_WAIT_TIME]; [bitMask] is not advanced then.
    Otherwise [bitTime] is first advanced by one bit cell without a bit being
    ORed; then the loop makes [k] iterations, for each of which its condition
    holds, ORs the [k] bits from [bitMask] on into [currentByte], toggles
    [parity] [k] times, and ends with its condition false; after it [bitMask]
    is advanced once more.  So [bitTime] and [bitMask] advance by [k + 1] bit
    cells and [k] bits are ORed. *)
Theorem RECV_BYTE_bits (time : Z) (b : Bus) :
  let bitTime1 := bitTime b + BIT_TIME in
  let k := recv_iters (Z.to_nat (time - bitTime1)) time bitTime1 (bitMask b) in
  (time < bitTime b + BIT_WAIT_TIME -> recv_bits time b = b)
  /\ (bitTime b + BIT_WAIT_TIME <= time ->
      recv_bits time b
      = (b |> set_currentByte (Z.lor (currentByte b) (run_mask k (bitMask b)))
           |> set_parity (toggle k (parity b))
           |> set_bitTime (bitTime b + (Z.of_nat k + 1) * BIT_TIME)
           |> set_bitMask (Z.shiftl (bitMask b) (Z.of_nat k + 1)))
      /\ (forall j : nat, (j < k)%nat ->
           time >= bitTime1 + Z.of_nat j * BIT_TIME + BIT_WAIT_TIME
           /\ Z.shiftl (bitMask b) (Z.of_nat j) <= 0x100)
      /\ ~ (time >= bitTime1 + Z.of_nat k * BIT_TIME + BIT_WAIT_TIME
            /\ Z.shiftl (bitMask b) (Z.of_nat k) <= 0x100)).
Proof.
  cbv zeta. split; intros Ht; unfold recv_bits.
  - by destruct (Z.geb_spec time (bitTime b + BIT_WAIT_TIME)); [lia|].
  - destruct (Z.geb_spec time (bitTime b + BIT_WAIT_TIME)); [|lia].
    repeat split.
    + rewrite recv_loop_closed. cbv beta iota zeta.
      rewrite Z.shiftl_shiftl by lia. f_equal. f_equal. unfold BIT_TIME. lia.
    + eapply recv_iters_held; eauto.
    + eapply recv_iters_held; eauto.
    + apply recv_iters_exit. lia.
Qed.

End BusRecv.

(** ** What the handler does to the send queue *)

Section BusQueue.

Context `{Extern}.

Lemma bind_Ok {A B : Type} (r : result A) (f : A -> result B) (y : B) :
  r ≫= f = Ok y -> exists x, r = Ok x /\ f x = Ok y.
Proof. destruct r as [x|e]; simpl; [eauto|discriminate]. Qed.

Lemma keeps_send_refl (b : Bus) : keeps_send b b.
Proof. by repeat split. Qed.

Lemma sendNextTelegram_releases (b b' : Bus) :
  sendNextTelegram b = Ok b' -> releases b b'.
Proof.
  unfold sendNextTelegram, deref. intros Hs.
  destruct (sendCurTelegram b) as [a|] eqn:Hc; [|discriminate].
  destruct (mem b !! a) as [buf|] eqn:Hm; [|discriminate]. simpl in Hs.
  unfold store in Hs. destruct (_ && _); [|discriminate]. simpl in Hs.
  injection Hs as <-. exists a, buf. simpl. by repeat split.
Qed.

Lemma handleTelegram_effect (v : bool) (b b' : Bus) :
  handleTelegram v b = Ok b' ->
  state b' = SEND_INIT /\ (keeps_send b b' \/ releases b b').
Proof.
  unfold handleTelegram. intros Hh.
  apply bind_Ok in Hh as (b1 & H1 & Hh). injection Hh as <-.
  split; [reflexivity|].
  assert (Hq : keeps_send b b1 \/ releases b b1); [|exact Hq].
  destruct (collision _).
  { injection H1 as <-. left; by repeat split. }
  destruct (_ && v).
  { apply bind_Ok in H1 as (p & _ & H1).
    destruct (_ =? 0); [|destruct p]; injection H1 as <-;
      left; by repeat split. }
  destruct (_ =? 1).
  - destruct (_ && _).
    + right. apply sendNextTelegram_releases in H1. exact H1.
    + injection H1 as <-. left; by repeat split.
  - injection H1 as <-. left; by repeat split.
Qed.

Lemma recv_bits_keeps (time : Z) (b : Bus) :
  keeps_send b (recv_bits time b) /\ state (recv_bits time b) = state b
  /\ sendAck (recv_bits time b) = sendAck b.
Proof.
  unfold recv_bits. destruct (_ >=? _); [|by repeat split].
  by destruct (recv_loop _ _ _) as [[[cb par] bt] bm].
Qed.

Lemma case_RECV_BYTE_effect (i : Input) (b b' : Bus) :
  case_RECV_BYTE i b = Ok b' ->
  keeps_send b b' /\ sendAck b' = sendAck b
  /\ (state b' = RECV_START \/ state b' = state b).
Proof.
  unfold case_RECV_BYTE. intros Hr.
  destruct (recv_bits_keeps (if timeFlag i then BYTE_TIME else capture i) b)
    as (Hk & Hs & Ha).
  set (b0 := recv_bits _ b) in *. clearbody b0.
  destruct (timeFlag i).
  - apply bind_Ok in Hr as (b1 & H1 & Hr). injection Hr as <-.
    assert (Hq : keeps_send b b1 /\ sendAck b1 = sendAck b).
    { destruct (_ <? _).
      - apply bind_Ok in H1 as (tel & _ & H1). by injection H1 as <-.
      - by injection H1 as <-. }
    split; [apply Hq|]. split; [apply Hq|by left].
  - injection Hr as <-. split; [done|]. split; [done|by right].
Qed.

Lemma case_RECV_START_effect (i : Input) (b b' : Bus) :
  case_RECV_START i b = Ok b' ->
  (capFlag i = false /\ state b' = SEND_INIT
   /\ (keeps_send b b' \/ releases b b'))
  \/ (capFlag i = true /\ state b' = RECV_BYTE /\ keeps_send b b'
      /\ sendAck b' = sendAck b).
Proof.
  unfold case_RECV_START. destruct (capFlag i); simpl; intros Hr.
  - right. injection Hr as <-. by repeat split.
  - left. apply handleTelegram_effect in Hr. by split.
Qed.

Lemma case_SEND_BIT_effect (b : Bus) :
  keeps_send b (case_SEND_BIT b)
  /\ sendAck (case_SEND_BIT b) = sendAck b
  /\ sending (case_SEND_BIT b).
Proof.
  unfold case_SEND_BIT, sending.
  destruct (send_scan _ _ _ _) as [mask time]. simpl.
  destruct (0x200 <? _); [destruct (_ && _)|destruct (time <=? _)]; simpl;
    repeat split; tauto.
Qed.

Lemma case_SEND_BIT_0_effect (b b' : Bus) :
  case_SEND_BIT_0 b = Ok b' ->
  keeps_send b b' /\ sendAck b' = sendAck b /\ sending b'.
Proof.
  unfold case_SEND_BIT_0. intros Hs.
  apply bind_Ok in Hs as (b1 & H1 & Hs).
  destruct (parity_loop _ _ _) as [mask cb]. injection Hs as <-.
  assert (Hq : keeps_send b b1 /\ sendAck b1 = sendAck b).
  { destruct (negb _).
    - by injection H1 as <-.
    - apply bind_Ok in H1 as ([a buf] & _ & H1).
      apply bind_Ok in H1 as (x & _ & H1). by injection H1 as <-. }
  destruct (case_SEND_BIT_effect (b1 |> set_currentByte cb |> set_bitMask 1))
    as (Hk & Ha & Hs).
  split; [|split; [|done]].
  - destruct Hk as (? & ? & ? & ?), Hq as ((? & ? & ? & ?) & ?).
    repeat split; simpl in *; congruence.
  - simpl in *. destruct Hq. congruence.
Qed.

Lemma sendNextTelegram_sendAck (b b' : Bus) :
  sendNextTelegram b = Ok b' -> sendAck b' = sendAck b.
Proof.
  unfold sendNextTelegram. intros Hs.
  apply bind_Ok in Hs as ([a buf] & _ & Hs).
  apply bind_Ok in Hs as (buf' & _ & Hs). by injection Hs as <-.
Qed.

Lemma store_length (buf buf' : list Z) (i v : Z) :
  store buf i v = Ok buf' -> length buf' = length buf.
Proof.
  unfold store. destruct (_ && _); [|discriminate]. intros [= <-].
  apply length_insert.
Qed.

Lemma mark_repeated_marks (a : nat) (buf : list Z) (b b' : Bus) :
  sendCurTelegram b = Some a -> mem b !! a = Some buf -> sendTries b = 1 ->
  mark_repeated a buf b = Ok b' ->
  marks b b' /\ sendAck b' = sendAck b /\ state b' = state b.
Proof.
  unfold mark_repeated. intros Hc Hb Ht Hm.
  apply bind_Ok in Hm as (c0 & _ & Hm). apply bind_Ok in Hm as (buf1 & H1 & Hm).
  apply bind_Ok in Hm as (x & _ & Hm). apply bind_Ok in Hm as (buf2 & H2 & Hm).
  injection Hm as <-. unfold marks. simpl. rewrite Ht.
  apply store_length in H1, H2.
  repeat split; try done. exists a, buf, buf2. repeat split; try done.
  congruence.
Qed.

Lemma case_SEND_INIT_effect (i : Input) (b b' : Bus) (again : bool) :
  case_SEND_INIT i b = Ok (b', again) ->
  (capFlag i = true /\ again = true /\ b' = (b |> set_state IDLE))
  \/ (capFlag i = false /\ again = false
      /\ ((sendAck b <> 0 /\ sendAck b' = sendAck b
           /\ state b' = SEND_START_BIT /\ keeps_send b b')
          \/ (sendAck b = 0 /\ exists b1, gives_up b b1
               /\ ((sendCurTelegram b1 <> None /\ sendAck b' = 0
                    /\ state b' = SEND_START_BIT
                    /\ ((sendTries b1 <> 1 /\ keeps_send b1 b') \/ marks b1 b'))
                   \/ (sendCurTelegram b1 = None /\ state b' = IDLE
                       /\ keeps_send b1 b'))))).
Proof.
  unfold case_SEND_INIT. intros Hi.
  destruct (capFlag i).
  { left. by injection Hi as <- <-. }
  right. split; [done|].
  destruct (Z.eqb_spec (sendAck b) 0) as [Hack|Hack]; simpl in Hi.
  2: { injection Hi as <- <-. split; [done|]. left. by repeat split. }
  apply bind_Ok in Hi as (b1 & H1 & Hi).
  assert (Hg : gives_up b b1 /\ sendAck b1 = 0).
  { destruct (Z.ltb_spec 3 (sendTries b)).
    - split; [right; split; [done|by apply sendNextTelegram_releases]|].
      by rewrite (sendNextTelegram_sendAck _ _ H1).
    - injection H1 as <-. split; [left; split; [lia|by repeat split]|done]. }
  destruct Hg as [Hg Hack1].
  destruct (sendCurTelegram b1) as [a0|] eqn:Hc.
  - apply bind_Ok in Hi as ([a buf] & Hd & Hi).
    apply bind_Ok in Hi as (c0 & _ & Hi).
    apply bind_Ok in Hi as (b2 & H2 & Hi). injection Hi as <- <-.
    split; [done|]. right. split; [done|]. exists b1. split; [done|].
    left. split; [by rewrite Hc|].
    unfold deref in Hd.
    destruct (mem b1 !! a0) eqn:Hb1; [|discriminate]. injection Hd as <- <-.
    simpl in H2. destruct (Z.eqb_spec (sendTries b1) 1) as [Ht|Ht].
    + apply mark_repeated_marks in H2 as (Hm & Ha & Hs); [|done..].
      simpl in *. split; [congruence|]. split; [done|]. right.
      destruct Hm as (? & ? & ? & ? & a' & buf0 & buf' & ? & ? & ? & ?).
      unfold marks. simpl. repeat split; try done.
      exists a', buf0, buf'. by repeat split.
    + injection H2 as <-. simpl. split; [done|]. split; [done|].
      left. by repeat split.
  - injection Hi as <- <-. split; [done|]. right. split; [done|].
    exists b1. split; [done|]. right. by repeat split.
Qed.

(** A pass through the switch that starts in IDLE or RECV_START with the
    capture flag set takes the edge as a start bit. *)
Lemma start_bit_pass (i : Input) (b b' : Bus) (again : bool) :
  capFlag i = true -> state b = IDLE \/ state b = RECV_START ->
  state_switch i b = Ok (b', again) ->
  again = false /\ state b' = RECV_BYTE /\ keeps_send b b'
  /\ (state b = RECV_START -> sendAck b' = sendAck b).
Proof.
  intros Hcap [Hs|Hs] Hp; unfold state_switch in Hp; rewrite Hs in Hp;
    unfold case_IDLE, case_RECV_START in Hp; rewrite Hcap in Hp;
    simpl in Hp; injection Hp as <- <-; repeat split; try done;
    intros; congruence.
Qed.

Lemma SEND_INIT_passes (n : nat) (i : Input) (b b' : Bus) :
  state b = SEND_INIT -> switch_passes (S (S n)) i b = Ok b' ->
  isr_effect b b'.
Proof.
  intros Hst Hp. rewrite switch_passes_S in Hp.
  apply bind_Ok in Hp as ([b1 again] & H1 & Hp).
  unfold state_switch in H1. rewrite Hst in H1.
  apply case_SEND_INIT_effect in H1
    as [(Hcap & -> & ->)|(Hcap & -> & [Hack|(Hack & b2 & Hg & Hb)])].
  - rewrite switch_passes_S in Hp.
    apply bind_Ok in Hp as ([b2 again] & H2 & Hp).
    apply start_bit_pass in H2 as (-> & Hs2 & Hk & _); [|done|by left].
    injection Hp as <-. apply effect_receive; [done|by left|].
    unfold sending. rewrite Hst. intros [?|[?|[?|[?|?]]]]; discriminate.
  - injection Hp as <-. destruct Hack as (? & ? & ? & ?).
    apply effect_init_ack; auto.
  - injection Hp as <-.
    destruct Hb as [(Hc & Ha & Hs & Hm)|(Hc & Hs & Hk)].
    + eapply effect_init_telegram; eauto.
    + eapply effect_init_idle; eauto.
Qed.

(** The effect of the handler on the send queue, for every state and every
    input in which it returns. *)
Lemma timerInterruptHandler_effect (i : Input) (b b' : Bus) :
  timerInterruptHandler i b = Ok b' -> isr_effect b b'.
Proof.
  unfold timerInterruptHandler. intros Hp.
  destruct (state b) eqn:Hst.
  - (* IDLE *)
    rewrite switch_passes_S in Hp.
    apply bind_Ok in Hp as ([b1 again] & H1 & Hp).
    destruct (capFlag i) eqn:Hcap.
    + apply start_bit_pass in H1 as (-> & Hs & Hk & _); [|done|by left].
      injection Hp as <-. apply effect_receive; [done|by left|].
      unfold sending. rewrite Hst. intros [?|[?|[?|[?|?]]]]; discriminate.
    + unfold state_switch in H1. rewrite Hst in H1. unfold case_IDLE in H1.
      rewrite Hcap in H1. simpl in H1. injection H1 as <- <-.
      injection Hp as <-. apply effect_none; [done|by left].
  - (* RECV_START *)
    rewrite switch_passes_S in Hp.
    apply bind_Ok in Hp as ([b1 again] & H1 & Hp).
    unfold state_switch in H1. rewrite Hst in H1.
    apply bind_Ok in H1 as (b2 & H2 & H1). injection H1 as <- <-.
    injection Hp as <-.
    apply case_RECV_START_effect in H2
      as [(_ & Hs & Hq)|(_ & Hs & Hk & _)].
    + by apply effect_handle.
    + apply effect_receive; [done|by left|].
      unfold sending. rewrite Hst. intros [?|[?|[?|[?|?]]]]; discriminate.
  - (* RECV_BYTE *)
    rewrite switch_passes_S in Hp.
    apply bind_Ok in Hp as ([b1 again] & H1 & Hp).
    unfold state_switch in H1. rewrite Hst in H1.
    apply bind_Ok in H1 as (b2 & H2 & H1). injection H1 as <- <-.
    injection Hp as <-.
    apply case_RECV_BYTE_effect in H2 as (Hk & _ & Hs).
    apply effect_receive; [done|rewrite Hst in Hs; tauto|].
    unfold sending. rewrite Hst. intros [?|[?|[?|[?|?]]]]; discriminate.
  - (* SEND_INIT *)
    by apply (SEND_INIT_passes 1 i).
  - (* SEND_START_BIT *)
    assert (Hsend : sending b) by (unfold sending; tauto).
    assert (Hne : state b <> SEND_END) by congruence.
    rewrite switch_passes_S in Hp.
    apply bind_Ok in Hp as ([b1 again] & H1 & Hp).
    unfold state_switch in H1. rewrite Hst in H1.
    unfold case_SEND_START_BIT in H1.
    destruct (capFlag i) eqn:Hcap.
    + destruct (_ <? _).
      * injection H1 as <- <-. rewrite switch_passes_S in Hp.
        apply bind_Ok in Hp as ([b2 again] & H2 & Hp).
        apply start_bit_pass in H2 as (-> & Hs2 & Hk & Ha); [|done|by right].
        injection Hp as <-. apply effect_send; try done.
        -- by apply Ha.
        -- by right.
      * injection H1 as <- <-. injection Hp as <-.
        apply effect_send; try done; try (by repeat split).
        left. unfold sending. simpl. tauto.
    + apply bind_Ok in H1 as (b2 & H2 & H1). injection H1 as <- <-.
      injection Hp as <-.
      apply case_SEND_BIT_0_effect in H2 as (Hk & Ha & Hs).
      apply effect_send; try done. by left.
  - (* SEND_BIT_0 *)
    assert (Hsend : sending b) by (unfold sending; tauto).
    assert (Hne : state b <> SEND_END) by congruence.
    rewrite switch_passes_S in Hp.
    apply bind_Ok in Hp as ([b1 again] & H1 & Hp).
    unfold state_switch in H1. rewrite Hst in H1.
    apply bind_Ok in H1 as (b2 & H2 & H1). injection H1 as <- <-.
    injection Hp as <-.
    apply case_SEND_BIT_0_effect in H2 as (Hk & Ha & Hs).
    apply effect_send; try done. by left.
  - (* SEND_BIT *)
    assert (Hsend : sending b) by (unfold sending; tauto).
    assert (Hne : state b <> SEND_END) by congruence.
    rewrite switch_passes_S in Hp.
    apply bind_Ok in Hp as ([b1 again] & H1 & Hp).
    unfold state_switch in H1. rewrite Hst in H1.
    injection H1 as <- <-. injection Hp as <-.
    destruct (case_SEND_BIT_effect b) as (Hk & Ha & Hs).
    apply effect_send; try done. by left.
  - (* SEND_BIT_WAIT *)
    assert (Hsend : sending b) by (unfold sending; tauto).
    assert (Hne : state b <> SEND_END) by congruence.
    rewrite switch_passes_S in Hp.
    apply bind_Ok in Hp as ([b1 again] & H1 & Hp).
    unfold state_switch in H1. rewrite Hst in H1.
    injection H1 as <- <-. injection Hp as <-.
    unfold case_SEND_BIT_WAIT. destruct (_ <? _).
    + apply effect_send; try done; try (by repeat split). by right.
    + apply effect_send; try done; try (by repeat split).
      left. unfold sending. simpl. tauto.
  - (* SEND_END *)
    rewrite switch_passes_S in Hp.
    apply bind_Ok in Hp as ([b1 again] & H1 & Hp).
    unfold state_switch in H1. rewrite Hst in H1.
    injection H1 as <- <-. injection Hp as <-.
    unfold case_SEND_END. simpl.
    destruct (Z.eqb_spec (sendAck b) 0) as [Ha|Ha]; simpl;
      apply effect_end; simpl; try done.
    + by rewrite Ha.
    + by destruct (Z.eqb_spec (sendAck b) 0).
  - (* SEND_WAIT *)
    rewrite switch_passes_S in Hp.
    apply bind_Ok in Hp as ([b1 again] & H1 & Hp).
    unfold state_switch in H1. rewrite Hst in H1.
    unfold case_SEND_WAIT in H1. destruct (_ && _).
    + injection H1 as <- <-. injection Hp as <-.
      apply effect_none; [done|by right].
    + injection H1 as <- <-.
      apply SEND_INIT_passes in Hp; [|done].
      assert (Hns : ~ sending b).
      { unfold sending. rewrite Hst.
        intros [?|[?|[?|[?|?]]]]; discriminate. }
      destruct Hp as [Heq Hor|Hk Hs Hn|Hs Hs' Hq|Hst' Ha Ha' Hs Hk
                     |b2 Hst' Ha Ha' Hs Hg Hc Hm|b2 Hst' Ha Hs Hg Hc Hk
                     |Hsend Hne Hk Ha Hs|Hs Hs' Ha Hc Hn Hm Ht].
      * simpl in Hor. destruct Hor; discriminate.
      * by apply effect_receive.
      * discriminate Hs.
      * apply effect_init_ack; auto.
      * eapply effect_init_telegram; eauto.
      * eapply effect_init_idle; eauto.
      * unfold sending in Hsend. simpl in Hsend.
        destruct Hsend as [?|[?|[?|[?|?]]]]; discriminate.
      * discriminate Hs.
Qed.

End BusQueue.

(** ** The invariant of the send queue *)

Section BusInvariant.

Context `{Extern}.

(* Instantiate the quantified facts with the buffers at hand, then decide
   by cases. *)
#[local] Ltac inst :=
  repeat match goal with
  | I : (forall p : nat, _), p0 : nat |- _ =>
      let T := type of (I p0) in
      lazymatch goal with
      | _ : T |- _ => fail
      | _ => pose proof (I p0)
      end
  end.

#[local] Ltac qauto :=
  unfold sending in *; repeat split; intros; inst;
  intuition (try discriminate; try congruence; try lia).

Lemma queue_inv_begin (m : gmap nat (list Z)) (st a0 a1 : Z) :
  queue_inv (mkSys (begin a0 a1 (constructed m st)) FgIdle).
Proof.
  unfold queue_inv, sending. simpl.
  repeat split; intros; try done; try lia; solve [qauto].
Qed.

Lemma queue_inv_interrupt (f : Fg) (b b' : Bus) :
  isr_effect b b' -> queue_inv (mkSys b f) -> queue_inv (mkSys b' f).
Proof.
  intros He (I1 & I2 & I3 & I4 & I5 & I6 & I7). simpl in *.
  assert (I7a : forall p, pending f = Some p -> sendCurTelegram b = Some p -> False)
    by (intros p Hp; by destruct (I7 p Hp)).
  assert (I7b : forall p, pending f = Some p -> sendNextTel b = Some p -> False)
    by (intros p Hp; by destruct (I7 p Hp)).
  clear I7. unfold queue_inv. simpl.
  destruct He as [Heq Hor|Hk Hs Hn|Hs Hs' Hq|Hst' Ha Ha' Hs Hk
                 |b2 Hst' Ha Ha' Hs Hg Hc Hm|b2 Hst' Ha Hs Hg Hc Hk
                 |Hsend Hne Hk Ha Hs|Hs Hs' Ha Hc Hn Hm Ht].
  - subst b'. repeat split; try done; qauto.
  - destruct Hk as (Hc & Hn' & Ht & _). rewrite Hc, Hn', Ht.
    repeat split; try done; try lia; solve [qauto].
  - unfold sending. rewrite Hs'.
    destruct Hq as [(Hc & Hn' & Ht & _)|(a & buf & Hc & _ & _ & Hc' & Hn' & Ht)].
    + rewrite Hc, Hn', Ht. repeat split; try done; try lia; solve [qauto].
    + rewrite Hc', Hn', Ht. repeat split; try done; try lia; solve [qauto].
  - destruct Hk as (Hc & Hn' & Ht & _). rewrite Hc, Hn', Ht, Ha'.
    repeat split; try done; try lia; solve [qauto].
  - assert (Hb2 : (sendCurTelegram b2 = None -> sendTries b2 = 0)
                  /\ 0 <= sendTries b2 <= 3
                  /\ (forall p, f = FgSetCur p -> sendCurTelegram b2 = None)
                  /\ (forall a, sendCurTelegram b2 = Some a ->
                                sendNextTel b2 <> Some a)
                  /\ (forall p, pending f = Some p ->
                        sendCurTelegram b2 <> Some p /\ sendNextTel b2 <> Some p)).
    { destruct Hg as [(Ht & Hc' & Hn' & Ht' & _)
                     |(Ht & a & buf & Hc' & _ & _ & Hc'' & Hn' & Ht')].
      - rewrite Hc', Hn', Ht'. repeat split; try done; try lia; solve [qauto].
      - rewrite Hc'', Hn', Ht'. repeat split; try done; try lia; solve [qauto]. }
    destruct Hb2 as (J1 & J4 & J5 & J6 & J7).
    unfold sending. rewrite Hs.
    destruct Hm as [(Ht & Hc' & Hn' & Ht' & _)
                   |(Ht & Ht' & Hc' & Hn' & _)]; rewrite Hc', Hn', Ht';
      repeat split; try done; try lia; solve [qauto].
  - assert (Hb2 : sendTries b2 = 0
                  /\ forall p, pending f = Some p -> sendNextTel b2 = Some p -> False).
    { destruct Hg as [(Ht & Hc' & Hn' & Ht' & _)
                     |(Ht & a & buf & Hc' & _ & _ & Hc'' & Hn' & Ht')].
      - rewrite Hc' in Hc. rewrite Hn', Ht'. split; [auto|done].
      - rewrite Hn'. done. }
    destruct Hb2 as [J1 J7].
    destruct Hk as (Hc' & Hn' & Ht' & _). rewrite Hc', Hn', Ht', Hc, J1.
    repeat split; try done; try lia; solve [qauto].
  - destruct Hk as (Hc & Hn' & Ht & _). rewrite Hc, Hn', Ht, Ha.
    repeat split; try done; try lia; solve [qauto].
  - rewrite Hc, Hn. unfold sending. rewrite Hs', Ht.
    assert (Hsend : sending b) by (unfold sending; tauto).
    destruct (Z.eqb_spec (sendAck b) 0) as [Ha0|Ha0].
    + destruct (I2 Hsend Ha0) as (Hcn & H3 & H1).
      repeat split; try done; try lia; solve [qauto].
    + repeat split; try done; try lia; solve [qauto].
Qed.

Lemma queue_inv_foreground (f f' : Fg) (b b' : Bus) :
  sendTelegram_step f b = Ok (f', b') ->
  queue_inv (mkSys b f) -> queue_inv (mkSys b' f').
Proof.
  intros Hf (I1 & I2 & I3 & I4 & I5 & I6 & I7). simpl in *.
  unfold queue_inv. simpl.
  destruct f as [|p len|p|p|p|p|p|]; simpl in Hf.
  - injection Hf as <- <-. repeat split; try done; solve [qauto].
  - apply bind_Ok in Hf as ([a tel] & _ & Hf).
    apply bind_Ok in Hf as (tel' & _ & Hf). injection Hf as <- <-. simpl.
    repeat split; try done; solve [qauto].
  - destruct (bool_decide _); injection Hf as <- <-;
      repeat split; try done; solve [qauto].
  - destruct (bool_decide_reflect (sendCurTelegram b = None));
      injection Hf as <- <-; repeat split; try done; solve [qauto].
  - injection Hf as <- <-. simpl.
    destruct (I7 p eq_refl) as [I7a I7b].
    repeat split; try done; try lia; intros; simplify_eq; solve [qauto].
  - destruct (bool_decide _); [|discriminate]. injection Hf as <- <-.
    repeat split; try done; solve [qauto].
  - injection Hf as <- <-. simpl.
    destruct (I7 p eq_refl) as [I7a I7b].
    repeat split; try done; try lia; intros; simplify_eq; solve [qauto].
  - injection Hf as <- <-. unfold kick_start.
    destruct (bool_decide_reflect (state b = IDLE)) as [Hi|Hi]; simpl;
      repeat split; try done; try lia; solve [qauto].
Qed.

Lemma queue_inv_step (s s' : Sys) : step s s' -> queue_inv s -> queue_inv s'.
Proof.
  intros [e He] Hinv. destruct s as [b f]. destruct e as [i| |p len|p tel];
    simpl in He.
  - apply bind_Ok in He as (b' & Hi & He). injection He as <-.
    eapply queue_inv_interrupt; [|done].
    by eapply timerInterruptHandler_effect.
  - apply bind_Ok in He as ([f' b'] & Hf & He). injection He as <-.
    by eapply queue_inv_foreground.
  - destruct (bool_decide_reflect (f = FgIdle)) as [->|]; [|discriminate].
    unfold owned in He.
    destruct (bool_decide_reflect (sendCurTelegram b <> Some p));
      [|discriminate].
    destruct (bool_decide_reflect (sendNextTel b <> Some p)); [|discriminate].
    injection He as <-.
    destruct Hinv as (I1 & I2 & I3 & I4 & I5 & I6 & I7). simpl in *.
    unfold queue_inv. simpl.
    repeat split; try done; intros; simplify_eq; try done; solve [qauto].
  - destruct (bool_decide_reflect (f = FgIdle)) as [->|]; [|discriminate].
    destruct (owned p b); [|discriminate]. injection He as <-.
    exact Hinv.
Qed.

(** In every state the system can be in, the queue invariant holds. *)
Lemma reachable_queue_inv (s : Sys) : reachable s -> queue_inv s.
Proof.
  induction 1 as [m st a0 a1|s s' _ IH Hstep].
  - apply queue_inv_begin.
  - by eapply queue_inv_step.
Qed.

(** Where the handler dereferences a null pointer. *)
Lemma sendNextTelegram_null (b : Bus) :
  sendNextTelegram b = Fault NullPointer -> sendCurTelegram b = None.
Proof.
  unfold sendNextTelegram, deref.
  destruct (sendCurTelegram b) as [a|]; [|done].
  destruct (mem b !! a) as [buf|]; [|discriminate]. simpl.
  unfold store. by destruct (_ && _).
Qed.

Lemma handleTelegram_not_null (v : bool) (b : Bus) :
  handleTelegram v b <> Fault NullPointer.
Proof.
  unfold handleTelegram. intros Hh.
  match type of Hh with ?r ≫= _ = _ => destruct r as [b1|e] eqn:H1 end;
    [discriminate|]. simpl in Hh. injection Hh as ->.
  destruct (collision _); [discriminate|].
  destruct (_ && v).
  { unfold processTel, load in H1.
    repeat (case_match; simpl in H1; try discriminate). }
  destruct (_ =? 1); [|discriminate].
  destruct (_ && _) eqn:Hg; [|discriminate].
  apply sendNextTelegram_null in H1. simpl in *.
  apply andb_true_iff in Hg as [_ Hg]. apply bool_decide_eq_true in Hg. done.
Qed.

Lemma case_SEND_BIT_0_null (b : Bus) :
  case_SEND_BIT_0 b = Fault NullPointer ->
  sendAck b = 0 /\ sendCurTelegram b = None.
Proof.
  unfold case_SEND_BIT_0. intros Hs.
  match type of Hs with ?r ≫= _ = _ => destruct r as [b1|e] eqn:H1 end.
  { unfold mbind, result_bind in Hs. cbv beta iota in Hs.
    destruct (parity_loop _ _ _). discriminate. }
  simpl in Hs. injection Hs as ->.
  destruct (Z.eqb_spec (sendAck b) 0) as [Ha|Ha]; [|discriminate].
  split; [done|]. simpl in H1. unfold deref, load in H1.
  destruct (sendCurTelegram b) as [a|]; [|done].
  repeat (case_match; simpl in H1; try discriminate).
Qed.

Lemma case_SEND_INIT_null (i : Input) (b : Bus) :
  case_SEND_INIT i b = Fault NullPointer ->
  sendAck b = 0 /\ 3 < sendTries b /\ sendCurTelegram b = None.
Proof.
  unfold case_SEND_INIT. intros Hs.
  destruct (capFlag i); [discriminate|].
  destruct (Z.eqb_spec (sendAck b) 0) as [Ha|Ha]; [|discriminate].
  simpl in Hs.
  match type of Hs with ?r ≫= _ = _ => destruct r as [b1|e] eqn:H1 end.
  - exfalso. simpl in Hs.
    destruct (sendCurTelegram b1) as [a|] eqn:Hc; [|discriminate].
    unfold deref, mark_repeated, load, store in Hs.
    repeat (case_match; simpl in Hs; try discriminate).
  - simpl in Hs. injection Hs as ->.
    destruct (Z.ltb_spec 3 (sendTries b)); [|discriminate].
    by apply sendNextTelegram_null in H1.
Qed.

Lemma bind_Fault {A B : Type} (r : result A) (f : A -> result B) (e : fault) :
  r ≫= f = Fault e -> r = Fault e \/ exists x, r = Ok x /\ f x = Fault e.
Proof. destruct r as [x|e']; simpl; [eauto|]. intros [= ->]. by left. Qed.

Lemma start_bit_pass_ok (i : Input) (b : Bus) :
  capFlag i = true -> state b = IDLE \/ state b = RECV_START ->
  exists b', state_switch i b = Ok (b', false).
Proof.
  intros Hcap [Hs|Hs]; unfold state_switch; rewrite Hs;
    unfold case_IDLE, case_RECV_START; rewrite Hcap; simpl; eauto.
Qed.

Lemma case_RECV_BYTE_not_null (i : Input) (b : Bus) :
  case_RECV_BYTE i b <> Fault NullPointer.
Proof.
  unfold case_RECV_BYTE. destruct (timeFlag i); [|discriminate].
  intros Hr. apply bind_Fault in Hr as [Hr|(b1 & _ & Hr)]; [|discriminate].
  destruct (_ <? _); [|discriminate].
  apply bind_Fault in Hr as [Hr|(tel & _ & Hr)]; [|discriminate].
  unfold store in Hr. by destruct (_ && _).
Qed.

Lemma SEND_INIT_passes_null (n : nat) (i : Input) (b : Bus) :
  state b = SEND_INIT -> switch_passes (S (S n)) i b = Fault NullPointer ->
  sendAck b = 0 /\ 3 < sendTries b /\ sendCurTelegram b = None.
Proof.
  intros Hst Hp. rewrite switch_passes_S in Hp.
  apply bind_Fault in Hp as [H1|([b1 again] & H1 & Hp)];
    unfold state_switch in H1; rewrite Hst in H1.
  - by apply case_SEND_INIT_null in H1.
  - exfalso. apply case_SEND_INIT_effect in H1 as [(Hcap & -> & ->)|(_ & -> & _)];
      [|discriminate].
    destruct (start_bit_pass_ok i (b |> set_state IDLE) Hcap) as [b2 H2];
      [by left|].
    rewrite switch_passes_S, H2 in Hp. discriminate.
Qed.

(** The handler dereferences a null pointer only where it gives up or sends
    the current telegram although the first send slot is empty. *)
Lemma timerInterruptHandler_null (i : Input) (b : Bus) :
  timerInterruptHandler i b = Fault NullPointer ->
  sendAck b = 0 /\ sendCurTelegram b = None
  /\ ((3 < sendTries b /\ (state b = SEND_INIT \/ state b = SEND_WAIT))
      \/ state b = SEND_START_BIT \/ state b = SEND_BIT_0).
Proof.
  unfold timerInterruptHandler. intros Hp.
  destruct (state b) eqn:Hst.
  - (* IDLE *)
    exfalso. rewrite switch_passes_S in Hp. unfold state_switch in Hp.
    rewrite Hst in Hp. unfold case_IDLE, case_RECV_START in Hp.
    by destruct (capFlag i).
  - (* RECV_START *)
    exfalso. rewrite switch_passes_S in Hp. unfold state_switch in Hp.
    rewrite Hst in Hp. unfold case_RECV_START in Hp.
    destruct (capFlag i); [discriminate|]. simpl in Hp.
    apply bind_Fault in Hp as [Hp|([b1 again] & H1 & Hp)].
    + apply bind_Fault in Hp as [Hp|(b1 & _ & Hp)]; [|discriminate].
      by apply handleTelegram_not_null in Hp.
    + apply bind_Ok in H1 as (b2 & _ & H1). injection H1 as <- <-.
      discriminate.
  - (* RECV_BYTE *)
    exfalso. rewrite switch_passes_S in Hp. unfold state_switch in Hp.
    rewrite Hst in Hp.
    apply bind_Fault in Hp as [Hp|([b1 again] & H1 & Hp)].
    + apply bind_Fault in Hp as [Hp|(b1 & _ & Hp)]; [|discriminate].
      by apply case_RECV_BYTE_not_null in Hp.
    + apply bind_Ok in H1 as (b2 & _ & H1). injection H1 as <- <-.
      discriminate.
  - (* SEND_INIT *)
    apply SEND_INIT_passes_null in Hp as (? & ? & ?); [|done]. tauto.
  - (* SEND_START_BIT *)
    rewrite switch_passes_S in Hp. unfold state_switch in Hp.
    rewrite Hst in Hp. unfold case_SEND_START_BIT in Hp.
    destruct (capFlag i) eqn:Hcap.
    + exfalso. destruct (_ <? _); [|discriminate].
      unfold mbind, result_bind in Hp. cbv beta iota in Hp.
      destruct (start_bit_pass_ok i
                  (b |> set_match_pwm 0xffff |> set_state RECV_START) Hcap)
        as [b2 H2]; [by right|].
      rewrite switch_passes_S, H2 in Hp. discriminate.
    + apply bind_Fault in Hp as [Hp|([b1 again] & H1 & Hp)].
      * apply bind_Fault in Hp as [Hp|(b1 & _ & Hp)]; [|discriminate].
        apply case_SEND_BIT_0_null in Hp as [? ?]. tauto.
      * apply bind_Ok in H1 as (b2 & _ & H1). injection H1 as <- <-.
        discriminate.
  - (* SEND_BIT_0 *)
    rewrite switch_passes_S in Hp. unfold state_switch in Hp.
    rewrite Hst in Hp.
    apply bind_Fault in Hp as [Hp|([b1 again] & H1 & Hp)].
    + apply bind_Fault in Hp as [Hp|(b1 & _ & Hp)]; [|discriminate].
      apply case_SEND_BIT_0_null in Hp as [? ?]. tauto.
    + apply bind_Ok in H1 as (b2 & _ & H1). injection H1 as <- <-.
      discriminate.
  - (* SEND_BIT *)
    rewrite switch_passes_S in Hp. unfold state_switch in Hp.
    rewrite Hst in Hp. discriminate.
  - (* SEND_BIT_WAIT *)
    rewrite switch_passes_S in Hp. unfold state_switch in Hp.
    rewrite Hst in Hp. discriminate.
  - (* SEND_END *)
    rewrite switch_passes_S in Hp. unfold state_switch in Hp.
    rewrite Hst in Hp. discriminate.
  - (* SEND_WAIT *)
    rewrite switch_passes_S in Hp. unfold state_switch in Hp.
    rewrite Hst in Hp. unfold case_SEND_WAIT in Hp.
    destruct (_ && _); [discriminate|].
    unfold mbind, result_bind in Hp. cbv beta iota in Hp.
    apply SEND_INIT_passes_null in Hp as (? & ? & ?); [|done]. tauto.
Qed.

(** C10: in every state the system can be in, an empty first send slot
    implies a retry counter of 0; so the handler, whatever the timer flags
    and registers, never dereferences a null pointer: not where SEND_INIT
    gives up the telegram, and nowhere else. *)
Theorem null_slot_no_retries (s : Sys) :
  reachable s ->
  (sendCurTelegram (bus s) = None -> sendTries (bus s) = 0)
  /\ forall i, timerInterruptHandler i (bus s) <> Fault NullPointer.
Proof.
  intros Hr. apply reachable_queue_inv in Hr.
  destruct Hr as (I1 & I2 & _). split; [exact I1|].
  intros i Hf. apply timerInterruptHandler_null in Hf as (Ha & Hc & Hf).
  destruct Hf as [[Ht _]|Hs].
  - specialize (I1 Hc). lia.
  - apply I2 in Ha as [Hn _]; [done|]. unfold sending. tauto.
Qed.

End BusInvariant.

(** ** The buffers of the send queue *)

Section BusBuffers.

Context `{Extern}.

Lemma allocated_insert (b b' : Bus) (a : nat) (buf buf' : list Z) :
  mem b !! a = Some buf -> length buf' = length buf ->
  mem b' = <[a := buf']> (mem b) ->
  forall p, allocated b p -> allocated b' p.
Proof.
  intros Ha Hl Hm p (bufp & Hp & Hlp). unfold allocated. rewrite Hm.
  destruct (decide (a = p)) as [->|Hne].
  - rewrite lookup_insert_eq. exists buf'. split; [done|]. congruence.
  - rewrite lookup_insert_ne by done. eauto.
Qed.

Lemma keeps_send_allocated (b b' : Bus) :
  keeps_send b b' -> forall p, allocated b p -> allocated b' p.
Proof. intros (_ & _ & _ & Hm) p. unfold allocated. by rewrite Hm. Qed.

Lemma releases_allocated (b b' : Bus) :
  releases b b' -> forall p, allocated b p -> allocated b' p.
Proof.
  intros (a & buf & _ & Hb & Hm & _).
  eapply allocated_insert; [done| |done]. apply length_insert.
Qed.

Lemma marks_allocated (b b' : Bus) :
  marks b b' -> forall p, allocated b p -> allocated b' p.
Proof.
  intros (_ & _ & _ & _ & a & buf & buf' & _ & Hb & Hl & Hm).
  by eapply allocated_insert.
Qed.

(** The handler keeps the buffers allocated, and puts nothing new into the
    send slots. *)
Lemma isr_effect_slots (b b' : Bus) :
  isr_effect b b' ->
  (forall p, allocated b p -> allocated b' p)
  /\ (forall p, sendCurTelegram b' = Some p ->
        sendCurTelegram b = Some p \/ sendNextTel b = Some p)
  /\ (forall p, sendNextTel b' = Some p -> sendNextTel b = Some p).
Proof.
  assert (Hkeep : forall x y, keeps_send x y ->
    (forall p, allocated x p -> allocated y p)
    /\ (forall p, sendCurTelegram y = Some p ->
          sendCurTelegram x = Some p \/ sendNextTel x = Some p)
    /\ (forall p, sendNextTel y = Some p -> sendNextTel x = Some p)).
  { intros x y Hk. split; [by apply keeps_send_allocated|].
    destruct Hk as (Hc & Hn & _). rewrite Hc, Hn. auto. }
  assert (Hrel : forall x y, releases x y ->
    (forall p, allocated x p -> allocated y p)
    /\ (forall p, sendCurTelegram y = Some p ->
          sendCurTelegram x = Some p \/ sendNextTel x = Some p)
    /\ (forall p, sendNextTel y = Some p -> sendNextTel x = Some p)).
  { intros x y Hr. split; [by apply releases_allocated|].
    destruct Hr as (a & buf & _ & _ & _ & Hc & Hn & _). rewrite Hc, Hn.
    split; [auto|discriminate]. }
  assert (Hmark : forall x y, marks x y ->
    (forall p, allocated x p -> allocated y p)
    /\ (forall p, sendCurTelegram y = Some p ->
          sendCurTelegram x = Some p \/ sendNextTel x = Some p)
    /\ (forall p, sendNextTel y = Some p -> sendNextTel x = Some p)).
  { intros x y Hm. split; [by apply marks_allocated|].
    destruct Hm as (_ & _ & Hc & Hn & _). rewrite Hc, Hn. auto. }
  assert (Hgive : forall x y, gives_up x y ->
    (forall p, allocated x p -> allocated y p)
    /\ (forall p, sendCurTelegram y = Some p ->
          sendCurTelegram x = Some p \/ sendNextTel x = Some p)
    /\ (forall p, sendNextTel y = Some p -> sendNextTel x = Some p)).
  { intros x y [[_ Hk]|[_ Hr]]; auto. }
  assert (Htrans : forall x y z,
    ((forall p, allocated x p -> allocated y p)
     /\ (forall p, sendCurTelegram y = Some p ->
           sendCurTelegram x = Some p \/ sendNextTel x = Some p)
     /\ (forall p, sendNextTel y = Some p -> sendNextTel x = Some p)) ->
    ((forall p, allocated y p -> allocated z p)
     /\ (forall p, sendCurTelegram z = Some p ->
           sendCurTelegram y = Some p \/ sendNextTel y = Some p)
     /\ (forall p, sendNextTel z = Some p -> sendNextTel y = Some p)) ->
    (forall p, allocated x p -> allocated z p)
    /\ (forall p, sendCurTelegram z = Some p ->
          sendCurTelegram x = Some p \/ sendNextTel x = Some p)
    /\ (forall p, sendNextTel z = Some p -> sendNextTel x = Some p)).
  { intros x y z (A1 & C1 & N1) (A2 & C2 & N2). repeat split; [auto| |auto].
    intros p Hp. destruct (C2 p Hp); auto. }
  intros [Heq Hor|Hk Hs Hn|Hs Hs' Hq|Hst' Ha Ha' Hs Hk
         |b2 Hst' Ha Ha' Hs Hg Hc Hm|b2 Hst' Ha Hs Hg Hc Hk
         |Hsend Hne Hk Ha Hs|Hs Hs' Ha Hc Hn Hm Ht].
  - subst b'. auto.
  - auto.
  - destruct Hq; auto.
  - auto.
  - apply (Htrans b b2 b'); [auto|]. destruct Hm as [[_ Hk]|Hm]; auto.
  - apply (Htrans b b2 b'); auto.
  - auto.
  - unfold allocated. rewrite Hc, Hn, Hm. auto.
Qed.

Lemma prepareTelegram_length (ownAddr : Z) (tel tel' : list Z) (len : Z) :
  prepareTelegram ownAddr tel len = Ok tel' ->
  length tel' = length tel /\ (2 < length tel)%nat.
Proof.
  unfold prepareTelegram. intros Hp.
  apply bind_Ok in Hp as (t1 & H1 & Hp). apply bind_Ok in Hp as (t2 & H2 & Hp).
  apply bind_Ok in Hp as (c & _ & Hp).
  pose proof (store_length _ _ _ _ H1). pose proof (store_length _ _ _ _ H2).
  pose proof (store_length _ _ _ _ Hp).
  split; [congruence|]. unfold store in H2.
  destruct (Z.leb_spec 0 2); [|lia].
  destruct (Z.ltb_spec 2 (Z.of_nat (length t1))); [|discriminate]. lia.
Qed.

Lemma buffers_inv_step (s s' : Sys) :
  step s s' -> buffers_inv s -> buffers_inv s'.
Proof.
  intros [e He] Hinv. destruct s as [b f]. unfold buffers_inv in *.
  simpl in *. destruct e as [i| |q len|q tel]; simpl in He.
  - apply bind_Ok in He as (b' & Hi & He). injection He as <-. simpl.
    apply timerInterruptHandler_effect, isr_effect_slots in Hi
      as (Ha & Hc & Hn).
    intros p [Hp|[Hp|Hp]]; apply Ha, Hinv.
    + destruct (Hc p Hp); auto.
    + auto.
    + auto.
  - apply bind_Ok in He as ([f' b'] & Hf & He). injection He as <-. simpl.
    destruct f as [|q len|q|q|q|q|q|]; simpl in Hf.
    + injection Hf as <- <-. exact Hinv.
    + apply bind_Ok in Hf as ([a tel] & Hd & Hf).
      apply bind_Ok in Hf as (tel' & Hp & Hf). injection Hf as <- <-.
      unfold deref in Hd. destruct (mem b !! q) as [buf|] eqn:Hq;
        [|discriminate]. injection Hd as <- <-.
      apply prepareTelegram_length in Hp as [Hl H2].
      intros p Hp. unfold allocated. simpl.
      destruct (decide (q = p)) as [->|Hne].
      * rewrite lookup_insert_eq. exists tel'. split; [done|lia].
      * rewrite lookup_insert_ne by done. apply Hinv.
        destruct Hp as [?|[?|[[= ?] _]]]; [auto|auto|done].
    + destruct (bool_decide _); injection Hf as <- <-;
        intros p Hp; apply Hinv; simpl in *;
        (destruct Hp as [?|[?|[? _]]]; [auto|auto|]);
        right; right; (split; [done|discriminate]).
    + destruct (bool_decide _); injection Hf as <- <-;
        intros p Hp; apply Hinv; simpl in *;
        (destruct Hp as [?|[?|[? _]]]; [auto|auto|]);
        right; right; (split; [done|discriminate]).
    + injection Hf as <- <-. intros p Hp. apply (Hinv p). simpl in *.
      destruct Hp as [[= ->]|[?|[? _]]]; [|auto|done].
      right; right. split; [done|discriminate].
    + destruct (bool_decide _); [|discriminate]. injection Hf as <- <-.
      intros p Hp; apply Hinv; simpl in *.
      destruct Hp as [?|[?|[? _]]]; [auto|auto|].
      right; right; (split; [done|discriminate]).
    + injection Hf as <- <-. intros p Hp. apply (Hinv p). simpl in *.
      destruct Hp as [?|[[= ->]|[? _]]]; [auto| |done].
      right; right. split; [done|discriminate].
    + injection Hf as <- <-. intros p Hp.
      assert (Hq : allocated b p).
      { apply Hinv. destruct Hp as [Hp|[Hp|[? _]]]; [| |done];
          unfold kick_start in Hp; destruct (bool_decide _); auto. }
      unfold allocated, kick_start in *. by destruct (bool_decide _).
  - destruct (bool_decide_reflect (f = FgIdle)) as [->|]; [|discriminate].
    destruct (owned q b); [|discriminate]. injection He as <-. simpl.
    intros p [Hp|[Hp|[[= ->] Hp]]]; [apply Hinv; auto..|].
    by destruct (Hp len).
  - destruct (bool_decide_reflect (f = FgIdle)) as [->|]; [|discriminate].
    unfold owned in He.
    destruct (bool_decide_reflect (sendCurTelegram b <> Some q));
      [|discriminate].
    destruct (bool_decide_reflect (sendNextTel b <> Some q)); [|discriminate].
    injection He as <-. simpl.
    intros p Hp. unfold allocated. simpl.
    assert (q <> p) by (destruct Hp as [?|[?|[? _]]]; congruence).
    rewrite lookup_insert_ne by done. apply Hinv.
    destruct Hp as [?|[?|[? _]]]; [auto|auto|done].
Qed.

Lemma reachable_buffers_inv (s : Sys) : reachable s -> buffers_inv s.
Proof.
  induction 1 as [m st a0 a1|s s' _ IH Hstep].
  - intros p [Hp|[Hp|[Hp _]]]; discriminate.
  - by eapply buffers_inv_step.
Qed.

(** A run of events that does not fault stays within the states the system
    can be in. *)
Lemma run_reachable (es : list Event) (s s' : Sys) :
  reachable s -> run es s = Ok s' -> reachable s'.
Proof.
  revert s. induction es as [|e es IH]; intros s Hr Hrun; simpl in Hrun.
  - by injection Hrun as <-.
  - apply bind_Ok in Hrun as (s1 & He & Hrun).
    apply (IH s1); [|done]. apply (reachable_step s); [done|]. by exists e.
Qed.

Lemma run_quiet_reachable (n : nat) (s s' : Sys) (k : nat) :
  reachable s -> run_quiet n s = Ok (k, s') -> reachable s'.
Proof.
  revert s k. induction n as [|n IH]; intros s k Hr Hrun; simpl in Hrun.
  - by injection Hrun as <- <-.
  - apply bind_Ok in Hrun as (s1 & He & Hrun).
    apply bind_Ok in Hrun as ([k' s2] & Hq & Hrun). injection Hrun as <- <-.
    apply (IH s1 k'); [|done]. apply (reachable_step s); [done|].
    by exists (Interrupt (quiet_bus (bus s))).
Qed.

End BusBuffers.

(** ** The current telegram over a run *)

Section BusRetry.

Context `{Extern}.

Lemma attempt_end_0 (s s' : Sys) :
  ~ (state (bus s) = SEND_END /\ sendAck (bus s) = 0
     /\ state (bus s') = SEND_WAIT) ->
  attempt_end s s' = 0%nat.
Proof. intros Hn. unfold attempt_end. by rewrite bool_decide_eq_false_2. Qed.

Lemma attempts_of_succ (t : Z) :
  0 <= t <= 3 -> t <> 1 ->
  attempts_of (t + 1) = (attempts_of t + 1)%nat.
Proof.
  intros Ht H1. unfold attempts_of.
  destruct (Z.leb_spec (t + 1) 1), (Z.leb_spec t 1); lia.
Qed.

(** One invocation of the handler during which [a] stays the current
    telegram: the retry counter follows the completed transmissions, and
    once it is 2 or more the telegram is not written to. *)
Lemma interrupt_current (f : Fg) (b b' : Bus) (a : nat) :
  queue_inv (mkSys b f) -> isr_effect b b' ->
  sendCurTelegram b = Some a -> sendCurTelegram b' = Some a ->
  attempts_of (sendTries b')
  = (attempts_of (sendTries b) + attempt_end (mkSys b f) (mkSys b' f))%nat
  /\ (2 <= sendTries b ->
      2 <= sendTries b' /\ mem b' !! a = mem b !! a).
Proof.
  intros (I1 & I2 & I3 & I4 & I5 & I6 & I7) He Hca Hca'. simpl in *.
  specialize (I6 a Hca).
  destruct He as [Heq Hor|Hk Hs Hn|Hs Hs' Hq|Hst' Ha Ha' Hs Hk
                 |b2 Hst' Ha Ha' Hs Hg Hc Hm|b2 Hst' Ha Hs Hg Hc Hk
                 |Hsend Hne Hk Ha Hs|Hs Hs' Ha Hc Hn Hm Ht].
  - subst b'. rewrite attempt_end_0; [split; [lia|done]|].
    simpl. intros (? & _ & _). destruct Hor; congruence.
  - destruct Hk as (_ & _ & Ht & Hm). rewrite Ht, Hm.
    rewrite attempt_end_0; [split; [lia|done]|].
    simpl. intros (_ & _ & ?). destruct Hs; congruence.
  - rewrite attempt_end_0 by (simpl; intros (? & _ & _); congruence).
    destruct Hq as [(_ & _ & Ht & Hm)|(a' & buf & _ & _ & _ & Hc & _)].
    + rewrite Ht, Hm. split; [lia|done].
    + congruence.
  - destruct Hk as (_ & _ & Ht & Hm). rewrite Ht, Hm.
    rewrite attempt_end_0; [split; [lia|done]|].
    simpl. intros (_ & _ & ?). congruence.
  - rewrite attempt_end_0 by (simpl; intros (_ & _ & ?); congruence).
    assert (Hb2 : sendCurTelegram b2 = Some a).
    { destruct Hm as [(_ & Hc' & _)|(_ & _ & Hc' & _)]; congruence. }
    destruct Hg as [(_ & Hc' & Hn' & Ht' & Hm')
                   |(_ & a' & buf & _ & _ & _ & Hc' & _)]; [|congruence].
    destruct Hm as [(_ & _ & _ & Ht'' & Hm'')
                   |(Ht1 & Ht2 & _ & _ & _)].
    + rewrite Ht'', Ht', Hm'', Hm'. split; [lia|done].
    + rewrite Ht2. rewrite Ht' in Ht1. rewrite Ht1. split; [done|lia].
  - destruct Hk as (Hc' & _). congruence.
  - destruct Hk as (_ & _ & Ht & Hm). rewrite Ht, Hm.
    rewrite attempt_end_0; [split; [lia|done]|].
    simpl. intros (? & _ & _). congruence.
  - rewrite Ht, Hm. unfold attempt_end. simpl.
    destruct (Z.eqb_spec (sendAck b) 0) as [Ha0|Ha0].
    + rewrite bool_decide_eq_true_2 by done.
      destruct I2 as (_ & H3 & H1); [unfold sending; tauto|done|].
      rewrite attempts_of_succ by lia. split; [done|]. split; [lia|done].
    + rewrite bool_decide_eq_false_2 by tauto. split; [lia|done].
Qed.

Lemma step_current (s s' : Sys) (a : nat) :
  queue_inv s -> step s s' ->
  sendCurTelegram (bus s) = Some a -> sendCurTelegram (bus s') = Some a ->
  attempts_of (sendTries (bus s'))
  = (attempts_of (sendTries (bus s)) + attempt_end s s')%nat
  /\ (2 <= sendTries (bus s) ->
      2 <= sendTries (bus s') /\ mem (bus s') !! a = mem (bus s) !! a).
Proof.
  intros Hinv [e He] Hca Hca'. destruct s as [b f]. simpl in *.
  destruct e as [i| |q len|q tel]; simpl in He.
  - apply bind_Ok in He as (b' & Hi & He). injection He as <-.
    by apply interrupt_current; [|apply (timerInterruptHandler_effect i)|..].
  - destruct Hinv as (I1 & I2 & I3 & I4 & I5 & I6 & I7). simpl in *.
    apply bind_Ok in He as ([f' b'] & Hf & He). injection He as <-.
    simpl in *.
    destruct f as [|p len|p|p|p|p|p|]; simpl in Hf.
    + injection Hf as <- <-. rewrite attempt_end_0; [split; [lia|done]|].
      simpl. intros (? & _ & ?). congruence.
    + apply bind_Ok in Hf as ([a' tel] & Hd & Hf).
      apply bind_Ok in Hf as (tel' & _ & Hf). injection Hf as <- <-.
      unfold deref in Hd. destruct (mem b !! p); [|discriminate].
      injection Hd as <- <-. simpl.
      rewrite attempt_end_0 by (simpl; intros (? & _ & ?); congruence).
      split; [lia|]. intros Ht. split; [done|].
      destruct (I7 p eq_refl) as [Hp _].
      rewrite lookup_insert_ne; [done|congruence].
    + rewrite attempt_end_0.
      * destruct (bool_decide _); injection Hf as <- <-; split; [lia|done|lia|done].
      * destruct (bool_decide _); injection Hf as <- <-; simpl;
          intros (? & _ & ?); congruence.
    + rewrite attempt_end_0.
      * destruct (bool_decide _); injection Hf as <- <-; split; [lia|done|lia|done].
      * destruct (bool_decide _); injection Hf as <- <-; simpl;
          intros (? & _ & ?); congruence.
    + specialize (I5 p eq_refl). congruence.
    + destruct (bool_decide _); [|discriminate]. injection Hf as <- <-.
      rewrite attempt_end_0; [split; [lia|done]|].
      simpl. intros (? & _ & ?). congruence.
    + injection Hf as <- <-. simpl.
      rewrite attempt_end_0; [split; [lia|done]|].
      simpl. intros (? & _ & ?). congruence.
    + injection Hf as <- <-. unfold kick_start in *.
      destruct (bool_decide_reflect (state b = IDLE)) as [Hi|Hi]; simpl in *.
      * rewrite attempt_end_0 by (simpl; intros (? & _ & ?); congruence).
        pose proof (I3 Hi) as Ht0. rewrite Ht0. split; [done|lia].
      * rewrite attempt_end_0; [split; [lia|done]|].
        simpl. intros (? & _ & ?). congruence.
  - destruct (bool_decide _ && _); [|discriminate]. injection He as <-.
    simpl. rewrite attempt_end_0; [split; [lia|done]|].
    simpl. intros (? & _ & ?). congruence.
  - destruct (bool_decide_reflect (f = FgIdle)) as [->|]; [|discriminate].
    unfold owned in He.
    destruct (bool_decide_reflect (sendCurTelegram b <> Some q));
      [|discriminate].
    destruct (bool_decide _); [|discriminate]. injection He as <-. simpl.
    rewrite attempt_end_0 by (simpl; intros (? & _ & ?); congruence).
    split; [lia|]. intros Ht. split; [done|].
    rewrite lookup_insert_ne; [done|congruence].
Qed.

Lemma run_current_inv (a : nat) (s s' : Sys) (n : nat) :
  queue_inv s -> run_current a s n s' ->
  queue_inv s' /\ sendCurTelegram (bus s) = Some a
  /\ sendCurTelegram (bus s') = Some a
  /\ attempts_of (sendTries (bus s'))
     = (attempts_of (sendTries (bus s)) + n)%nat
  /\ (2 <= sendTries (bus s) ->
      2 <= sendTries (bus s') /\ mem (bus s') !! a = mem (bus s) !! a).
Proof.
  intros Hinv. induction 1 as [s Hc|s s1 s2 n Hrun IH Hstep Hc].
  - split; [done|]. split; [done|]. split; [done|]. split; [lia|].
    intros Ht. by split.
  - destruct (IH Hinv) as (Hinv1 & Hc0 & Hc1 & Hn & Hm).
    destruct (step_current s1 s2 a Hinv1 Hstep Hc1 Hc) as [Hn2 Hm2].
    split; [by eapply queue_inv_step|]. split; [done|]. split; [done|].
    split; [lia|]. intros Ht. destruct (Hm Ht) as [Ht1 Hm1].
    destruct (Hm2 Ht1) as [Ht2 ->]. by split.
Qed.

(** *** SEND_INIT marks the telegram as repeated *)

Lemma to_byte_clear_flag (c0 : Z) :
  to_byte (Z.land c0 (Z.lnot SB_TEL_REPEAT_FLAG)) = Z.land c0 0xDF.
Proof.
  unfold to_byte. change 256 with (2 ^ 8). rewrite <- Z.land_ones by lia.
  by rewrite <- Z.land_assoc.
Qed.

Lemma case_SEND_INIT_marks (i : Input) (b : Bus) (a : nat) (buf : list Z)
    (c0 chk : Z) :
  capFlag i = false -> sendAck b = 0 -> sendTries b = 1 ->
  sendCurTelegram b = Some a -> mem b !! a = Some buf ->
  0 < telegramSize buf -> buf !! 0%nat = Some c0 ->
  buf !! Z.to_nat (telegramSize buf) = Some chk -> is_byte chk ->
  exists b',
    case_SEND_INIT i b = Ok (b', false)
    /\ sendTries b' = 2 /\ sendTelegramLen b' = telegramSize buf + 1
    /\ state b' = SEND_START_BIT /\ sendAck b' = 0
    /\ sendCurTelegram b' = Some a /\ sendNextTel b' = sendNextTel b
    /\ mem b' = <[a := <[Z.to_nat (telegramSize buf) := Z.lxor chk 0x20]>
                         (<[0%nat := Z.land c0 0xDF]> buf)]> (mem b).
Proof.
  intros Hcap Hack Ht Hc Hm Hn H0 Hchk Hb.
  assert (Hl0 : (0 < length buf)%nat) by by eapply lookup_lt_Some.
  assert (Hln : (Z.to_nat (telegramSize buf) < length buf)%nat)
    by by eapply lookup_lt_Some.
  unfold case_SEND_INIT. rewrite Hcap, Hack, Ht. simpl.
  rewrite Hc. unfold deref. rewrite Hm. simpl.
  rewrite (load_at buf 0 c0) by (lia || done). simpl. rewrite Ht. simpl.
  unfold mark_repeated. rewrite (load_at buf 0 c0) by (lia || done). simpl.
  rewrite (store_at buf 0) by lia. simpl. rewrite to_byte_clear_flag.
  rewrite Z.add_simpl_r.
  rewrite (load_at _ (telegramSize buf) chk);
    [|lia|rewrite list_lookup_insert_ne; [done|lia]].
  simpl. rewrite store_at by (rewrite length_insert; lia). simpl.
  rewrite to_byte_id by (apply is_byte_lxor; [done|unfold is_byte, SB_TEL_REPEAT_FLAG; lia]).
  rewrite Ht. eexists. split; [reflexivity|]. simpl. by repeat split.
Qed.

(** The handler in SEND_INIT, or in SEND_WAIT when the pause is over, with
    the retry counter at 1, no capture pending and no acknowledgement to
    send. *)
Lemma handler_marks (i : Input) (b : Bus) (a : nat) (buf : list Z)
    (c0 chk : Z) :
  capFlag i = false -> state b = SEND_INIT \/ state b = SEND_WAIT ->
  sendAck b = 0 -> sendTries b = 1 ->
  sendCurTelegram b = Some a -> mem b !! a = Some buf ->
  0 < telegramSize buf -> buf !! 0%nat = Some c0 ->
  buf !! Z.to_nat (telegramSize buf) = Some chk -> is_byte chk ->
  exists b',
    timerInterruptHandler i b = Ok b'
    /\ sendTries b' = 2 /\ sendTelegramLen b' = telegramSize buf + 1
    /\ mem b' = <[a := <[Z.to_nat (telegramSize buf) := Z.lxor chk 0x20]>
                         (<[0%nat := Z.land c0 0xDF]> buf)]> (mem b).
Proof.
  intros Hcap Hst Hack Ht Hc Hm Hn H0 Hchk Hb.
  unfold timerInterruptHandler. rewrite switch_passes_S.
  unfold state_switch at 1. destruct Hst as [Hst|Hst]; rewrite Hst.
  - destruct (case_SEND_INIT_marks i b a buf c0 chk)
      as (b' & -> & ? & ? & _ & _ & _ & _ & ?); try done.
    exists b'. by repeat split.
  - unfold case_SEND_WAIT. rewrite Hcap. cbn [andb].
    unfold mbind, result_bind. cbv beta iota.
    rewrite switch_passes_S. unfold state_switch at 1.
    destruct (case_SEND_INIT_marks i (b |> set_state SEND_INIT) a buf c0 chk)
      as (b' & Hb' & ? & ? & _ & _ & _ & _ & ?); try done.
    change (state (b |> set_state SEND_INIT)) with SEND_INIT.
    cbv beta iota. rewrite Hb'. exists b'. by repeat split.
Qed.

(** With a capture pending, the handler in SEND_INIT or SEND_WAIT leaves
    the retry counter as it is. *)
Lemma capture_keeps_tries (i : Input) (b b' : Bus) :
  capFlag i = true -> state b = SEND_INIT \/ state b = SEND_WAIT ->
  timerInterruptHandler i b = Ok b' -> sendTries b' = sendTries b.
Proof.
  intros Hcap Hst Hp.
  assert (Hinit : forall n b0 b1, state b0 = SEND_INIT ->
            switch_passes (S (S n)) i b0 = Ok b1 ->
            sendTries b1 = sendTries b0).
  { intros n b0 b1 Hs0 Hp0. rewrite switch_passes_S in Hp0.
    apply bind_Ok in Hp0 as ([b2 again] & H1 & Hp0).
    unfold state_switch in H1. rewrite Hs0 in H1.
    unfold case_SEND_INIT in H1. rewrite Hcap in H1.
    injection H1 as <- <-. rewrite switch_passes_S in Hp0.
    apply bind_Ok in Hp0 as ([b3 again] & H2 & Hp0).
    apply start_bit_pass in H2 as (-> & _ & (_ & _ & Hk & _) & _);
      [|done|by left].
    by injection Hp0 as <-. }
  unfold timerInterruptHandler in Hp. destruct Hst as [Hst|Hst].
  - by apply (Hinit 1%nat b b').
  - rewrite switch_passes_S in Hp.
    apply bind_Ok in Hp as ([b1 again] & H1 & Hp).
    unfold state_switch in H1. rewrite Hst in H1.
    unfold case_SEND_WAIT in H1. destruct (_ && _).
    + injection H1 as <- <-. by injection Hp as <-.
    + injection H1 as <- <-. by apply (Hinit 0%nat) in Hp.
Qed.

(** One step during which [a] stays the current telegram and the retry
    counter was below 2: the buffer stays as it is and the retry counter
    below 2, or the step is the marking in SEND_INIT. *)
Lemma step_unmarked (s s' : Sys) (a : nat) (buf : list Z) (c0 chk : Z) :
  queue_inv s -> step s s' ->
  sendCurTelegram (bus s) = Some a -> sendCurTelegram (bus s') = Some a ->
  mem (bus s) !! a = Some buf -> sendTries (bus s) <= 1 ->
  0 < telegramSize buf -> buf !! 0%nat = Some c0 ->
  buf !! Z.to_nat (telegramSize buf) = Some chk -> is_byte chk ->
  (sendTries (bus s') <= 1 /\ mem (bus s') !! a = Some buf)
  \/ (sendTries (bus s) = 1 /\ sendTries (bus s') = 2
      /\ mem (bus s') !! a
         = Some (<[Z.to_nat (telegramSize buf) := Z.lxor chk 0x20]>
                   (<[0%nat := Z.land c0 0xDF]> buf))).
Proof.
  intros Hinv [e He] Hca Hca' Hbuf Ht1 Hn H0 Hchk Hb.
  destruct s as [b f]. pose proof Hinv as (I1 & I2 & I3 & I4 & I5 & I6 & I7).
  simpl in *. destruct e as [i| |q len|q tel]; simpl in He.
  - apply bind_Ok in He as (b' & Hi & He). injection He as <-. simpl in *.
    pose proof (timerInterruptHandler_effect i b b' Hi) as Heff.
    specialize (I6 a Hca).
    destruct Heff as [Heq Hor|Hk Hs Hns|Hs Hs' Hq|Hst' Ha Ha' Hs Hk
                     |b2 Hst' Ha Ha' Hs Hg Hc Hm|b2 Hst' Ha Hs Hg Hc Hk
                     |Hsend Hne Hk Ha Hs|Hs Hs' Ha Hc Hnx Hm Ht].
    + subst b'. by left.
    + destruct Hk as (_ & _ & Ht & Hm). rewrite Ht, Hm. by left.
    + destruct Hq as [(_ & _ & Ht & Hm)|(a' & buf' & _ & _ & _ & Hc & _)].
      * rewrite Ht, Hm. by left.
      * congruence.
    + destruct Hk as (_ & _ & Ht & Hm). rewrite Ht, Hm. by left.
    + destruct Hg as [(_ & Hc2 & Hn2 & Ht2 & Hm2)|(Hgt & _)]; [|lia].
      destruct Hm as [(_ & _ & _ & Ht' & Hm')|(Hb1 & Hb2 & _)].
      * rewrite Ht', Ht2, Hm', Hm2. by left.
      * right. rewrite Ht2 in Hb1. split; [done|]. split; [done|].
        destruct (capFlag i) eqn:Hcap.
        { pose proof (capture_keeps_tries i b b' Hcap Hst' Hi). lia. }
        destruct (handler_marks i b a buf c0 chk)
          as (b'' & Hi' & _ & _ & Hm''); try done.
        rewrite Hi in Hi'. injection Hi' as <-.
        by rewrite Hm'', lookup_insert_eq.
    + destruct Hk as (Hc' & _). congruence.
    + destruct Hk as (_ & _ & Ht & Hm). rewrite Ht, Hm. by left.
    + rewrite Ht, Hm. left. split; [|done].
      destruct (Z.eqb_spec (sendAck b) 0) as [Ha0|Ha0]; [|done].
      destruct I2 as (_ & _ & H1); [unfold sending; tauto|done|]. lia.
  - apply bind_Ok in He as ([f' b'] & Hf & He). injection He as <-.
    simpl in *. left.
    destruct f as [|p len|p|p|p|p|p|]; simpl in Hf.
    + by injection Hf as <- <-.
    + apply bind_Ok in Hf as ([a' tel] & Hd & Hf).
      apply bind_Ok in Hf as (tel' & _ & Hf). injection Hf as <- <-.
      unfold deref in Hd. destruct (mem b !! p); [|discriminate].
      injection Hd as <- <-. simpl. split; [done|].
      destruct (I7 p eq_refl) as [Hp _].
      rewrite lookup_insert_ne; [done|congruence].
    + by destruct (bool_decide _); injection Hf as <- <-.
    + by destruct (bool_decide _); injection Hf as <- <-.
    + specialize (I5 p eq_refl). congruence.
    + destruct (bool_decide _); [|discriminate]. by injection Hf as <- <-.
    + by injection Hf as <- <-.
    + injection Hf as <- <-. unfold kick_start in *.
      destruct (bool_decide (state b = IDLE)); simpl in *; [|done].
      split; [lia|done].
  - destruct (bool_decide _ && _); [|discriminate]. injection He as <-.
    by left.
  - destruct (bool_decide_reflect (f = FgIdle)) as [->|]; [|discriminate].
    unfold owned in He.
    destruct (bool_decide_reflect (sendCurTelegram b <> Some q));
      [|discriminate].
    destruct (bool_decide _); [|discriminate]. injection He as <-. simpl.
    left. split; [done|]. rewrite lookup_insert_ne; [done|congruence].
Qed.

(** Over a run from the retry counter at 0 during which [a] stays the
    current telegram: its buffer is the original one while the retry counter
    is below 2, and the original one marked as repeated from then on. *)
Lemma run_current_buffer (a : nat) (s0 s : Sys) (n : nat) (buf : list Z)
    (c0 chk : Z) :
  queue_inv s0 -> run_current a s0 n s ->
  sendTries (bus s0) = 0 -> mem (bus s0) !! a = Some buf ->
  0 < telegramSize buf -> buf !! 0%nat = Some c0 ->
  buf !! Z.to_nat (telegramSize buf) = Some chk -> is_byte chk ->
  (sendTries (bus s) <= 1 -> mem (bus s) !! a = Some buf)
  /\ (2 <= sendTries (bus s) ->
      mem (bus s) !! a
      = Some (<[Z.to_nat (telegramSize buf) := Z.lxor chk 0x20]>
                (<[0%nat := Z.land c0 0xDF]> buf))).
Proof.
  intros Hinv Hrun Ht0 Hbuf Hn H0 Hchk Hb.
  induction Hrun as [s Hc|s s1 s2 n Hrun IH Hstep Hc].
  - split; [done|lia].
  - destruct (IH Hinv Ht0 Hbuf) as [IH1 IH2].
    destruct (run_current_inv a s s1 n Hinv Hrun) as (Hinv1 & _ & Hc1 & _).
    destruct (Z.le_gt_cases (sendTries (bus s1)) 1) as [Hle|Hgt].
    + destruct (step_unmarked s1 s2 a buf c0 chk Hinv1 Hstep Hc1 Hc
                  (IH1 Hle) Hle Hn H0 Hchk Hb)
        as [[Ht Hm]|(_ & Ht & Hm)].
      * split; [done|lia].
      * split; [lia|done].
    + destruct (step_current s1 s2 a Hinv1 Hstep Hc1 Hc) as [_ Hk].
      destruct Hk as [Ht Hm]; [lia|]. split; [lia|].
      intros _. rewrite Hm. apply IH2. lia.
Qed.

Lemma run_current_reachable (a : nat) (s s' : Sys) (n : nat) :
  reachable s -> run_current a s n s' -> reachable s'.
Proof.
  intros Hr. induction 1 as [s|s s1 s2 n Hrun IH Hstep _]; [done|].
  apply (reachable_step s1); [by apply IH|done].
Qed.

(** C3: take a telegram that is the current one with the retry counter at
    0, and any run from there during which it stays the current one,
    whatever interrupts, collisions, entries to SEND_INIT and calls of
    [sendTelegram] occur.  While the retry counter is below 2, the buffer is
    the original one.  When the handler then prepares the retransmission in
    SEND_INIT with the retry counter at 1 (no capture pending, no
    acknowledgement to send), it clears bit 5 of octet 0 of the original,
    XORs 0x20 into its checksum octet at index [sendTelegramLen - 1] and
    sets the retry counter to 2.  From then on, as long as the telegram
    stays the current one, the retry counter stays at 2 or above and the
    buffer is the original with this one inversion: the inversion is not
    made again. *)
Theorem repeat_flag_inverted_once (s0 s : Sys) (n : nat) (i : Input)
    (a : nat) (buf : list Z) (c0 chk : Z) :
  reachable s0 -> sendCurTelegram (bus s0) = Some a ->
  sendTries (bus s0) = 0 -> mem (bus s0) !! a = Some buf ->
  0 < telegramSize buf -> buf !! 0%nat = Some c0 ->
  buf !! Z.to_nat (telegramSize buf) = Some chk -> is_byte chk ->
  run_current a s0 n s ->
  (sendTries (bus s) <= 1 -> mem (bus s) !! a = Some buf)
  /\ (2 <= sendTries (bus s) ->
      mem (bus s) !! a
      = Some (<[Z.to_nat (telegramSize buf) := Z.lxor chk 0x20]>
                (<[0%nat := Z.land c0 0xDF]> buf))
      /\ forall n' s', run_current a s n' s' -> 2 <= sendTries (bus s'))
  /\ (capFlag i = false ->
      state (bus s) = SEND_INIT \/ state (bus s) = SEND_WAIT ->
      sendAck (bus s) = 0 -> sendTries (bus s) = 1 ->
      exists b',
        timerInterruptHandler i (bus s) = Ok b'
        /\ sendTries b' = 2 /\ sendTelegramLen b' = telegramSize buf + 1
        /\ mem b' !! a
           = Some (<[Z.to_nat (sendTelegramLen b' - 1) := Z.lxor chk 0x20]>
                     (<[0%nat := Z.land c0 0xDF]> buf))
        /\ forall n' s', run_current a (mkSys b' (fg s)) n' s' ->
             mem (bus s') !! a = mem b' !! a /\ 2 <= sendTries (bus s')).
Proof.
  intros Hr Hc0 Ht0 Hbuf Hn H0 Hchk Hb Hrun.
  pose proof (reachable_queue_inv s0 Hr) as Hinv0.
  destruct (run_current_buffer a s0 s n buf c0 chk Hinv0 Hrun Ht0 Hbuf
              Hn H0 Hchk Hb) as [B1 B2].
  destruct (run_current_inv a s0 s n Hinv0 Hrun) as (Hinv & _ & Hc & _).
  pose proof (run_current_reachable a s0 s n Hr Hrun) as Hrs.
  split; [done|]. split.
  { intros Ht. split; [by apply B2|]. intros n' s' Hrun'.
    destruct (run_current_inv a s s' n' Hinv Hrun') as (_ & _ & _ & _ & Hk).
    by destruct (Hk Ht). }
  intros Hcap Hst Hack Ht.
  destruct (handler_marks i (bus s) a buf c0 chk)
    as (b' & Hi & Ht' & Hlen & Hm'); try done; [apply B1; lia|].
  exists b'. split; [done|]. split; [done|]. split; [done|].
  split. { rewrite Hm', lookup_insert_eq, Hlen, Z.add_simpl_r. done. }
  intros n' s' Hrun'.
  assert (Hinv' : queue_inv (mkSys b' (fg s))).
  { apply reachable_queue_inv. apply (reachable_step s); [done|].
    exists (Interrupt i). simpl. by rewrite Hi. }
  destruct (run_current_inv a _ _ n' Hinv' Hrun') as (_ & _ & _ & _ & Hk).
  simpl in Hk. destruct Hk as [? ?]; [lia|]. by split.
Qed.

(** *** SEND_INIT gives up the telegram *)

Lemma case_SEND_INIT_gives_up (i : Input) (b : Bus) (a : nat) (buf : list Z) :
  capFlag i = false -> sendAck b = 0 -> 3 < sendTries b ->
  sendCurTelegram b = Some a -> mem b !! a = Some buf ->
  (0 < length buf)%nat ->
  (forall q, sendNextTel b = Some q -> q <> a /\ allocated b q) ->
  exists b',
    case_SEND_INIT i b = Ok (b', false)
    /\ mem b' !! a = Some (<[0%nat := 0]> buf)
    /\ sendCurTelegram b' = sendNextTel b /\ sendNextTel b' = None
    /\ sendTries b' = 0.
Proof.
  intros Hcap Hack Ht Hc Hm Hl Hnext.
  unfold case_SEND_INIT. rewrite Hcap, Hack.
  destruct (Z.ltb_spec 3 (sendTries b)); [|lia].
  rewrite (sendNextTelegram_ok b a buf) by done. simpl.
  destruct (sendNextTel b) as [q|] eqn:Hq.
  - destruct (Hnext q eq_refl) as (Hne & bufq & Hbq & Hlq).
    unfold deref. simpl. rewrite lookup_insert_ne by done. rewrite Hbq. simpl.
    destruct (lookup_lt_is_Some_2 bufq 0 Hlq) as [x Hx].
    rewrite (load_at bufq 0 x) by (lia || done). simpl.
    eexists. split; [reflexivity|]. simpl.
    by rewrite lookup_insert_eq.
  - eexists. split; [reflexivity|]. simpl. by rewrite lookup_insert_eq.
Qed.

(** C4, as the code has it: while a telegram that became the current one
    with the retry counter at 0 stays the current one, at most 3
    transmissions of it are completed, whatever interrupts and calls occur:
    the retry counter is incremented at SEND_END of each transmission that
    is not an acknowledgement, and once more when SEND_INIT marks the
    telegram as repeated.  After the third transmission the retry counter is
    4, and the handler, when it comes to SEND_INIT with no capture pending
    and no acknowledgement to send, releases the slot: octet 0 of the
    telegram is set to 0, the second slot moves to the first and the retry
    counter is 0. *)
Theorem retry_bound (s s' : Sys) (a n : nat) :
  reachable s -> sendCurTelegram (bus s) = Some a -> sendTries (bus s) = 0 ->
  run_current a s n s' ->
  (n <= 3)%nat
  /\ n = attempts_of (sendTries (bus s'))
  /\ (n = 3%nat ->
      sendTries (bus s') = 4
      /\ forall i, capFlag i = false ->
           state (bus s') = SEND_INIT \/ state (bus s') = SEND_WAIT ->
           sendAck (bus s') = 0 ->
           exists b' buf,
             timerInterruptHandler i (bus s') = Ok b'
             /\ mem (bus s') !! a = Some buf
             /\ mem b' !! a = Some (<[0%nat := 0]> buf)
             /\ sendCurTelegram b' = sendNextTel (bus s')
             /\ sendNextTel b' = None /\ sendTries b' = 0).
Proof.
  intros Hr Hc Ht Hrun.
  pose proof (reachable_queue_inv s Hr) as Hinv.
  destruct (run_current_inv a s s' n Hinv Hrun) as (Hinv' & _ & Hc' & Hn & _).
  rewrite Ht in Hn. change (attempts_of 0) with 0%nat in Hn.
  assert (Hr' : reachable s').
  { clear Hn Hc' Hinv'. induction Hrun as [s|s s1 s2 n Hrun IH Hstep _];
      [done|]. apply (reachable_step s1); [by apply IH|done]. }
  pose proof (reachable_buffers_inv s' Hr') as Hbuf.
  destruct Hinv' as (_ & _ & _ & Ht4 & _ & I6 & _).
  assert (Hn3 : (n <= 3)%nat /\ (n = 3%nat -> sendTries (bus s') = 4)).
  { unfold attempts_of in Hn.
    destruct (Z.leb_spec (sendTries (bus s')) 1); lia. }
  destruct Hn3 as [Hle H4]. split; [done|]. split; [lia|].
  intros H3. split; [by apply H4|]. intros i Hcap Hst Hack.
  destruct (Hbuf a) as (buf & Hm & Hl); [by left|].
  assert (Hnext : forall q, sendNextTel (bus s') = Some q ->
                            q <> a /\ allocated (bus s') q).
  { intros q Hq. split; [|apply Hbuf; auto].
    intros ->. by apply (I6 a Hc'). }
  unfold timerInterruptHandler. rewrite switch_passes_S.
  unfold state_switch at 1. destruct Hst as [Hst|Hst]; rewrite Hst.
  - destruct (case_SEND_INIT_gives_up i (bus s') a buf)
      as (b' & -> & ? & ? & ? & ?); try done; [rewrite H4; [lia|done]|].
    exists b', buf. by repeat split.
  - unfold case_SEND_WAIT. rewrite Hcap. cbn [andb].
    unfold mbind, result_bind. cbv beta iota.
    rewrite switch_passes_S. unfold state_switch at 1.
    destruct (case_SEND_INIT_gives_up i (bus s' |> set_state SEND_INIT) a buf)
      as (b' & Hb' & ? & ? & ? & ?); try done;
      [simpl; rewrite H4; [lia|done]|].
    change (state (bus s' |> set_state SEND_INIT)) with SEND_INIT.
    cbv beta iota. rewrite Hb'. exists b', buf. by repeat split.
Qed.

End BusRetry.

(** ** The order of the send queue *)

Section BusOrder.

Context `{Extern}.


Lemma run_current_cons (a : nat) (s s1 s' : Sys) (n : nat) :
  sendCurTelegram (bus s) = Some a -> step s s1 ->
  run_current a s1 n s' ->
  run_current a s (attempt_end s s1 + n) s'.
Proof.
  intros Hc Hstep. induction 1 as [s1 Hc1|s1 s2 s3 n Hrun IH Hstep' Hc3].
  - replace (attempt_end s s1 + 0)%nat with (0 + attempt_end s s1)%nat by lia.
    apply (run_current_step a s s s1); [by apply run_current_nil|done..].
  - rewrite Nat.add_assoc. apply (run_current_step a s s2 s3); auto.
Qed.

Lemma run_current_app (a : nat) (s s1 s2 : Sys) (n m : nat) :
  run_current a s n s1 -> run_current a s1 m s2 ->
  run_current a s (n + m) s2.
Proof.
  intros Hrun. induction 1 as [s1 Hc1|s1 s2 s3 m Hrun' IH Hstep Hc3].
  - by rewrite Nat.add_0_r.
  - rewrite Nat.add_assoc. apply (run_current_step a s s2 s3); auto.
Qed.

Lemma quiet_run_current (a n : nat) (s s' : Sys) (k : nat) :
  sendCurTelegram (bus s) = Some a -> quiet_current a n s = true ->
  run_quiet n s = Ok (k, s') -> run_current a s k s'.
Proof.
  revert s k. induction n as [|n IH]; intros s k Hc Hq Hrun; simpl in *.
  - injection Hrun as <- <-. by apply run_current_nil.
  - destruct (timerInterruptHandler _ _ ≫= _) as [s1|] eqn:He;
      [|discriminate]. simpl in Hrun.
    apply andb_true_iff in Hq as [Hc1 Hq]. apply bool_decide_eq_true in Hc1.
    destruct (run_quiet n s1) as [[k' s2]|] eqn:Hr; [|discriminate].
    simpl in Hrun. injection Hrun as <- <-.
    apply (run_current_cons a s s1); [done| |by apply IH].
    by exists (Interrupt (quiet_bus (bus s))).
Qed.

End BusOrder.

(** ** A byte from the sender to the receiver *)

Section BusLineFacts.

Context `{Extern}.

Lemma case_SEND_BIT_scan (b : Bus) :
  let '(mask, time) := send_scan 10 (currentByte b) (bitMask b) BIT_TIME in
  currentByte (case_SEND_BIT b) = currentByte b
  /\ bitMask (case_SEND_BIT b) = Z.shiftl mask 1
  /\ if 0x200 <? Z.shiftl mask 1
     then state (case_SEND_BIT b) = SEND_BIT_0
          \/ state (case_SEND_BIT b) = SEND_END
     else (state (case_SEND_BIT b) = SEND_BIT
           \/ state (case_SEND_BIT b) = SEND_BIT_WAIT)
          /\ match_pwm (case_SEND_BIT b) = time - BIT_PULSE_TIME
          /\ match_time (case_SEND_BIT b) = time.
Proof.
  unfold case_SEND_BIT. destruct (send_scan _ _ _ _) as [mask time]. simpl.
  destruct (0x200 <? Z.shiftl mask 1).
  - destruct (_ && _); simpl; auto.
  - destruct (time <=? BIT_TIME); simpl; auto.
Qed.

Lemma pulse_train_scan (n : nat) (b : Bus) (r : Z) :
  pulse_train n (case_SEND_BIT b) r
  = scan_train n (currentByte b) (bitMask b) r.
Proof.
  revert b r. induction n as [|n IH]; intros b r; [reflexivity|].
  cbn [pulse_train scan_train].
  pose proof (case_SEND_BIT_scan b) as Hs.
  destruct (send_scan _ _ _ _) as [mask time].
  destruct Hs as (Hcb & Hbm & Hst).
  destruct (0x200 <? Z.shiftl mask 1).
  - rewrite bool_decide_eq_false_2; [done|].
    intros [?|?]; destruct Hst; congruence.
  - destruct Hst as (Hst & Hpwm & Htime).
    rewrite bool_decide_eq_true_2 by done.
    by rewrite Hpwm, Htime, IH, Hcb, Hbm.
Qed.

Lemma recv_bits_acc (t : Z) (b : Bus) :
  recv_bits t b = set_acc (recv_event t (acc_of b)) b.
Proof.
  unfold recv_bits, recv_event, acc_of.
  destruct (t >=? bitTime b + BIT_WAIT_TIME).
  - by destruct (recv_loop _ _ _) as [[[cb par] bt] bm].
  - by destruct b.
Qed.

Lemma acc_of_set_acc (acc : Z * Z * Z * Z) (b : Bus) :
  acc_of (set_acc acc b) = acc.
Proof. by destruct acc as [[[cb par] bt] bm]. Qed.

Lemma set_acc_set_acc (acc acc' : Z * Z * Z * Z) (b : Bus) :
  set_acc acc (set_acc acc' b) = set_acc acc b.
Proof.
  by destruct acc as [[[cb par] bt] bm], acc' as [[[cb' par'] bt'] bm'].
Qed.

Lemma recv_bits_all (ts : list Z) (b : Bus) :
  foldl (fun b t => recv_bits t b) b ts
  = set_acc (foldl (fun acc t => recv_event t acc) (acc_of b) ts) b.
Proof.
  revert b. induction ts as [|t ts IH]; intros b; simpl.
  - by destruct b.
  - by rewrite IH, recv_bits_acc, acc_of_set_acc, set_acc_set_acc.
Qed.

Lemma round_trip_all_bytes (x : Z) : is_byte x -> round_trip x = true.
Proof.
  intros [Hx Hx'].
  assert (Hall : forallb (fun n => round_trip (Z.of_nat n)) (seq 0 256) = true)
    by (vm_compute; reflexivity).
  rewrite forallb_forall in Hall.
  rewrite <- (Z2Nat.id x Hx). apply Hall, in_seq. lia.
Qed.

(** In RECV_BYTE the handler takes an edge as a pulse of the byte. *)
Lemma RECV_BYTE_edges (ts : list Z) (b : Bus) :
  state b = RECV_BYTE ->
  handle_all (map edge_event ts) b
  = Ok (foldl (fun b t => recv_bits t b) b ts).
Proof.
  revert b. induction ts as [|t ts IH]; intros b Hst; [reflexivity|].
  cbn [map handle_all foldl].
  assert (Hi : timerInterruptHandler (edge_event t) b = Ok (recv_bits t b)).
  { unfold timerInterruptHandler. rewrite switch_passes_S.
    unfold state_switch. by rewrite Hst. }
  rewrite Hi. cbn [mbind result_bind]. apply IH.
  destruct (recv_bits_keeps t b) as (_ & Hs & _). congruence.
Qed.

Lemma handle_all_cons (i : Input) (ins : list Input) (b : Bus) :
  handle_all (i :: ins) b = timerInterruptHandler i b ≫= handle_all ins.
Proof. reflexivity. Qed.

Lemma Ok_bind {A B : Type} (a : A) (f : A -> result B) : Ok a ≫= f = f a.
Proof. reflexivity. Qed.

Lemma handle_all_app (ins1 ins2 : list Input) (b : Bus) :
  handle_all (ins1 ++ ins2) b = handle_all ins1 b ≫= handle_all ins2.
Proof.
  revert b. induction ins1 as [|i ins1 IH]; intros b; [reflexivity|].
  cbn [app handle_all]. destruct (timerInterruptHandler i b); [apply IH|done].
Qed.

Lemma case_SEND_BIT_0_loaded (b : Bus) (x : Z) :
  next_octet b x ->
  exists b0,
    case_SEND_BIT_0 b
    = Ok (case_SEND_BIT (b0 |> set_currentByte (with_parity x) |> set_bitMask 1)).
Proof.
  intros Hload. unfold case_SEND_BIT_0, with_parity.
  destruct Hload as [[Hack ->]|(Hack & Hi & a & buf & Hc & Hm & Hb)].
  - destruct (Z.eqb_spec (sendAck b) 0) as [|_]; [done|].
    cbn [negb mbind result_bind set_currentByte currentByte].
    destruct (parity_loop 9 1 (sendAck b)) as [mask cb]. by eexists.
  - rewrite Hack. unfold deref. rewrite Hc, Hm.
    cbn [negb Z.eqb mbind result_bind]. rewrite (load_at _ _ x Hi Hb).
    cbn [mbind result_bind set_currentByte set_nextByteIndex currentByte].
    destruct (parity_loop 9 1 x) as [mask cb]. by eexists.
Qed.

Lemma to_byte_with_parity (x : Z) : is_byte x -> to_byte (with_parity x) = x.
Proof.
  intros Hx. destruct (parity_loop_byte x Hx) as (mask & cb & Hl & Hlow & _).
  unfold with_parity. rewrite Hl. cbn [snd]. unfold to_byte.
  change 256 with (2 ^ 8). rewrite <- Z.land_ones by lia. exact Hlow.
Qed.

(** The timeout at the end of a byte in RECV_BYTE. *)
Lemma RECV_BYTE_timeout (b : Bus) (cb par bt bm : Z) :
  state b = RECV_BYTE -> recv_event BYTE_TIME (acc_of b) = (cb, par, bt, bm) ->
  0 <= nextByteIndex b < SB_TELEGRAM_SIZE ->
  nextByteIndex b < Z.of_nat (length (telegram b)) ->
  timerInterruptHandler timeout_event b
  = Ok (b |> set_currentByte cb |> set_parity par |> set_bitTime bt
          |> set_bitMask bm |> set_valid (Z.land (valid b) par)
          |> set_telegram (<[Z.to_nat (nextByteIndex b) := to_byte cb]> (telegram b))
          |> set_nextByteIndex (nextByteIndex b + 1)
          |> set_checksum (Z.lxor (checksum b) cb)
          |> set_state RECV_START |> set_match_time (BIT_TIME * 4)).
Proof.
  intros Hst Hacc Hidx Hlen. unfold timerInterruptHandler.
  rewrite switch_passes_S. unfold state_switch. rewrite Hst.
  unfold case_RECV_BYTE. cbn [timeFlag timeout_event].
  rewrite recv_bits_acc, Hacc. cbn [set_acc]. simpl.
  destruct (Z.ltb_spec (nextByteIndex b) SB_TELEGRAM_SIZE); [|lia].
  rewrite store_at by lia. reflexivity.
Qed.

(** What the receiver makes of the events of one octet. *)
Lemma octet_received (x : Z) (br : Bus) :
  is_byte x -> state br = RECV_START ->
  0 <= nextByteIndex br < SB_TELEGRAM_SIZE ->
  nextByteIndex br < Z.of_nat (length (telegram br)) ->
  exists br',
    handle_all (octet_events x) br = Ok br'
    /\ state br' = RECV_START
    /\ telegram br' = <[Z.to_nat (nextByteIndex br) := x]> (telegram br)
    /\ nextByteIndex br' = nextByteIndex br + 1
    /\ valid br' = Z.land (valid br) 1
    /\ checksum br' = Z.lxor (checksum br) (with_parity x)
    /\ telegramLen br' = telegramLen br /\ sendAck br' = sendAck br
    /\ collision br' = collision br /\ keeps_send br br'
    /\ status br' = status br /\ ownAddr br' = ownAddr br.
Proof.
  intros Hx Hst Hidx Hlen. unfold octet_events.
  set (pulses := scan_train 10 (with_parity x) 1 BIT_PULSE_TIME).
  pose proof (round_trip_all_bytes x Hx) as Hrt. unfold round_trip in Hrt.
  fold pulses in Hrt.
  set (br1 := br |> set_match_time BYTE_TIME |> set_time_interrupt true
                 |> set_state RECV_BYTE |> set_currentByte 0 |> set_bitTime 0
                 |> set_bitMask 1 |> set_parity 1).
  assert (H1 : timerInterruptHandler (edge_event 0) br = Ok br1).
  { unfold timerInterruptHandler. rewrite switch_passes_S.
    unfold state_switch. by rewrite Hst. }
  unfold byte_events. rewrite handle_all_cons, H1, Ok_bind.
  rewrite handle_all_app, (RECV_BYTE_edges pulses br1), Ok_bind by done.
  rewrite handle_all_cons, recv_bits_all.
  change (acc_of br1) with (0, 1, 0, 1).
  set (acc := foldl _ _ pulses) in *. clearbody acc. clear pulses.
  destruct (recv_event BYTE_TIME acc) as [[[cb par] bt] bm] eqn:Hacc.
  apply andb_true_iff in Hrt as [Hcb Hpar].
  apply Z.eqb_eq in Hcb, Hpar. subst cb par.
  assert (Hf : state (set_acc acc br1) = RECV_BYTE
               /\ nextByteIndex (set_acc acc br1) = nextByteIndex br
               /\ telegram (set_acc acc br1) = telegram br)
    by by destruct acc as [[[??]?]?].
  destruct Hf as (Hst2 & Hn2 & Ht2).
  rewrite (RECV_BYTE_timeout (set_acc acc br1) (with_parity x) 1 bt bm);
    [|done|by rewrite acc_of_set_acc|by rewrite Hn2|by rewrite Hn2, Ht2].
  rewrite Ok_bind. eexists. split; [reflexivity|].
  rewrite Hn2, Ht2, to_byte_with_parity by done.
  destruct acc as [[[??]?]?]. cbn. by repeat split.
Qed.

(** X1: the bytes that the sender emits the receiver receives: for every
    octet [x] that SEND_BIT_0 loads, the pulses that the sender emits for it
    by its PWM matches, captured by a receiver that waits for a start bit in
    RECV_START with room in its buffer, make the receiver store [x] at
    [nextByteIndex], keep [valid], XOR the byte with its parity bit into
    [checksum], and wait for the next start bit; the send queue of the
    receiver stays as it is. *)
Theorem byte_round_trip (x : Z) (bs br : Bus) :
  is_byte x -> next_octet bs x -> state br = RECV_START ->
  0 <= nextByteIndex br < SB_TELEGRAM_SIZE ->
  nextByteIndex br < Z.of_nat (length (telegram br)) ->
  exists bs' br',
    case_SEND_BIT_0 bs = Ok bs'
    /\ handle_all (byte_events (pulse_train 10 bs' BIT_PULSE_TIME)) br = Ok br'
    /\ state br' = RECV_START
    /\ telegram br' = <[Z.to_nat (nextByteIndex br) := x]> (telegram br)
    /\ nextByteIndex br' = nextByteIndex br + 1
    /\ valid br' = Z.land (valid br) 1
    /\ checksum br' = Z.lxor (checksum br) (with_parity x)
    /\ telegramLen br' = telegramLen br /\ sendAck br' = sendAck br
    /\ collision br' = collision br /\ keeps_send br br'.
Proof.
  intros Hx Hload Hst Hidx Hlen.
  destruct (case_SEND_BIT_0_loaded bs x Hload) as [b0 Hs].
  exists (case_SEND_BIT (b0 |> set_currentByte (with_parity x) |> set_bitMask 1)).
  rewrite pulse_train_scan.
  cbn [currentByte bitMask set_bitMask set_currentByte].
  destruct (octet_received x br Hx Hst Hidx Hlen)
    as (br' & Hr & R1 & R2 & R3 & R4 & R5 & R6 & R7 & R8 & R9 & _).
  unfold octet_events in Hr.
  exists br'. split; [exact Hs|]. by split_and!.
Qed.

(** ** A telegram from the line to the application *)

Lemma with_parity_lxor (x y : Z) :
  is_byte x -> is_byte y ->
  Z.lxor (with_parity x) (with_parity y) = with_parity (Z.lxor x y).
Proof.
  intros [Hx Hx'] [Hy Hy'].
  assert (Hall : forallb (fun n => forallb (fun m =>
            Z.lxor (with_parity (Z.of_nat n)) (with_parity (Z.of_nat m))
            =? with_parity (Z.lxor (Z.of_nat n) (Z.of_nat m)))
            (seq 0 256)) (seq 0 256) = true)
    by (vm_compute; reflexivity).
  rewrite forallb_forall in Hall.
  specialize (Hall (Z.to_nat x)). rewrite forallb_forall in Hall.
  rewrite <- (Z2Nat.id x Hx), <- (Z2Nat.id y Hy).
  apply Z.eqb_eq, Hall; apply in_seq; lia.
Qed.

Lemma with_parity_xor_octets (l : list Z) :
  Forall is_byte l ->
  foldr Z.lxor 0 (map with_parity l) = with_parity (foldr Z.lxor 0 l).
Proof.
  induction 1 as [|x l Hx Hl IH]; [by vm_compute|].
  cbn [map foldr]. rewrite IH. apply with_parity_lxor; [done|].
  clear IH. induction Hl; cbn [foldr]; [unfold is_byte; lia|].
  by apply is_byte_lxor.
Qed.

(** What the receiver makes of the events of a run of octets. *)
Lemma octets_received (l : list Z) (br : Bus) :
  Forall is_byte l -> state br = RECV_START -> 0 <= nextByteIndex br ->
  nextByteIndex br + Z.of_nat (length l) <= SB_TELEGRAM_SIZE ->
  nextByteIndex br + Z.of_nat (length l) <= Z.of_nat (length (telegram br)) ->
  exists br',
    handle_all (flat_map octet_events l) br = Ok br'
    /\ state br' = RECV_START
    /\ telegram br'
       = take (Z.to_nat (nextByteIndex br)) (telegram br) ++ l
         ++ drop (Z.to_nat (nextByteIndex br) + length l) (telegram br)
    /\ nextByteIndex br' = nextByteIndex br + Z.of_nat (length l)
    /\ valid br' = (if l is [] then valid br else Z.land (valid br) 1)
    /\ checksum br'
       = Z.lxor (checksum br) (foldr Z.lxor 0 (map with_parity l))
    /\ telegramLen br' = telegramLen br /\ sendAck br' = sendAck br
    /\ collision br' = collision br /\ keeps_send br br'
    /\ status br' = status br /\ ownAddr br' = ownAddr br.
Proof.
  intros Hl. revert br. induction Hl as [|x l Hx Hl IH]; intros br Hst H0 Hs Hlen.
  - exists br. cbn [flat_map handle_all length map foldr].
    rewrite Nat.add_0_r, Z.add_0_r, Z.lxor_0_r.
    rewrite app_nil_l, take_drop. by repeat split.
  - cbn [length] in Hs, Hlen. cbn [flat_map]. rewrite handle_all_app.
    destruct (octet_received x br Hx Hst) as
      (b1 & Hr & R1 & R2 & R3 & R4 & R5 & R6 & R7 & R8 & R9 & R10 & R11);
      [lia|lia|].
    rewrite Hr, Ok_bind.
    destruct (IH b1 R1) as
      (b2 & Hr2 & S1 & S2 & S3 & S4 & S5 & S6 & S7 & S8 & S9 & S10 & S11).
    { lia. } { lia. } { rewrite R2, length_insert. lia. }
    exists b2. split; [exact Hr2|]. split; [done|]. split.
    { rewrite S2, R2, R3.
      set (n := Z.to_nat (nextByteIndex br)).
      replace (Z.to_nat (nextByteIndex br + 1)) with (S n) by lia.
      assert (Hn : (n < length (telegram br))%nat) by lia.
      destruct (lookup_lt_is_Some_2 (telegram br) n Hn) as [y Hy].
      rewrite (take_S_r _ _ x) by (apply list_lookup_insert_eq; lia).
      rewrite take_insert_ge by lia.
      rewrite drop_insert_lt by lia.
      cbn [length]. rewrite <- app_assoc. cbn [app].
      by replace (S n + length l)%nat with (n + S (length l))%nat by lia. }
    split; [cbn [length]; lia|]. split.
    { rewrite S4, R4. destruct l; [done|].
      rewrite <- Z.land_assoc. by rewrite Z.land_diag. }
    split.
    { rewrite S5, R5. cbn [map foldr]. by rewrite Z.lxor_assoc. }
    split; [congruence|]. split; [congruence|]. split; [congruence|].
    split.
    { destruct R9 as (?&?&?&?), S9 as (?&?&?&?).
      repeat split; congruence. }
    split; congruence.
Qed.

(** [handleTelegram] on a valid telegram that was received without a
    collision. *)
Lemma handleTelegram_valid (b : Bus) (t3 t4 t5 : Z) :
  collision b = false -> 8 <= nextByteIndex b ->
  telegram b !! 3%nat = Some t3 -> telegram b !! 4%nat = Some t4 ->
  telegram b !! 5%nat = Some t5 ->
  exists b',
    handleTelegram true b = Ok b'
    /\ state b' = SEND_INIT /\ telegram b' = telegram b /\ keeps_send b b'
    /\ (Z.land (status b) BCU_STATUS_TL = 0 ->
        telegramLen b' = nextByteIndex b /\ sendAck b' = 0)
    /\ (Z.land (status b) BCU_STATUS_TL <> 0 ->
        addressed_to_us (ownAddr b) t3 t4 t5 ->
        telegramLen b' = nextByteIndex b /\ sendAck b' = SB_BUS_ACK)
    /\ (Z.land (status b) BCU_STATUS_TL <> 0 ->
        ~ addressed_to_us (ownAddr b) t3 t4 t5 ->
        telegramLen b' = telegramLen b /\ sendAck b' = 0).
Proof.
  intros Hcol Hn H3 H4 H5. unfold handleTelegram, processTel. simpl.
  rewrite Hcol. simpl.
  destruct (Z.leb_spec 8 (nextByteIndex b)); [|lia]. simpl.
  rewrite (load_at _ 3 t3), (load_at _ 4 t4) by (lia || done). simpl.
  rewrite (load_at _ 5 t5) by (lia || done). simpl.
  unfold addressed_to_us, SB_BUS_ACK.
  destruct (Z.eqb_spec (Z.land (status b) BCU_STATUS_TL) 0) as [Htl|Htl].
  { destruct (negb _); simpl; eexists; (split; [reflexivity|]); simpl;
      split_and!; intros; done. }
  destruct (Z.eqb_spec (Z.land t5 128) 0) as [Hg|Hg]; simpl.
  - destruct (Z.eqb_spec (Z.lor (Z.shiftl t3 8) t4) (ownAddr b)); simpl;
      eexists; (split; [reflexivity|]); simpl; split_and!; intros;
      try done; try tauto; try lia.
  - destruct (Z.eqb_spec (Z.lor (Z.shiftl t3 8) t4) 0);
      destruct (Z.leb_spec 0 (indexOfAddr (Z.lor (Z.shiftl t3 8) t4))); simpl;
      eexists; (split; [reflexivity|]); simpl; split_and!; intros;
      try done; try tauto; try lia.
Qed.

(** X2: a telegram on the line reaches the application: for octets, 8 at
    least and no more than the receive buffer holds, whose XOR is 0xff (the
    checksum that [prepareTelegram] makes), the events that the pulses of a
    sender cause at a receiver in IDLE make the handler store the octets in
    the receive buffer, find the telegram valid, and end in SEND_INIT with
    the send queue as it was; the telegram is published with its length and
    the ACK is armed as [handleTelegram] decides by the status bit and the
    destination. *)
Theorem telegram_round_trip (l : list Z) (t3 t4 t5 : Z) (br : Bus) :
  Forall is_byte l -> (8 <= length l)%nat ->
  xor_octets l (length l) = 0xff ->
  l !! 3%nat = Some t3 -> l !! 4%nat = Some t4 -> l !! 5%nat = Some t5 ->
  state br = IDLE ->
  Z.of_nat (length l) <= SB_TELEGRAM_SIZE ->
  (length l <= length (telegram br))%nat ->
  exists br',
    handle_all (frame_events l) br = Ok br'
    /\ state br' = SEND_INIT
    /\ take (length l) (telegram br') = l
    /\ keeps_send br br'
    /\ (Z.land (status br) BCU_STATUS_TL = 0 ->
        telegramLen br' = Z.of_nat (length l) /\ sendAck br' = 0)
    /\ (Z.land (status br) BCU_STATUS_TL <> 0 ->
        addressed_to_us (ownAddr br) t3 t4 t5 ->
        telegramLen br' = Z.of_nat (length l) /\ sendAck br' = SB_BUS_ACK)
    /\ (Z.land (status br) BCU_STATUS_TL <> 0 ->
        ~ addressed_to_us (ownAddr br) t3 t4 t5 ->
        telegramLen br' = telegramLen br /\ sendAck br' = 0).
Proof.
  intros Hl H8 Hx H3 H4 H5 Hst Hsz Hlen.
  set (br0 := br |> set_nextByteIndex 0 |> set_collision false
                 |> set_checksum 0xff |> set_sendAck 0 |> set_valid 1
                 |> set_state RECV_START).
  assert (H0 : handle_all (flat_map octet_events l) br
               = handle_all (flat_map octet_events l) br0).
  { destruct l as [|x l]; [simpl in H8; lia|].
    cbn [flat_map]. rewrite !handle_all_app. f_equal.
    unfold octet_events, byte_events. rewrite !handle_all_cons. f_equal.
    unfold timerInterruptHandler. rewrite !switch_passes_S.
    unfold state_switch. rewrite Hst. reflexivity. }
  destruct (octets_received l br0 Hl) as
    (b1 & Hr & R1 & R2 & R3 & R4 & R5 & R6 & R7 & R8 & R9 & R10 & R11);
    [done|done|by cbn; lia|by cbn; lia|].
  change (nextByteIndex br0) with 0 in R2, R3.
  change (telegram br0) with (telegram br) in R2.
  change (Z.to_nat 0) with 0%nat in R2. cbn [Nat.add] in R2.
  change (take 0 (telegram br)) with (@nil Z) in R2. cbn [app] in R2.
  rewrite Z.add_0_l in R3.
  assert (Hv : valid b1 = 1).
  { rewrite R4. by destruct l; [simpl in H8; lia|]. }
  assert (Hc : checksum b1 = 0).
  { rewrite R5, with_parity_xor_octets by done.
    unfold xor_octets in Hx. rewrite firstn_all in Hx. rewrite Hx.
    by vm_compute. }
  assert (Hk : forall k x, l !! k = Some x -> telegram b1 !! k = Some x).
  { intros k x Hk. rewrite R2. by apply lookup_app_l_Some. }
  destruct (handleTelegram_valid b1 t3 t4 t5) as
    (b2 & Hh & T1 & T2 & T3 & T4 & T5 & T6); [by rewrite R8|lia|auto..|].
  exists b2. unfold frame_events. rewrite handle_all_app, H0, Hr, Ok_bind.
  split.
  { cbn [handle_all]. unfold timerInterruptHandler.
    rewrite switch_passes_S. unfold state_switch. rewrite R1.
    unfold case_RECV_START. cbn [capFlag timeout_event negb].
    rewrite Hv, Hc. change (negb (1 =? 0) && (0 =? 0)) with true.
    by rewrite Hh. }
  split; [done|]. split.
  { rewrite T2, R2. by rewrite take_app_length. }
  split.
  { destruct R9 as (?&?&?&?), T3 as (?&?&?&?).
    repeat split; etrans; eauto. }
  change (status br) with (status br0). change (ownAddr br) with (ownAddr br0).
  change (telegramLen br) with (telegramLen br0).
  rewrite <- R10, <- R11, <- R6, <- R3. by split_and!.
Qed.

End BusLineFacts.

(** ** The handler and the memory of the application *)

Section BusOwnership.

Context `{Extern}.


(** X4: the handler puts no buffer into a send slot: the second slot stays as
    it is or becomes empty, and the first slot stays as it is, or, if it was
    in use, takes over the second. *)
Theorem handler_fills_no_slot (i : Input) (b b' : Bus) :
  timerInterruptHandler i b = Ok b' ->
  (sendNextTel b' = sendNextTel b \/ sendNextTel b' = None)
  /\ (sendCurTelegram b' = sendCurTelegram b
      \/ (sendCurTelegram b <> None /\ sendCurTelegram b' = sendNextTel b
          /\ sendNextTel b' = None)).
Proof.
  intros Hi. apply timerInterruptHandler_effect in Hi.
  assert (Hkeep : forall x y, keeps_send x y ->
    sendNextTel y = sendNextTel x /\ sendCurTelegram y = sendCurTelegram x).
  { by intros x y (? & ? & _). }
  assert (Hrel : forall x y, releases x y ->
    sendCurTelegram x <> None /\ sendCurTelegram y = sendNextTel x
    /\ sendNextTel y = None).
  { intros x y (a & buf & Hc & _ & _ & ? & ? & _). by rewrite Hc. }
  destruct Hi as [Heq Hor|Hk Hs Hn|Hs Hs' Hq|Hst' Ha Ha' Hs Hk
                 |b2 Hst' Ha Ha' Hs Hg Hc Hm|b2 Hst' Ha Hs Hg Hc Hk
                 |Hsend Hne Hk Ha Hs|Hs Hs' Ha Hc Hn Hm Ht].
  - subst b'. auto.
  - destruct (Hkeep _ _ Hk) as [-> ->]. auto.
  - destruct Hq as [Hk|Hr].
    + destruct (Hkeep _ _ Hk) as [-> ->]. auto.
    + destruct (Hrel _ _ Hr) as (? & ? & ?). auto.
  - destruct (Hkeep _ _ Hk) as [-> ->]. auto.
  - assert (Hb2 : sendNextTel b' = sendNextTel b2
                  /\ sendCurTelegram b' = sendCurTelegram b2).
    { destruct Hm as [[_ Hk]|(_ & _ & ? & ? & _)]; [by apply Hkeep|done]. }
    destruct Hb2 as [-> ->]. destruct Hg as [[_ Hk]|[_ Hr]].
    + destruct (Hkeep _ _ Hk) as [-> ->]. auto.
    + destruct (Hrel _ _ Hr) as (? & ? & ?). auto.
  - destruct (Hkeep _ _ Hk) as [-> ->]. destruct Hg as [[_ Hk']|[_ Hr]].
    + destruct (Hkeep _ _ Hk') as [-> ->]. auto.
    + destruct (Hrel _ _ Hr) as (? & ? & ?). auto.
  - destruct (Hkeep _ _ Hk) as [-> ->]. auto.
  - rewrite Hc, Hn. auto.
Qed.


(** X6: in every state the system can be in, the retry counter is between 0
    and 4, it is 0 while the bus is idle, and while the handler sends a
    telegram it is 0, 2 or 3. *)
Theorem retry_counter_range (s : Sys) :
  reachable s ->
  0 <= sendTries (bus s) <= 4
  /\ (state (bus s) = IDLE -> sendTries (bus s) = 0)
  /\ (sending (bus s) -> sendAck (bus s) = 0 ->
      sendTries (bus s) = 0 \/ sendTries (bus s) = 2 \/ sendTries (bus s) = 3).
Proof.
  intros Hr. destruct (reachable_queue_inv s Hr) as (_ & I2 & I3 & I4 & _).
  split; [done|]. split; [done|]. intros Hs Ha.
  destruct (I2 Hs Ha) as (_ & ? & ?). lia.
Qed.

(** X7: in every state the system can be in, a buffer is in at most one send
    slot, and the buffers in the slots exist and are not empty. *)
Theorem queued_buffers_allocated (s : Sys) (p : nat) :
  reachable s ->
  sendCurTelegram (bus s) = Some p \/ sendNextTel (bus s) = Some p ->
  ~ (sendCurTelegram (bus s) = Some p /\ sendNextTel (bus s) = Some p)
  /\ exists buf, mem (bus s) !! p = Some buf /\ (0 < length buf)%nat.
Proof.
  intros Hr Hp. split.
  - destruct (reachable_queue_inv s Hr) as (_ & _ & _ & _ & _ & I6 & _).
    intros [Hc Hn]. by apply (I6 p).
  - apply (reachable_buffers_inv s Hr). tauto.
Qed.







End BusOwnership.

(** ** The passes of the handler through the switch *)

Section BusPasses.

Context `{Extern}.





End BusPasses.

(** ** What [handleTelegram] makes of what was received *)

Section BusHandle.

Context `{Extern}.

(** X10: after a run of bytes that is no telegram (fewer than 8 bytes, or a
    parity or checksum error) and no single byte, [handleTelegram] discards
    what the receive buffer holds, also a telegram that was published before,
    and answers with a NACK, whatever the destination; the send queue stays
    as it is. *)
Theorem handleTelegram_invalid (valid : bool) (b : Bus) :
  collision b = false -> nextByteIndex b <> 1 ->
  nextByteIndex b < 8 \/ valid = false ->
  exists b',
    handleTelegram valid b = Ok b'
    /\ telegramLen b' = 0 /\ sendAck b' = SB_BUS_NACK
    /\ state b' = SEND_INIT
    /\ match_time b' = SEND_ACK_WAIT_TIME - PRE_SEND_TIME
    /\ telegram b' = telegram b /\ keeps_send b b'.
Proof.
  intros Hc Hn Hv. unfold handleTelegram. simpl. rewrite Hc.
  assert (Hb : (8 <=? nextByteIndex b) && valid = false).
  { destruct Hv as [Hv| ->]; [|apply andb_false_r].
    by destruct (Z.leb_spec 8 (nextByteIndex b)); [lia|]. }
  rewrite Hb.
  destruct (Z.eqb_spec (nextByteIndex b) 1) as [?|_]; [done|].
  eexists. split; [reflexivity|]. by repeat split.
Qed.

(** X11: a single byte on the bus: if it is the ACK, or the retry counter
    is above 3, and the first send slot is in use, the current telegram is
    released, also one that was not transmitted yet; otherwise the send
    queue stays as it is.  The receive buffer's telegram stays published, no
    answer is sent, and the next transmission waits for the full pause. *)
Theorem handleTelegram_single_byte (valid : bool) (b : Bus) :
  collision b = false -> nextByteIndex b = 1 -> slot_allocated b ->
  exists b',
    handleTelegram valid b = Ok b'
    /\ sendAck b' = 0 /\ telegramLen b' = telegramLen b
    /\ state b' = SEND_INIT
    /\ match_time b' = SEND_WAIT_TIME - PRE_SEND_TIME
    /\ (((Z.land (currentByte b) 0xff = SB_BUS_ACK \/ 3 < sendTries b)
         /\ sendCurTelegram b <> None) -> releases b b')
    /\ (~ ((Z.land (currentByte b) 0xff = SB_BUS_ACK \/ 3 < sendTries b)
           /\ sendCurTelegram b <> None) -> keeps_send b b').
Proof.
  intros Hc Hn Ha. unfold handleTelegram. simpl. rewrite Hc, Hn. simpl.
  destruct (bool_decide_reflect (sendCurTelegram b <> None)) as [Hcur|Hcur].
  - destruct (((Z.land (currentByte b) 255 =? SB_BUS_ACK) || (3 <? sendTries b)))
      eqn:Hcond; simpl.
    + destruct (sendCurTelegram b) as [a|] eqn:Hcur'; [|done].
      destruct (Ha a Hcur') as (buf & Hbuf & Hlen).
      erewrite sendNextTelegram_ok by (simpl; eauto). simpl.
      eexists. split; [reflexivity|]. simpl.
      split_and!; try done.
      * intros _. exists a, buf. by repeat split.
      * intros Hno. destruct Hno. split; [|done].
        apply orb_true_iff in Hcond as [Hx|Hx]; [left|right]; lia.
    + eexists. split; [reflexivity|]. simpl. split_and!; try done.
      intros [[Hx|Hx] _]; apply orb_false_iff in Hcond as [? ?]; lia.
  - rewrite andb_false_r. eexists. split; [reflexivity|]. simpl.
    split_and!; try done. by intros [_ ?].
Qed.

End BusHandle.

(** ** The frame that [prepareTelegram] makes *)

Section BusPrepare.

Context `{Extern}.





End BusPrepare.

(** * The properties on a device *)

#[local] Existing Instance sample_extern.

Lemma sample_sys_reachable : reachable sample_sys.
Proof. apply reachable_begin. Qed.

Lemma sample_queued_reachable : reachable sample_queued.
Proof.
  apply (run_reachable sample_submit sample_sys); [apply sample_sys_reachable|].
  vm_compute. reflexivity.
Qed.

Lemma after_quiet_reachable (n k : nat) :
  run_quiet n sample_queued = Ok (k, after_quiet n sample_queued) ->
  reachable (after_quiet n sample_queued).
Proof.
  intros Hrun. by apply (run_quiet_reachable n sample_queued _ k);
    [apply sample_queued_reachable|].
Qed.

(** C1 does not hold as stated: for the sample telegram of 8 octets the XOR
    of the octets 0 to 8 of the prepared telegram is 0xff, not 0. *)
Lemma prepareTelegram_xor_not_zero :
  exists tel',
    prepareTelegram 0x1101 sample_telegram 8 = Ok tel'
    /\ xor_octets tel' 9 = 0xff /\ xor_octets tel' 9 <> 0.
Proof.
  eexists. split; [vm_compute; reflexivity|].
  split; [vm_compute; reflexivity|vm_compute; discriminate].
Qed.

Lemma prepareTelegram_checksum_witness :
  exists tel',
    prepareTelegram 0x1101 sample_telegram (Z.of_nat 8) = Ok tel'
    /\ length tel' = length sample_telegram
    /\ tel' !! 8%nat = Some (Z.lxor 0xff (xor_octets tel' 8))
    /\ xor_octets tel' 9 = 0xff.
Proof.
  apply (prepareTelegram_checksum 0x1101 sample_telegram 8).
  - unfold sample_telegram, is_byte.
    repeat (apply Forall_cons; split; [lia|]). apply Forall_nil_2.
  - simpl. lia.
  - simpl. lia.
Defined.

(** C2 does not hold as stated: with [BCU_STATUS_TL] clear, a valid
    telegram of 8 octets that is addressed to this very device is published,
    but no ACK is armed.  So an accepted telegram is not acknowledged if a
    clear bit means promiscuous, and the ACK is not armed for the own address
    if a set bit does. *)
Lemma handleTelegram_published_not_acked :
  Z.land (status sample_received) BCU_STATUS_TL = 0
  /\ processTel sample_received = Ok true
  /\ exists b',
       handleTelegram true sample_received = Ok b'
       /\ telegramLen b' = 8 /\ sendAck b' = 0 /\ sendAck b' <> SB_BUS_ACK.
Proof.
  split; [vm_compute; reflexivity|]. split; [vm_compute; reflexivity|].
  eexists. split; [vm_compute; reflexivity|].
  split; [vm_compute; reflexivity|].
  split; [vm_compute; reflexivity|vm_compute; discriminate].
Qed.

Lemma handleTelegram_ack_policy_witness :
  exists b',
    handleTelegram true (sample_received |> set_status 0x08) = Ok b'
    /\ sendAck b' = SB_BUS_ACK /\ telegramLen b' = 8.
Proof.
  destruct (handleTelegram_ack_policy (sample_received |> set_status 0x08)
              0x11 0x01 0x61) as (b' & Hb & Hset & _).
  - reflexivity.
  - vm_compute. discriminate.
  - reflexivity.
  - reflexivity.
  - reflexivity.
  - exists b'. split; [exact Hb|].
    assert (Htl : Z.land (status (sample_received |> set_status 0x08))
                    BCU_STATUS_TL <> 0) by (vm_compute; discriminate).
    assert (Hus : addressed_to_us
                    (ownAddr (sample_received |> set_status 0x08))
                    0x11 0x01 0x61)
      by (left; split; vm_compute; reflexivity).
    destruct (Hset Htl) as (Hack & Hlen & _).
    split; [by apply Hack|]. by rewrite (Hlen Hus).
Defined.

(** C6 does not hold as stated: for the pulse of a zero bit 104 us after the
    start bit the code ORs no bit into [currentByte] and advances [bitMask]
    to 2, where the loop as described ORs bit 0 and ends with [bitMask] at 4;
    and for an event at 50 us the code leaves [bitMask] at 1, where the
    description advances it. *)
Lemma recv_bits_not_as_described :
  (let b := recv_bits 104 sample_receiving in
   (currentByte b, parity b, bitTime b, bitMask b) = (0, 1, 104, 2))
  /\ spec_recv_bits 104 (0, 1, 0, 1) = (1, 0, 104, 4)
  /\ bitMask (recv_bits 50 sample_receiving) = 1
  /\ spec_recv_bits 50 (0, 1, 0, 1) = (0, 1, 0, 2).
Proof. repeat split; vm_compute; reflexivity. Qed.

Lemma RECV_BYTE_bits_witness :
  recv_bits 520 (sample_receiving |> set_bitTime 208 |> set_bitMask 4)
  = (sample_receiving |> set_currentByte 12 |> set_parity 1
       |> set_bitTime 520 |> set_bitMask 32).
Proof.
  destruct (RECV_BYTE_bits 520
              (sample_receiving |> set_bitTime 208 |> set_bitMask 4))
    as [_ Hlate].
  destruct Hlate as (Heq & _ & _).
  - vm_compute. discriminate.
  - rewrite Heq. vm_compute. reflexivity.
Defined.

(** C7 does not hold as stated: for the acknowledgement 0xCC, which has four
    set bits, bit 8 stays clear and the nine bits contain four set bits, an
    even number. *)
Lemma ack_byte_parity_even :
  exists b',
    case_SEND_BIT_0 sample_acking = Ok b'
    /\ currentByte b' = 0xCC
    /\ count_bits 9 (currentByte b') = 4%nat
    /\ Nat.odd (count_bits 9 (currentByte b')) = false.
Proof.
  eexists. split; [vm_compute; reflexivity|].
  repeat split; vm_compute; reflexivity.
Qed.

Lemma SEND_BIT_0_parity_witness :
  exists b',
    case_SEND_BIT_0 sample_acking = Ok b'
    /\ Z.land (currentByte b') 0xff = 0xCC
    /\ Z.testbit (currentByte b') 8 = Nat.odd (count_bits 8 0xCC)
    /\ Nat.even (count_bits 9 (currentByte b')) = true.
Proof.
  apply (SEND_BIT_0_parity sample_acking 0xCC).
  - left. split; [vm_compute; discriminate|reflexivity].
  - unfold is_byte. lia.
Defined.

(** C8 does not hold as stated: with the PWM match at 416, an edge captured
    at 405, before 416 - 10, does not make the transmitter surrender when the
    handler reads the counter at 407: the handler goes on to SEND_BIT_0 and
    leaves the PWM match armed. *)
Lemma SEND_START_BIT_early_capture_sends :
  let b := bus (after_quiet 1 sample_queued) in
  let i := {| capFlag := true; timeFlag := false;
              capture := 405; value := 407 |} in
  state b = SEND_START_BIT /\ capture i < match_pwm b - 10
  /\ exists b',
       timerInterruptHandler i b = Ok b'
       /\ state b' = SEND_BIT_0 /\ match_pwm b' = 416.
Proof.
  split; [vm_compute; reflexivity|]. split; [vm_compute; reflexivity|].
  eexists. split; [vm_compute; reflexivity|].
  split; vm_compute; reflexivity.
Qed.

Lemma SEND_START_BIT_capture_witness :
  exists b',
    timerInterruptHandler (edge_event 300) (bus (after_quiet 1 sample_queued))
    = Ok b'
    /\ state b' = RECV_BYTE /\ match_pwm b' = 0xffff.
Proof.
  destruct (SEND_START_BIT_capture (edge_event 300)
              (bus (after_quiet 1 sample_queued))) as [Hearly _].
  - vm_compute. reflexivity.
  - reflexivity.
  - destruct Hearly as (_ & b' & Hb & Hs & Hp & _).
    + vm_compute. reflexivity.
    + exists b'. by repeat split.
Defined.

Lemma handleTelegram_collision_witness :
  exists b',
    handleTelegram true (sample_received |> set_collision true) = Ok b'
    /\ collision b' = false /\ state b' = SEND_INIT
    /\ telegramLen b' = 0 /\ sendAck b' = 0.
Proof.
  destruct (handleTelegram_collision true
              (sample_received |> set_collision true))
    as (b' & Hb & Hc & Hs & _ & Hcol).
  - intros a Ha. vm_compute in Ha. discriminate Ha.
  - vm_compute. lia.
  - destruct Hcol as (Hl & Ha & _); [reflexivity|].
    exists b'. by repeat split.
Defined.

Lemma null_slot_no_retries_witness :
  (sendCurTelegram (bus (after_quiet 257 sample_queued)) = None ->
   sendTries (bus (after_quiet 257 sample_queued)) = 0)
  /\ forall i,
       timerInterruptHandler i (bus (after_quiet 257 sample_queued))
       <> Fault NullPointer.
Proof.
  apply (null_slot_no_retries (after_quiet 257 sample_queued)).
  apply (after_quiet_reachable 257 3). vm_compute. reflexivity.
Defined.

Lemma repeat_flag_inverted_once_witness :
  sendTries (bus sample_collided) = 0
  /\ collision (bus sample_collided) = true
  /\ mem (bus (after_quiet 84 sample_collided)) !! 1%nat
     = Some [0xBC; 0x11; 0x01; 0x00; 0x01; 0xE1; 0x00; 0x81; 0x32]
  /\ exists b',
       timerInterruptHandler timeout_event
         (bus (after_quiet 84 sample_collided)) = Ok b'
       /\ sendTries b' = 2
       /\ mem b' !! 1%nat
          = Some [0x9C; 0x11; 0x01; 0x00; 0x01; 0xE1; 0x00; 0x81; 0x12]
       /\ forall n s',
            run_current 1
              (mkSys b' (fg (after_quiet 84 sample_collided))) n s' ->
            mem (bus s') !! 1%nat
            = Some [0x9C; 0x11; 0x01; 0x00; 0x01; 0xE1; 0x00; 0x81; 0x12].
Proof.
  split; [vm_compute; reflexivity|]. split; [vm_compute; reflexivity|].
  destruct (repeat_flag_inverted_once sample_queued
              (after_quiet 84 sample_collided)
              (0 + attempt_end (after_quiet 5 sample_queued) sample_collided
               + 1)
              timeout_event 1
              [0xBC; 0x11; 0x01; 0x00; 0x01; 0xE1; 0x00; 0x81; 0x32] 0xBC 0x32)
    as (Hfirst & _ & Hmark).
  - apply sample_queued_reachable.
  - vm_compute. reflexivity.
  - vm_compute. reflexivity.
  - vm_compute. reflexivity.
  - vm_compute. reflexivity.
  - reflexivity.
  - vm_compute. reflexivity.
  - unfold is_byte. lia.
  - apply (run_current_app 1 sample_queued sample_collided).
    + apply (run_current_step 1 sample_queued (after_quiet 5 sample_queued)).
      * apply (quiet_run_current 1 5).
        -- vm_compute. reflexivity.
        -- vm_compute. reflexivity.
        -- vm_compute. reflexivity.
      * exists (Interrupt (edge_event 0)). vm_compute. reflexivity.
      * vm_compute. reflexivity.
    + apply (quiet_run_current 1 84).
      * vm_compute. reflexivity.
      * vm_compute. reflexivity.
      * vm_compute. reflexivity.
  - split.
    { apply Hfirst. vm_compute. discriminate. }
    destruct Hmark as (b' & Hb & Ht & Hl & Hm & Hrun).
    + reflexivity.
    + right. vm_compute. reflexivity.
    + vm_compute. reflexivity.
    + vm_compute. reflexivity.
    + rewrite Hl in Hm.
      exists b'. split; [exact Hb|]. split; [exact Ht|]. split; [exact Hm|].
      intros n s' Hr. destruct (Hrun n s' Hr) as [Hs _]. by rewrite Hs.
Defined.

(** C4 does not hold as stated: on a quiet bus, on which nobody
    acknowledges, the telegram is transmitted 3 times; then the handler
    releases the slot, octet 0 of the telegram is 0 and the bus is idle.
    There is no fourth transmission. *)
Lemma released_after_three_transmissions :
  exists s',
    run_quiet 257 sample_queued = Ok (3%nat, s')
    /\ sendCurTelegram (bus s') = None /\ state (bus s') = IDLE
    /\ mem (bus s') !! 1%nat
       = Some [0x00; 0x11; 0x01; 0x00; 0x01; 0xE1; 0x00; 0x81; 0x12]
    /\ forall n, exists s'',
         run_quiet (257 + n) sample_queued = Ok (3%nat, s'').
Proof.
  exists (after_quiet 257 sample_queued).
  assert (Hrun : run_quiet 257 sample_queued
                 = Ok (3%nat, after_quiet 257 sample_queued))
    by (vm_compute; reflexivity).
  split; [exact Hrun|]. split; [vm_compute; reflexivity|].
  split; [vm_compute; reflexivity|]. split; [vm_compute; reflexivity|].
  assert (Hidle : forall n, run_quiet n (after_quiet 257 sample_queued)
                            = Ok (0%nat, after_quiet 257 sample_queued)).
  { induction n as [|n IH]; [reflexivity|].
    change (run_quiet (S n) (after_quiet 257 sample_queued))
      with (exec (Interrupt (quiet_bus (bus (after_quiet 257 sample_queued))))
              (after_quiet 257 sample_queued)
            ≫= λ s1, run_quiet n s1
            ≫= λ '(k, s2),
                 Ok ((attempt_end (after_quiet 257 sample_queued) s1 + k)%nat,
                     s2)).
    assert (He : exec (Interrupt (quiet_bus (bus (after_quiet 257 sample_queued))))
                   (after_quiet 257 sample_queued)
                 = Ok (after_quiet 257 sample_queued))
      by (vm_compute; reflexivity).
    rewrite He. simpl. rewrite IH. reflexivity. }
  assert (Happ : forall m n s k s1, run_quiet m s = Ok (k, s1) ->
            run_quiet (m + n) s
            = run_quiet n s1 ≫= λ '(k', s2), Ok ((k + k')%nat, s2)).
  { induction m as [|m IHm]; intros n s k s1 Hm.
    - injection Hm as <- <-. simpl. by destruct (run_quiet n s) as [[??]|].
    - change (run_quiet (S m + n) s)
        with (exec (Interrupt (quiet_bus (bus s))) s
              ≫= λ s1, run_quiet (m + n) s1
              ≫= λ '(k, s2), Ok ((attempt_end s s1 + k)%nat, s2)).
      change (run_quiet (S m) s)
        with (exec (Interrupt (quiet_bus (bus s))) s
              ≫= λ s1, run_quiet m s1
              ≫= λ '(k, s2), Ok ((attempt_end s s1 + k)%nat, s2)) in Hm.
      destruct (exec _ s) as [s0|]; [|discriminate]. simpl in *.
      destruct (run_quiet m s0) as [[k0 s3]|] eqn:Hm0; [|discriminate].
      simpl in Hm. injection Hm as <- <-.
      rewrite (IHm n s0 k0 s3 Hm0).
      destruct (run_quiet n s3) as [[k' s4]|]; simpl; [|done].
      by rewrite Nat.add_assoc. }
  intros n. exists (after_quiet 257 sample_queued).
  rewrite (Happ 257%nat n _ _ _ Hrun), Hidle. reflexivity.
Qed.

Lemma retry_bound_witness :
  (3 <= 3)%nat
  /\ sendTries (bus (after_quiet 256 sample_queued)) = 4
  /\ exists b',
       timerInterruptHandler timeout_event (bus (after_quiet 256 sample_queued))
       = Ok b'
       /\ mem b' !! 1%nat
          = Some [0x00; 0x11; 0x01; 0x00; 0x01; 0xE1; 0x00; 0x81; 0x12]
       /\ sendCurTelegram b' = None /\ sendTries b' = 0.
Proof.
  destruct (retry_bound sample_queued (after_quiet 256 sample_queued) 1 3)
    as (Hle & _ & Hthird).
  - apply sample_queued_reachable.
  - vm_compute. reflexivity.
  - vm_compute. reflexivity.
  - apply (quiet_run_current 1 256).
    + vm_compute. reflexivity.
    + vm_compute. reflexivity.
    + vm_compute. reflexivity.
  - split; [exact Hle|]. destruct (Hthird eq_refl) as [Ht Hrel].
    split; [exact Ht|].
    destruct (Hrel timeout_event) as (b' & buf & Hb & Hm & Hm' & Hc & _ & Ht').
    + reflexivity.
    + right. vm_compute. reflexivity.
    + vm_compute. reflexivity.
    + exists b'. split; [exact Hb|].
      assert (Hbuf : buf = [0x9C; 0x11; 0x01; 0x00; 0x01; 0xE1; 0x00; 0x81; 0x12]).
      { assert (Hm0 : mem (bus (after_quiet 256 sample_queued)) !! 1%nat
                      = Some [0x9C; 0x11; 0x01; 0x00; 0x01; 0xE1; 0x00; 0x81; 0x12])
          by (vm_compute; reflexivity).
        rewrite Hm0 in Hm. by injection Hm as <-. }
      split; [by rewrite Hm', Hbuf|]. split; [|exact Ht'].
      rewrite Hc. vm_compute. reflexivity.
Defined.

(** C5 fails on the code: the handler can run between the test
    [!sendCurTelegram] of [sendTelegram] and its assignment
    [sendNextTel = telegram].  In [race_trace] the buffer 1 is queued;
    [sendTelegram] for the buffer 2 finds the first slot in use and the
    second one free; the handler then receives an acknowledgement and calls
    [sendNextTelegram], which empties the first slot; and [sendTelegram]
    puts the buffer 2 into the second slot.  The system is then in a state
    with the second slot in use and the first one empty. *)
Theorem send_queue_race :
  exists s,
    run race_trace sample_sys = Ok s /\ reachable s
    /\ sendNextTel (bus s) = Some 2%nat /\ sendCurTelegram (bus s) = None
    /\ ~ queue_order (bus s).
Proof.
  exists (the (run race_trace sample_sys)).
  assert (Hrun : run race_trace sample_sys
                 = Ok (the (run race_trace sample_sys)))
    by (vm_compute; reflexivity).
  assert (Hn : sendNextTel (bus (the (run race_trace sample_sys))) = Some 2%nat)
    by (vm_compute; reflexivity).
  assert (Hc : sendCurTelegram (bus (the (run race_trace sample_sys))) = None)
    by (vm_compute; reflexivity).
  split; [exact Hrun|]. split.
  { by apply (run_reachable race_trace sample_sys);
      [apply sample_sys_reachable|]. }
  split; [exact Hn|]. split; [exact Hc|].
  unfold queue_order. rewrite Hn, Hc. intros Ho. by apply Ho.
Qed.

(** ** The further properties on the device *)

Lemma byte_round_trip_witness :
  exists bs' br',
    case_SEND_BIT_0 sample_acking = Ok bs'
    /\ handle_all (byte_events (pulse_train 10 bs' BIT_PULSE_TIME))
         (sample_bus |> set_state RECV_START) = Ok br'
    /\ state br' = RECV_START
    /\ telegram br' !! 0%nat = Some 0xCC
    /\ nextByteIndex br' = 1.
Proof.
  destruct (byte_round_trip 0xCC sample_acking
              (sample_bus |> set_state RECV_START))
    as (bs' & br' & Hs & Hr & Hst & Htel & Hn & _).
  - unfold is_byte. lia.
  - left. split; [vm_compute; discriminate|vm_compute; reflexivity].
  - reflexivity.
  - vm_compute. split; [discriminate|reflexivity].
  - vm_compute. reflexivity.
  - exists bs', br'. split; [exact Hs|]. split; [exact Hr|].
    split; [exact Hst|]. split; [|exact Hn].
    rewrite Htel. vm_compute. reflexivity.
Defined.

Lemma telegram_round_trip_witness :
  exists br',
    handle_all
      (frame_events [0xBC; 0x11; 0x01; 0x00; 0x01; 0xE1; 0x00; 0x81; 0x32])
      sample_bus = Ok br'
    /\ state br' = SEND_INIT
    /\ take 9 (telegram br')
       = [0xBC; 0x11; 0x01; 0x00; 0x01; 0xE1; 0x00; 0x81; 0x32]
    /\ telegramLen br' = 9 /\ sendAck br' = 0.
Proof.
  destruct (telegram_round_trip
              [0xBC; 0x11; 0x01; 0x00; 0x01; 0xE1; 0x00; 0x81; 0x32]
              0x00 0x01 0xE1 sample_bus)
    as (br' & Hr & Hst & Htel & _ & Hclear & _).
  - unfold is_byte. repeat (apply Forall_cons; split; [lia|]).
    apply Forall_nil_2.
  - simpl. lia.
  - vm_compute. reflexivity.
  - reflexivity.
  - reflexivity.
  - reflexivity.
  - reflexivity.
  - vm_compute. discriminate.
  - vm_compute. lia.
  - destruct Hclear as [Hlen Hack]; [vm_compute; reflexivity|].
    exists br'. split; [exact Hr|]. split; [exact Hst|].
    split; [exact Htel|]. split; [exact Hlen|exact Hack].
Defined.


Lemma handler_fills_no_slot_witness :
  (sendNextTel (bus (after_quiet 257 sample_queued))
   = sendNextTel (bus (after_quiet 256 sample_queued))
   \/ sendNextTel (bus (after_quiet 257 sample_queued)) = None)
  /\ (sendCurTelegram (bus (after_quiet 257 sample_queued))
      = sendCurTelegram (bus (after_quiet 256 sample_queued))
      \/ (sendCurTelegram (bus (after_quiet 256 sample_queued)) <> None
          /\ sendCurTelegram (bus (after_quiet 257 sample_queued))
             = sendNextTel (bus (after_quiet 256 sample_queued))
          /\ sendNextTel (bus (after_quiet 257 sample_queued)) = None)).
Proof.
  apply (handler_fills_no_slot
           (quiet_bus (bus (after_quiet 256 sample_queued)))).
  vm_compute. reflexivity.
Defined.


Lemma retry_counter_range_witness :
  0 <= sendTries (bus (after_quiet 256 sample_queued)) <= 4
  /\ sendTries (bus (after_quiet 256 sample_queued)) = 4.
Proof.
  destruct (retry_counter_range (after_quiet 256 sample_queued))
    as (Hrange & _).
  - apply (after_quiet_reachable 256 3). vm_compute. reflexivity.
  - split; [exact Hrange|]. vm_compute. reflexivity.
Defined.

Lemma queued_buffers_allocated_witness :
  exists buf,
    mem (bus sample_queued) !! 1%nat = Some buf /\ (0 < length buf)%nat.
Proof.
  destruct (queued_buffers_allocated sample_queued 1) as [_ Hbuf].
  - apply sample_queued_reachable.
  - left. vm_compute. reflexivity.
  - exact Hbuf.
Defined.


Lemma handleTelegram_invalid_witness :
  exists b',
    handleTelegram true (sample_received |> set_nextByteIndex 5) = Ok b'
    /\ telegramLen b' = 0 /\ sendAck b' = SB_BUS_NACK.
Proof.
  destruct (handleTelegram_invalid true
              (sample_received |> set_nextByteIndex 5))
    as (b' & Hb & Hl & Ha & _).
  - reflexivity.
  - vm_compute. discriminate.
  - left. vm_compute. reflexivity.
  - exists b'. split; [exact Hb|]. split; [exact Hl|exact Ha].
Defined.

Lemma handleTelegram_single_byte_witness :
  sendTries (bus sample_queued) = 0
  /\ exists b',
       handleTelegram false
         (bus sample_queued |> set_nextByteIndex 1 |> set_currentByte 0xCC)
       = Ok b'
       /\ sendCurTelegram b' = None /\ sendAck b' = 0.
Proof.
  split; [vm_compute; reflexivity|].
  destruct (handleTelegram_single_byte false
              (bus sample_queued |> set_nextByteIndex 1 |> set_currentByte 0xCC))
    as (b' & Hb & Ha & _ & _ & _ & Hrel & _).
  - vm_compute. reflexivity.
  - reflexivity.
  - intros a Ha. vm_compute in Ha. injection Ha as <-.
    eexists. split; [vm_compute; reflexivity|]. simpl. lia.
  - destruct Hrel as (a & buf & _ & _ & _ & Hc & _).
    + split; [left; vm_compute; reflexivity|vm_compute; discriminate].
    + exists b'. split; [exact Hb|]. split; [|exact Ha].
      rewrite Hc. vm_compute. reflexivity.
Defined.

